(** * Finance tracker: wallet assignment, transaction ledger and dashboard

    A shallow embedding of the hardened Express server of the repository
    (the variant with the wallet pool, the required-field checks and the
    database-availability checks) together with the proofs of the
    properties stated about it.  Of the two earlier servers
    (server-with-auth.js, server.js) only the way they number a
    transaction is embedded, in [EarlierServers].
    The predecessor of the server (the same routes without the wallet
    pool and without the availability checks, with a monthly breakdown
    in the dashboard) is embedded in [Predecessor], the splitting of the
    Authorization header in [Header], and the ledger contract
    (contracts/FinanceTracker.sol) in [FinanceTracker].

    Layout:
    - [JS]        the fragment of JavaScript values the handlers branch on:
                  truthiness, [||], [parseFloat], [String], the addition
                  of doubles;
    - data model  the Mongoose schemas ([User], [Transaction]), the world,
                  the responses;
    - store       the model operations, with casting, enum validation
                  and unique indexes at [save];
    - wallet pool [AVAILABLE_WALLETS], [assignedWallets], [getAvailableWallet];
    - routes      one function per route, over an explicit [World];
    - the vocabulary of the properties, then the proofs.

    Numbers.  A JavaScript number is an IEEE-754 double: [NaN], one of
    the two infinities, or a finite value, kept as the fraction it is
    equal to.  Every sum is the exact sum rounded to the nearest double,
    ties to even ([JS.round64]), and so is every decimal literal that is
    read.  Transaction identifiers are the doubles that are integers.

    Routes.  [Request] has the six routes that read or write the
    database.  The health check ([GET /api/status]), the root route and
    the fallback for unknown paths are not part of it.

    Libraries.  [bcryptjs] and [jsonwebtoken] are kept symbolic: a hash
    is matched by the string it was made from; a token is its payload
    with the secret it was signed with and the time it expires. *)

From Stdlib Require Import ZArith QArith String Ascii DecimalString Lia Sorted.
From stdpp Require Import base decidable option list gmap sets strings fin_maps.

Local Open Scope string_scope.
Local Open Scope list_scope.

(* ===================================================================== *)
(** * JavaScript values *)
(* ===================================================================== *)

Module JS.

(** ** Numbers *)

(** A number is an IEEE-754 double: not-a-number, [+Infinity] /
    [-Infinity] ([neg = true]), or a finite value, given by the fraction
    it is equal to.  The two zeros are one value here: the server never
    divides, and [JSON.stringify] writes both as [0]. *)
Inductive number : Type :=
  | NaN
  | Infinity (neg : bool)
  | Fin (q : Q).

Definition zero : number := Fin 0.

(** *** Rounding to the nearest double *)

(** The integer nearest to [n / d], for [0 <= n] and [0 < d]; of two
    integers equally near, the even one. *)
Definition nearest_even (n d : Z) : Z :=
  let q := (n / d)%Z in
  match (2 * (n mod d) ?= d)%Z with
  | Lt => q
  | Eq => if Z.even q then q else (q + 1)%Z
  | Gt => (q + 1)%Z
  end.

(** [n / d >= 2 ^ k] *)
Definition at_least_pow2 (n d : positive) (k : Z) : bool :=
  if (0 <=? k)%Z then (Zpos d * 2 ^ k <=? Zpos n)%Z
  else (Zpos d <=? Zpos n * 2 ^ (- k))%Z.

(** The binary exponent of [n / d]: the [k] with
    [2 ^ k <= n / d < 2 ^ (k + 1)]. *)
Definition binary_exponent (n d : positive) : Z :=
  let k := (Z.log2 (Zpos n) - Z.log2 (Zpos d))%Z in
  if at_least_pow2 n d k then k else (k - 1)%Z.

(** The double nearest to the fraction [n / d], negated when [sg] is
    set: a multiple [m * 2 ^ e] of a power of two with [e >= -1074] and a
    mantissa [m] of at most 53 bits, the mantissa being the nearest
    integer, the even one of two; an infinity from [2 ^ 1024] on. *)
Definition round_positive (sg : bool) (n d : positive) : number :=
  let e := Z.max (binary_exponent n d - 52) (-1074) in
  let m := if (0 <=? e)%Z then nearest_even (Zpos n) (Zpos d * 2 ^ e)
           else nearest_even (Zpos n * 2 ^ (- e)) (Zpos d) in
  let signed := if sg then (- m)%Z else m in
  if (971 <? e)%Z || ((e =? 971)%Z && (2 ^ 53 <=? m)%Z) then Infinity sg
  else if (0 <=? e)%Z then Fin (inject_Z (signed * 2 ^ e))
  else Fin (Qred (Qmake signed (Z.to_pos (2 ^ (- e))))).

(** The double nearest to a fraction (round to nearest, ties to even):
    the rounding of every arithmetic operation and of every decimal
    literal. *)
Definition round64 (q : Q) : number :=
  match Qnum q with
  | Z0 => Fin 0
  | Zpos n => round_positive false n (Qden q)
  | Zneg n => round_positive true n (Qden q)
  end.

(** [a + b] on numbers: the exact sum, rounded. *)
Definition add (a b : number) : number :=
  match a, b with
  | NaN, _ | _, NaN => NaN
  | Infinity s, Infinity t => if Bool.eqb s t then Infinity s else NaN
  | Infinity s, Fin _ => Infinity s
  | Fin _, Infinity t => Infinity t
  | Fin p, Fin q => round64 (p + q)
  end.

(** [- a]. *)
Definition neg (a : number) : number :=
  match a with
  | NaN => NaN
  | Infinity s => Infinity (negb s)
  | Fin q => Fin (- q)
  end.

(** [a - b]. *)
Definition sub (a b : number) : number := add a (neg b).

(** [a + b] for two numbers that are integers, as an integer.  (The
    fall-back is for sums beyond the range of doubles, which the sum of
    a double and 1 is not.) *)
Definition add_integers (a b : Z) : Z :=
  match add (Fin (inject_Z a)) (Fin (inject_Z b)) with
  | Fin q => Qnum q
  | _ => (a + b)%Z
  end.

(** ToBoolean of a number: [NaN] and [0] are falsy. *)
Definition number_truthy (n : number) : bool :=
  match n with
  | NaN => false
  | Infinity _ => true
  | Fin q => negb (Qnum q =? 0)%Z
  end.

Definition number_eqb (a b : number) : bool :=
  match a, b with
  | Infinity s, Infinity t => Bool.eqb s t
  | Fin p, Fin q => Qeq_bool p q
  | _, _ => false
  end.

(** ** Values of a request body field

    [express.json()] hands the handler the parsed JSON body; a field that
    is absent reads as [undefined].  The scalar JSON values are modelled;
    arrays and objects as field values are not.  [Num q] is the number
    written as the literal of value [q]: [JSON.parse] reads it as the
    double nearest to [q]. *)
Inductive value : Type :=
  | Undefined
  | Null
  | Boolean (b : bool)
  | Num (q : Q)
  | Str (s : string).

(** ToBoolean: [undefined], [null], [false], [0], [NaN] and [""] are
    falsy. *)
Definition truthy (v : value) : bool :=
  match v with
  | Undefined | Null => false
  | Boolean b => b
  | Num q => number_truthy (round64 q)
  | Str s => negb (String.eqb s "")
  end.

(** [v || d]: the left operand when it is truthy, else the right one. *)
Definition or (v d : value) : value := if truthy v then v else d.

(** [v === 'lit']: strict equality with a string literal. *)
Definition strict_eq_str (v : value) (lit : string) : bool :=
  match v with
  | Str s => String.eqb s lit
  | _ => false
  end.

(** ** parseFloat

    A string is the sequence of the bytes of its UTF-8 encoding. *)

Definition is_digit (c : ascii) : bool :=
  let n := nat_of_ascii c in (48 <=? n)%nat && (n <=? 57)%nat.

Definition digit_value (c : ascii) : Z := Z.of_nat (nat_of_ascii c) - 48.

(** The white space and line terminators of one byte: TAB, LF, VT, FF,
    CR, SP. *)
Definition is_space (c : ascii) : bool :=
  let n := nat_of_ascii c in
  ((9 <=? n)%nat && (n <=? 13)%nat) || (n =? 32)%nat.

(** The last byte of the white space and line terminators U+2000 to
    U+200A, U+2028, U+2029 and U+202F, whose first bytes are E2 80. *)
Definition is_space_E2_80 (c : ascii) : bool :=
  let n := nat_of_ascii c in
  ((128 <=? n)%nat && (n <=? 138)%nat) || (n =? 168)%nat || (n =? 169)%nat
  || (n =? 175)%nat.

(** The string without the white space and the line terminators at its
    head: the six of one byte, U+00A0, U+1680, those with the first bytes
    E2 80, U+205F, U+3000 and U+FEFF. *)
Fixpoint skip_spaces (s : string) : string :=
  match s with
  | String c rest =>
      if is_space c then skip_spaces rest
      else
        match s with
        | String "194" (String "160" r) => skip_spaces r
        | String "225" (String "154" (String "128" r)) => skip_spaces r
        | String "226" (String "128" (String c3 r)) =>
            if is_space_E2_80 c3 then skip_spaces r else s
        | String "226" (String "129" (String "159" r)) => skip_spaces r
        | String "227" (String "128" (String "128" r)) => skip_spaces r
        | String "239" (String "187" (String "191" r)) => skip_spaces r
        | _ => s
        end
  | EmptyString => s
  end.

(** The longest run of decimal digits at the head of [s]: its value, its
    length and the rest of the string. *)
Fixpoint take_digits (s : string) (acc : Z) (len : nat) : Z * nat * string :=
  match s with
  | String c rest =>
      if is_digit c then take_digits rest (10 * acc + digit_value c) (S len)
      else (acc, len, s)
  | EmptyString => (acc, len, s)
  end.

(** An optional sign: [true] for ["-"]. *)
Definition take_sign (s : string) : bool * string :=
  match s with
  | String "-" rest => (true, rest)
  | String "+" rest => (false, rest)
  | _ => (false, s)
  end.

(** ExponentPart: [e] or [E], an optional sign, at least one digit.  An
    incomplete exponent is not part of the literal. *)
Definition take_exponent (s : string) : Z :=
  match s with
  | String c rest =>
      if Ascii.eqb c "e" || Ascii.eqb c "E" then
        let '(sg, rest1) := take_sign rest in
        let '(e, n, _) := take_digits rest1 0 0 in
        match n with
        | O => 0
        | S _ => if sg then - e else e
        end
      else 0
  | EmptyString => 0
  end%Z.

(** [m * 10^e] as a reduced fraction. *)
Definition scale10 (m : Z) (e : Z) : Q :=
  Qred (if (0 <=? e)%Z then inject_Z (m * 10 ^ e)
        else Qmake m (Z.to_pos (10 ^ (- e)))).

Definition apply_sign (sg : bool) (m : Z) : Z := if sg then (- m)%Z else m.

(** [parseFloat(s)] for a string: leading white space is dropped, then the
    longest prefix that is a StrDecimalLiteral is read and rounded to a
    double; [NaN] when there is none. *)
Definition parseFloat_string (s : string) : number :=
  let '(sg, s1) := take_sign (skip_spaces s) in
  if String.prefix "Infinity" s1 then Infinity sg
  else
    let '(ip, ilen, s2) := take_digits s1 0 0 in
    match s2 with
    | String "." s3 =>
        let '(m, flen, s4) := take_digits s3 ip 0 in
        match ilen, flen with
        | O, O => NaN
        | _, _ => round64 (scale10 (apply_sign sg m) (take_exponent s4 - Z.of_nat flen))
        end
    | _ =>
        match ilen with
        | O => NaN
        | S _ => round64 (scale10 (apply_sign sg ip) (take_exponent s2))
        end
    end.

(** [parseFloat(v)]: the argument is first converted to a string.  A
    number converts to a literal that reads back as the same number;
    ["true"], ["false"], ["null"] and ["undefined"] have no numeric
    prefix. *)
Definition parseFloat (v : value) : number :=
  match v with
  | Str s => parseFloat_string s
  | Num q => round64 q
  | Undefined | Null | Boolean _ => NaN
  end.

(** ** ToString *)

Definition integer_to_string (z : Z) : string :=
  DecimalString.NilZero.string_of_int (Z.to_int z).

Fixpoint zeros (n : nat) : string :=
  match n with
  | O => ""
  | S k => String "0" (zeros k)
  end.

(** [n / d >= 10 ^ k] *)
Definition at_least_pow10 (n d : positive) (k : Z) : bool :=
  if (0 <=? k)%Z then (Zpos d * 10 ^ k <=? Zpos n)%Z
  else (Zpos d <=? Zpos n * 10 ^ (- k))%Z.

(** The decimal exponent of [n / d], a double: the [k] with
    [10 ^ k <= n / d < 10 ^ (k + 1)].  The binary exponent times
    [log 2 / log 10] is at most one off. *)
Definition decimal_exponent (n d : positive) : Z :=
  let k := (binary_exponent n d * 1233 / 4096)%Z in
  if at_least_pow10 n d (k + 1) then (k + 1)%Z
  else if at_least_pow10 n d k then k
  else (k - 1)%Z.

(** The decimal [s * 10 ^ t] of [k] digits that reads back as the double
    [x = n / d], if there is one; of two, the one nearer to [x], the
    even one when they are equally near. *)
Definition digits_of_length (x : number) (n d : positive) (k : Z)
  : option (Z * Z) :=
  let t := (decimal_exponent n d + 1 - k)%Z in
  let '(num, den) := if (0 <=? t)%Z then (Zpos n, Zpos d * 10 ^ t)%Z
                     else (Zpos n * 10 ^ (- t), Zpos d)%Z in
  let lo := (num / den)%Z in
  let hi := (lo + 1)%Z in
  let reads s := number_eqb (round64 (scale10 s t)) x in
  match reads lo, reads hi with
  | true, true =>
      match (2 * (num mod den) ?= den)%Z with
      | Lt => Some (lo, t)
      | Eq => Some (if Z.even lo then lo else hi, t)
      | Gt => Some (hi, t)
      end
  | true, false => Some (lo, t)
  | false, true => Some (hi, t)
  | false, false => None
  end.

(** The shortest decimal that reads back as the double [x = n / d],
    tried from [k] digits on.  Seventeen digits tell any two doubles
    apart. *)
Fixpoint shortest_digits (fuel : nat) (x : number) (n d : positive) (k : Z)
  : Z * Z :=
  match fuel with
  | O => (0, 0)%Z
  | S fuel' =>
      match digits_of_length x n d k with
      | Some r => r
      | None => shortest_digits fuel' x n d (k + 1)%Z
      end
  end.

(** [s * 10 ^ t] without zeros at the end of [s]. *)
Fixpoint strip_zeros (fuel : nat) (s t : Z) : Z * Z :=
  match fuel with
  | O => (s, t)
  | S fuel' =>
      if (s mod 10 =? 0)%Z && negb (s =? 0)%Z
      then strip_zeros fuel' (s / 10)%Z (t + 1)%Z
      else (s, t)
  end.

(** Number::toString of the positive number [s * 10 ^ t], [s] having no
    zero at its end: with [k] the number of digits of [s] and
    [n = t + k], the digits followed by zeros when [k <= n <= 21], the
    digits with a point after the first [n] when [0 < n <= 21], ["0."],
    zeros and the digits when [-6 < n <= 0], and else the exponent
    notation. *)
Definition write_decimal (s t : Z) : string :=
  let digits := integer_to_string s in
  let k := Z.of_nat (String.length digits) in
  let n := (t + k)%Z in
  (if (k <=? n)%Z && (n <=? 21)%Z
   then digits ++ zeros (Z.to_nat (n - k))
   else if (0 <? n)%Z && (n <=? 21)%Z
   then String.substring 0 (Z.to_nat n) digits ++ "."
        ++ String.substring (Z.to_nat n) (Z.to_nat (k - n)) digits
   else if (-6 <? n)%Z && (n <=? 0)%Z
   then "0." ++ zeros (Z.to_nat (- n)) ++ digits
   else
     (if (k =? 1)%Z then digits
      else String.substring 0 1 digits ++ "."
           ++ String.substring 1 (Z.to_nat (k - 1)) digits)
     ++ "e" ++ (if (0 <=? n - 1)%Z then "+" else "-")
     ++ integer_to_string (Z.abs (n - 1)))%string.

(** Number::toString: the shortest decimal that reads back as the
    number. *)
Definition number_to_string (x : number) : string :=
  match x with
  | NaN => "NaN"
  | Infinity false => "Infinity"
  | Infinity true => "-Infinity"
  | Fin q =>
      match Qnum q with
      | Z0 => "0"
      | Zpos n =>
          let '(s, t) := shortest_digits 17 x n (Qden q) 1 in
          let '(s, t) := strip_zeros 17 s t in
          write_decimal s t
      | Zneg n =>
          let '(s, t) := shortest_digits 17 (Fin (- q)) n (Qden q) 1 in
          let '(s, t) := strip_zeros 17 s t in
          ("-" ++ write_decimal s t)%string
      end
  end.

(** [String(v)]. *)
Definition toString (v : value) : string :=
  match v with
  | Undefined => "undefined"
  | Null => "null"
  | Boolean true => "true"
  | Boolean false => "false"
  | Num q => number_to_string (round64 q)
  | Str s => s
  end.

(** [typeof v], as used in the messages of thrown errors. *)
Definition typeof (v : value) : string :=
  match v with
  | Undefined => "undefined"
  | Null => "object"
  | Boolean _ => "boolean"
  | Num _ => "number"
  | Str _ => "string"
  end.

End JS.

(* ===================================================================== *)
(** * Data model: the Mongoose schemas *)
(* ===================================================================== *)

(** A document identifier generated by the driver. *)
Definition ObjectId : Type := N.

(** [role: { enum: ['admin', 'user', 'viewer'], default: 'user' }] *)
Inductive Role : Type := RoleAdmin | RoleUser | RoleViewer.

(** [type: { type: String, enum: ['income', 'expense'] }] *)
Inductive TxType : Type := income | expense.

(** [category: { enum: ['salary', 'rent', 'equipment', 'utilities',
    'marketing', 'other'], default: 'other' }] *)
Inductive Category : Type :=
  salary | rent | equipment | utilities | marketing | other.

Definition type_name (t : TxType) : string :=
  match t with income => "income" | expense => "expense" end.

Definition category_name (c : Category) : string :=
  match c with
  | salary => "salary" | rent => "rent" | equipment => "equipment"
  | utilities => "utilities" | marketing => "marketing" | other => "other"
  end.

(** The result of [bcrypt.hash(secret, rounds)], kept symbolic: the hash
    of a secret is matched by that secret only. *)
Inductive PasswordHash : Type := Bcrypt (rounds : nat) (secret : string).

(** [UserSchema] *)
Record User : Type := mkUser {
  _id : ObjectId;
  username : string;
  email : string;
  password : PasswordHash;
  role : Role;
  walletAddress : string;
  createdAt : Z
}.

(** [TransactionSchema] *)
Record Transaction : Type := mkTransaction {
  transactionId : Z;
  description : string;
  amount : JS.number;
  type : TxType;
  category : Category;
  sender : string;
  receiver : string;
  timestamp : Z;
  blockchainHash : string;
  status : string;
  createdBy : ObjectId
}.

(** The state a request runs against: the two collections of the
    database, in insertion order, and the process-wide set
    [assignedWallets]. *)
Record World : Type := mkWorld {
  users : list User;
  transactions : list Transaction;
  assignedWallets : gset string
}.

Definition set_users (us : list User) (w : World) : World :=
  mkWorld us (transactions w) (assignedWallets w).
Definition set_transactions (ts : list Transaction) (w : World) : World :=
  mkWorld (users w) ts (assignedWallets w).
Definition set_assignedWallets (a : gset string) (w : World) : World :=
  mkWorld (users w) (transactions w) a.

(** The operations a handler sends to the store. *)
Inductive StoreOp : Type :=
  | UserFindOne | UserFindById | UserSave
  | TransactionFindOne | TransactionFind | TransactionSave.

(** [process.env.JWT_EXPIRES_IN] as [jwt.sign] reads it: nothing (the
    variable is not set, or is empty), a string that is not a time span,
    or a time span, which adds [seconds] whole seconds to the time of
    signing. *)
Inductive Lifetime : Type :=
  | NoLifetime
  | NoTimespan
  | Timespan (seconds : Z).

(** What a request sees of its surroundings: the connection state, store
    operations that reject (with the driver's message), the signing
    secret ([None] when the variable is not set or is empty), the
    lifetime of tokens, and the values drawn from the driver, the clock
    (milliseconds) and the random generator. *)
Record Env : Type := mkEnv {
  readyState : nat;
  storeFault : StoreOp -> option string;
  JWT_SECRET : option string;
  JWT_EXPIRES_IN : Lifetime;
  objectId : ObjectId;
  now : Z;
  random : string
}.

(* ===================================================================== *)
(** * Responses *)
(* ===================================================================== *)

(** A validation failure on one path of a document. *)
Inductive PathError : Type :=
  | EnumError (given : string)     (* `given` is not a valid enum value *)
  | CastError (kind : string) (given : string).

(** [error.message] of a failed request. *)
Inductive ErrorMessage : Type :=
  | Message (text : string)
  | ValidationFailed (model : string) (errors : list (string * PathError))
  | DuplicateKey (collection : string) (index : string).

(** The payload [jwt.sign] signs, with the secret it is signed with and
    the time it expires ([exp], in seconds); the token is kept
    symbolic. *)
Record Token : Type := mkToken {
  tokenSecret : string;
  tokenUserId : ObjectId;
  tokenUsername : string;
  tokenRole : Role;
  tokenWallet : option string;
  tokenExpires : Z
}.

Record UserView : Type := mkUserView {
  viewId : ObjectId;
  viewUsername : string;
  viewEmail : string;
  viewRole : Role;
  viewWallet : string
}.

Record Bucket : Type := mkBucket {
  bucketIncome : JS.number;
  bucketExpense : JS.number;
  total : JS.number
}.

Record Summary : Type := mkSummary {
  totalIncome : JS.number;
  totalExpenses : JS.number;
  balance : JS.number;
  transactionCount : nat;
  byCategory : gmap string Bucket
}.

Inductive Body : Type :=
  | Failure (error : ErrorMessage)
  | Registered (token : Token) (user : UserView)
  | LoggedIn (token : Token) (user : UserView)
  | Profile (user : UserView) (created : Z)
  | TransactionAdded (transaction : Transaction)
  | TransactionList (count : nat) (items : list Transaction)
  | Dashboard (summary : Summary) (recent : list Transaction).

Record Response : Type := mkResponse {
  statusCode : nat;
  body : Body
}.

(** [res.status(code).json({ success: false, error })] *)
Definition failure (code : nat) (msg : ErrorMessage) : Response :=
  mkResponse code (Failure msg).

(* ===================================================================== *)
(** * Handler computations *)
(* ===================================================================== *)

(** A computation inside a handler's [try] block: it may change the
    world and either yields a value or throws.  What was changed before a
    throw stays changed. *)
Inductive Outcome (A : Type) : Type :=
  | Return (a : A)
  | Throw (msg : ErrorMessage).
Arguments Return {A} a.
Arguments Throw {A} msg.

Definition M (A : Type) : Type := World -> Outcome A * World.

Definition ret {A} (a : A) : M A := fun w => (Return a, w).
Definition throw {A} (msg : ErrorMessage) : M A := fun w => (Throw msg, w).
Definition bind {A B} (m : M A) (k : A -> M B) : M B :=
  fun w => match m w with
           | (Return a, w') => k a w'
           | (Throw msg, w') => (Throw msg, w')
           end.
Definition get_world : M World := fun w => (Return w, w).
Definition put_world (w' : World) : M unit := fun _ => (Return tt, w').

Notation "x <- m ;; k" := (bind m (fun x => k))
  (at level 100, m at next level, right associativity).
Notation "m ;;; k" := (bind m (fun _ => k))
  (at level 100, right associativity).

(** [try { ... } catch (error) { res.status(500).json({ success: false,
    error: error.message }) }] *)
Definition try_catch (m : M Response) (w : World) : Response * World :=
  match m w with
  | (Return r, w') => (r, w')
  | (Throw msg, w') => (failure 500 msg, w')
  end.

(* ===================================================================== *)
(** * The store: Mongoose models over the two collections *)
(* ===================================================================== *)

Section Store.

Variable e : Env.

(** A store operation rejects when the environment says so. *)
Definition store_op {A} (op : StoreOp) (m : M A) : M A :=
  match storeFault e op with
  | Some msg => throw (Message msg)
  | None => m
  end.

(** [mongoose.connection.readyState === 1] *)
Definition connected : bool := (readyState e =? 1)%nat.

(** [User.findOne({ $or: [{ email }, { username }] })]: the query values
    are cast to the String type of the two paths. *)
Definition User_findOne_or (em un : JS.value) : M (option User) :=
  store_op UserFindOne
    (w <- get_world ;;
     ret (List.find (fun u => String.eqb (email u) (JS.toString em)
                              || String.eqb (username u) (JS.toString un))
                    (users w))).

(** [User.findOne({ email })] *)
Definition User_findOne (em : JS.value) : M (option User) :=
  store_op UserFindOne
    (w <- get_world ;;
     ret (List.find (fun u => String.eqb (email u) (JS.toString em)) (users w))).

(** [User.findById(id)] *)
Definition User_findById (id : ObjectId) : M (option User) :=
  store_op UserFindById
    (w <- get_world ;;
     ret (List.find (fun u => N.eqb (_id u) id) (users w))).

(** [user.save()]: the insert is refused by the unique indexes on [_id],
    [username] and [email]. *)
Definition user_save (u : User) : M unit :=
  store_op UserSave
    (w <- get_world ;;
     if existsb (fun v => N.eqb (_id v) (_id u)) (users w)
     then throw (DuplicateKey "users" "_id")
     else if existsb (fun v => String.eqb (username v) (username u)) (users w)
     then throw (DuplicateKey "users" "username")
     else if existsb (fun v => String.eqb (email v) (email u)) (users w)
     then throw (DuplicateKey "users" "email")
     else put_world (set_users (users w ++ [u]) w)).

(** The better of the best document so far and the next one: the one with
    the greater [transactionId]. *)
Definition keep_greater (best : option Transaction) (t : Transaction)
  : option Transaction :=
  match best with
  | None => Some t
  | Some b => if (transactionId b <? transactionId t)%Z then Some t else Some b
  end.

(** The document with the greatest [transactionId], if any. *)
Definition greatest (ts : list Transaction) : option Transaction :=
  fold_left keep_greater ts None.

(** [Transaction.findOne().sort({ transactionId: -1 })] *)
Definition Transaction_findOne_last : M (option Transaction) :=
  store_op TransactionFindOne
    (w <- get_world ;; ret (greatest (transactions w))).

(** Insertion of [t] into a list sorted by descending [timestamp], in
    front of the documents that are not newer. *)
Fixpoint insert_by_timestamp (t : Transaction) (ts : list Transaction)
  : list Transaction :=
  match ts with
  | [] => [t]
  | x :: rest =>
      if (timestamp x <=? timestamp t)%Z then t :: ts
      else x :: insert_by_timestamp t rest
  end.

(** [.sort({ timestamp: -1 })] *)
Definition sort_by_timestamp (ts : list Transaction) : list Transaction :=
  fold_right insert_by_timestamp [] ts.

(** [Transaction.find({ createdBy })] *)
Definition Transaction_find (owner : ObjectId) : M (list Transaction) :=
  store_op TransactionFind
    (w <- get_world ;;
     ret (List.filter (fun t => N.eqb (createdBy t) owner) (transactions w))).

(** ** Casting and validation of a new transaction document *)

(** The [type] path: cast to String, then the [enum] validator.  (The
    handler only builds a document from a truthy [type].) *)
Definition cast_type (v : JS.value) : PathError + TxType :=
  if JS.strict_eq_str v "income" then inr income
  else if JS.strict_eq_str v "expense" then inr expense
  else inl (EnumError (JS.toString v)).

(** The [category] path. *)
Definition cast_category (v : JS.value) : PathError + Category :=
  match List.find (fun c => JS.strict_eq_str v (category_name c))
                  [salary; rent; equipment; utilities; marketing; other] with
  | Some c => inr c
  | None => inl (EnumError (JS.toString v))
  end.

(** The [amount] path: a Number path refuses [NaN]. *)
Definition cast_amount (n : JS.number) : PathError + JS.number :=
  match n with
  | JS.NaN => inl (CastError "Number" "NaN")
  | _ => inr n
  end.

Definition path_errors {A} (path : string) (r : PathError + A)
  : list (string * PathError) :=
  match r with
  | inl err => [(path, err)]
  | inr _ => []
  end.

(** [new Transaction({ transactionId, description, amount, type, category,
    sender, receiver, blockchainHash, createdBy })]: the values are cast
    to the schema types, [timestamp] and [status] take their defaults. *)
Definition new_Transaction (id : Z) (descr : JS.value) (amt : JS.number)
    (ty cat snd rcv : JS.value) (hash : string) (owner : ObjectId)
  : list (string * PathError) + Transaction :=
  match cast_amount amt, cast_type ty, cast_category cat with
  | inr a, inr t, inr c =>
      inr (mkTransaction id (JS.toString descr) a t c
             (JS.toString snd) (JS.toString rcv)
             (now e) hash "completed" owner)
  | ra, rt, rc =>
      inl (path_errors "amount" ra ++ path_errors "type" rt
           ++ path_errors "category" rc)
  end.

(** [transaction.save()]: validation first, then the insert, which the
    unique index on [transactionId] may refuse. *)
Definition transaction_save (doc : list (string * PathError) + Transaction)
  : M Transaction :=
  match doc with
  | inl errs => throw (ValidationFailed "Transaction" errs)
  | inr t =>
      store_op TransactionSave
        (w <- get_world ;;
         if existsb (fun x => (transactionId x =? transactionId t)%Z) (transactions w)
         then throw (DuplicateKey "transactions" "transactionId")
         else (put_world (set_transactions (transactions w ++ [t]) w) ;;; ret t))
  end.

(** ** bcrypt and jsonwebtoken *)

(** [bcrypt.hash(s, rounds)]: rejects unless [s] is a string. *)
Definition bcrypt_hash (s : JS.value) (rounds : nat) : M PasswordHash :=
  match s with
  | JS.Str p => ret (Bcrypt rounds p)
  | _ => throw (Message ("Illegal arguments: " ++ JS.typeof s ++ ", number"))
  end.

(** [bcrypt.compare(s, hash)] *)
Definition bcrypt_compare (s : JS.value) (h : PasswordHash) : M bool :=
  match s, h with
  | JS.Str p, Bcrypt _ secret => ret (String.eqb p secret)
  | _, _ => throw (Message ("Illegal arguments: " ++ JS.typeof s ++ ", string"))
  end.

(** The messages of the errors [jwt.sign] throws: without a secret,
    without a lifetime, and with a lifetime that is not a time span. *)
Definition secret_required : string := "secretOrPrivateKey must have a value".

Definition lifetime_required : string :=
  Eval vm_compute in
    (String "034" "expiresIn" ++ String "034"
       " should be a number of seconds or string representing a timespan")%string.

Definition lifetime_unreadable : string :=
  Eval vm_compute in
    (lifetime_required ++ " eg: " ++ String "034" "1d" ++ String "034" ", "
     ++ String "034" "20h" ++ String "034" ", 60")%string.

Definition sign_errors : list string :=
  [secret_required; lifetime_required; lifetime_unreadable].

(** [Math.floor(Date.now() / 1000)] *)
Definition clock : Z := (now e / 1000)%Z.

(** [jwt.sign(payload, process.env.JWT_SECRET,
              { expiresIn: process.env.JWT_EXPIRES_IN })]: throws without
    a secret, then without a lifetime that is a time span; the token
    expires that time span after it was signed. *)
Definition jwt_sign (id : ObjectId) (name : string) (r : Role)
    (wallet : option string) : M Token :=
  match JWT_SECRET e with
  | None => throw (Message secret_required)
  | Some key =>
      match JWT_EXPIRES_IN e with
      | NoLifetime => throw (Message lifetime_required)
      | NoTimespan => throw (Message lifetime_unreadable)
      | Timespan seconds =>
          ret (mkToken key id name r wallet (clock + seconds)%Z)
      end
  end.

(** [jwt.verify(token, process.env.JWT_SECRET, ...)]: the signature is
    the one of the secret and the token has not expired. *)
Definition jwt_verify (t : Token) : bool :=
  match JWT_SECRET e with
  | Some key => String.eqb key (tokenSecret t) && (clock <? tokenExpires t)%Z
  | None => false
  end.

End Store.

(* ===================================================================== *)
(** * The wallet pool *)
(* ===================================================================== *)

(** [AVAILABLE_WALLETS]: the addresses of the local test chain. *)
Definition AVAILABLE_WALLETS : list string :=
  [ "0x90F8bf6A479f320ead074411a4B0e7944Ea8c9C1";
    "0xFFcf8FDEE72ac11b5c542428B35EEF5769C409f0";
    "0x22d491Bde2303f2f43325b2108D26f1eAbA1e32b";
    "0xE11BA2b4D45Eaed5996Cd0823791E0C93114882d";
    "0xd03ea8624C8C5987235048901fB614fDcA89b117";
    "0x95cED938F7991cd0dFcb48F0a06a40FA1aF46EBC";
    "0x3E5e9111Ae8eB78Fe1CC3bb8915d5D461F3Ef9A9";
    "0x28a8746e75304c0780E011BEd21C72cD78cd535E";
    "0xACa94ef8bD5ffEE41947b4585a84BdA5a3d3DA6E";
    "0x1dF62f291b2E969fB0849d99D9Ce41e2F137006e" ].

(** [getAvailableWallet()], over the pool it scans:
    [for (let wallet of pool) { if (!assignedWallets.has(wallet)) {
       assignedWallets.add(wallet); return wallet; } }
     throw new Error('No more wallets available')] *)
Fixpoint getAvailableWallet (pool : list string) : M string :=
  match pool with
  | [] => throw (Message "No more wallets available")
  | wallet :: rest =>
      w <- get_world ;;
      if bool_decide (wallet ∈ assignedWallets w)
      then getAvailableWallet rest
      else (put_world (set_assignedWallets ({[wallet]} ∪ assignedWallets w) w) ;;;
            ret wallet)
  end.

(* ===================================================================== *)
(** * The routes *)
(* ===================================================================== *)

Section Routes.

(** The pool the server assigns wallets from ([AVAILABLE_WALLETS] in
    production). *)
Variable pool : list string.
Variable e : Env.

Definition user_view (u : User) : UserView :=
  mkUserView (_id u) (username u) (email u) (role u) (walletAddress u).

(** [authenticateToken]: 401 without a token, 403 when it does not verify,
    else the handler runs with [req.user] set to the payload. *)
Definition authenticateToken (authorization : option Token)
    (next : Token -> World -> Response * World) (w : World) : Response * World :=
  match authorization with
  | None => (failure 401 (Message "Access token required"), w)
  | Some t =>
      if jwt_verify e t then next t w
      else (failure 403 (Message "Invalid or expired token"), w)
  end.

(** [new User({ username, email, password: hashedPassword, walletAddress })]:
    the values are cast to String, [role] and [createdAt] take their
    defaults. *)
Definition new_User (name mail : JS.value) (hashed : PasswordHash)
    (wallet : string) : User :=
  mkUser (objectId e) (JS.toString name) (JS.toString mail) hashed RoleUser
         wallet (now e).

(** The token issued at registration carries the wallet address, the one
    issued at login does not. *)
Definition registration_token (u : User) : M Token :=
  jwt_sign e (_id u) (username u) (role u) (Some (walletAddress u)).

Definition login_token (u : User) : M Token :=
  jwt_sign e (_id u) (username u) (role u) None.

Definition password_matches (given : JS.value) (u : User) : M bool :=
  bcrypt_compare given (password u).

(** [POST /api/auth/register] *)
Definition register (username email password : JS.value) : M Response :=
  if negb (JS.truthy username) || negb (JS.truthy email) || negb (JS.truthy password)
  then ret (failure 400 (Message "Username, email, and password are required"))
  else if negb (connected e)
  then ret (failure 503 (Message "Database not available. Please try again later."))
  else
    existingUser <- User_findOne_or e email username ;;
    match existingUser with
    | Some _ =>
        ret (failure 400 (Message "User with this email or username already exists"))
    | None =>
        walletAddress <- getAvailableWallet pool ;;
        hashedPassword <- bcrypt_hash password 12 ;;
        let user := new_User username email hashedPassword walletAddress in
        user_save e user ;;;
        token <- registration_token user ;;
        ret (mkResponse 201 (Registered token (user_view user)))
    end.

(** [POST /api/auth/login] *)
Definition login (email password : JS.value) : M Response :=
  if negb (JS.truthy email) || negb (JS.truthy password)
  then ret (failure 400 (Message "Email and password are required"))
  else if negb (connected e)
  then ret (failure 503 (Message "Database not available. Please try again later."))
  else
    user <- User_findOne e email ;;
    match user with
    | None => ret (failure 400 (Message "Invalid email or password"))
    | Some user =>
        isPasswordValid <- password_matches password user ;;
        if negb isPasswordValid
        then ret (failure 400 (Message "Invalid email or password"))
        else
          token <- login_token user ;;
          ret (mkResponse 200 (LoggedIn token (user_view user)))
    end.

(** [GET /api/auth/me] *)
Definition me (req_user : Token) : M Response :=
  if negb (connected e)
  then ret (failure 503 (Message "Database not available"))
  else
    user <- User_findById e (tokenUserId req_user) ;;
    match user with
    | None => ret (failure 404 (Message "User not found"))
    | Some user => ret (mkResponse 200 (Profile (user_view user) (createdAt user)))
    end.

(** The identifier the handler gives the next transaction:
    [lastTransaction ? lastTransaction.transactionId + 1 : 1].  The sum
    is a sum of doubles. *)
Definition nextId (lastTransaction : option Transaction) : Z :=
  match lastTransaction with
  | Some l => JS.add_integers (transactionId l) 1
  | None => 1
  end.

(** [type === 'income' ? (receiver || 'external_sender') : user.walletAddress] *)
Definition sender_of (type receiver : JS.value) (user : User) : JS.value :=
  if JS.strict_eq_str type "income"
  then JS.or receiver (JS.Str "external_sender")
  else JS.Str (walletAddress user).

(** [type === 'income' ? user.walletAddress : (receiver || 'external_receiver')] *)
Definition receiver_of (type receiver : JS.value) (user : User) : JS.value :=
  if JS.strict_eq_str type "income"
  then JS.Str (walletAddress user)
  else JS.or receiver (JS.Str "external_receiver").

(** [POST /api/transactions] *)
Definition addTransaction (req_user : Token)
    (description amount type category receiver : JS.value) : M Response :=
  if negb (JS.truthy description) || negb (JS.truthy amount) || negb (JS.truthy type)
  then ret (failure 400 (Message "Description, amount, and type are required"))
  else if negb (connected e)
  then ret (failure 503 (Message "Database not available"))
  else
    user <- User_findById e (tokenUserId req_user) ;;
    match user with
    | None => ret (failure 404 (Message "User not found"))
    | Some user =>
        lastTransaction <- Transaction_findOne_last e ;;
        let transactionId := nextId lastTransaction in
        let sender := sender_of type receiver user in
        let transactionReceiver := receiver_of type receiver user in
        transaction <-
          transaction_save e
            (new_Transaction e transactionId description (JS.parseFloat amount)
               type (JS.or category (JS.Str "other")) sender transactionReceiver
               ("0x" ++ random e) (tokenUserId req_user)) ;;
        ret (mkResponse 201 (TransactionAdded transaction))
    end.

(** [GET /api/transactions] *)
Definition getTransactions (req_user : Token) : M Response :=
  if negb (connected e)
  then ret (failure 503 (Message "Database not available"))
  else
    found <- Transaction_find e (tokenUserId req_user) ;;
    let transactions := sort_by_timestamp found in
    ret (mkResponse 200 (TransactionList (length transactions) transactions)).

(** ** The dashboard *)

(** [transactions.filter(t => t.type === ty).reduce((sum, t) => sum + t.amount, 0)] *)
Definition sum_of_type (ty : TxType) (ts : list Transaction) : JS.number :=
  fold_left (fun sum t => JS.add sum (amount t))
            (List.filter (fun t => String.eqb (type_name (type t)) (type_name ty)) ts)
            JS.zero.

(** [acc[category][transaction.type] += transaction.amount;
     acc[category].total += transaction.amount] *)
Definition add_to_bucket (t : Transaction) (b : Bucket) : Bucket :=
  let b1 := match type t with
            | income => mkBucket (JS.add (bucketIncome b) (amount t)) (bucketExpense b) (total b)
            | expense => mkBucket (bucketIncome b) (JS.add (bucketExpense b) (amount t)) (total b)
            end in
  mkBucket (bucketIncome b1) (bucketExpense b1) (JS.add (total b1) (amount t)).

(** One step of the category reduction: the bucket is created on the
    first transaction of its category. *)
Definition category_step (acc : gmap string Bucket) (transaction : Transaction)
  : gmap string Bucket :=
  let category := category_name (category transaction) in
  let acc1 := match acc !! category with
              | None => <[category := mkBucket JS.zero JS.zero JS.zero]> acc
              | Some _ => acc
              end in
  match acc1 !! category with
  | Some b => <[category := add_to_bucket transaction b]> acc1
  | None => acc1
  end.

(** [transactions.reduce((acc, transaction) => { ... }, {})] *)
Definition categoryData (ts : list Transaction) : gmap string Bucket :=
  fold_left category_step ts ∅.

(** The aggregation of the dashboard over the transactions found. *)
Definition summarize (ts : list Transaction) : Summary :=
  let totalIncome := sum_of_type income ts in
  let totalExpenses := sum_of_type expense ts in
  let balance := JS.sub totalIncome totalExpenses in
  mkSummary totalIncome totalExpenses balance (length ts) (categoryData ts).

(** [GET /api/dashboard/summary] *)
Definition dashboardSummary (req_user : Token) : M Response :=
  if negb (connected e)
  then ret (failure 503 (Message "Database not available"))
  else
    transactions <- Transaction_find e (tokenUserId req_user) ;;
    ret (mkResponse 200 (Dashboard (summarize transactions) (take 5 transactions))).

(** ** Requests *)

Inductive Request : Type :=
  | PostRegister (username email password : JS.value)
  | PostLogin (email password : JS.value)
  | GetMe (authorization : option Token)
  | PostTransaction (authorization : option Token)
      (description amount type category receiver : JS.value)
  | GetTransactions (authorization : option Token)
  | GetSummary (authorization : option Token).

(** The server on one request. *)
Definition handle (req : Request) (w : World) : Response * World :=
  match req with
  | PostRegister u m p => try_catch (register u m p) w
  | PostLogin m p => try_catch (login m p) w
  | GetMe auth => authenticateToken auth (fun t => try_catch (me t)) w
  | PostTransaction auth d a t c r =>
      authenticateToken auth (fun tk => try_catch (addTransaction tk d a t c r)) w
  | GetTransactions auth =>
      authenticateToken auth (fun t => try_catch (getTransactions t)) w
  | GetSummary auth =>
      authenticateToken auth (fun t => try_catch (dashboardSummary t)) w
  end.

End Routes.

(** Requests served one after the other, each in its own environment:
    the responses, in order, and the final world. *)
Fixpoint serve (pool : list string) (reqs : list (Env * Request)) (w : World)
  : list Response * World :=
  match reqs with
  | [] => ([], w)
  | (e, req) :: rest =>
      let '(r, w1) := handle pool e req w in
      let '(rs, w2) := serve pool rest w1 in
      (r :: rs, w2)
  end.

(** The world of a fresh process on an empty database. *)
Definition empty_world : World := mkWorld [] [] ∅.

(* ===================================================================== *)
(** * Identifiers in the two earlier servers *)
(* ===================================================================== *)

Module EarlierServers.

(** server-with-auth.js, [POST /api/transactions]:
    [new Transaction({ transactionId: Date.now(), ... })].  The identifier
    is the value of the clock; the store is not read. *)
Definition transactionId_from_clock (e : Env) (stored : list Transaction) : Z :=
  now e.

(** server.js: [let mockNextId = 1] when the process starts. *)
Definition mockNextId_at_start : Z := 1.

(** server.js, [POST /api/transactions]: [transactionId: mockNextId++].
    The identifier used and the counter afterwards; the store is not
    read. *)
Definition transactionId_from_counter (mockNextId : Z)
    (stored : list Transaction) : Z * Z :=
  (mockNextId, (mockNextId + 1)%Z).

End EarlierServers.

(* ===================================================================== *)
(** * Concrete requests, worlds and environments *)
(* ===================================================================== *)

Module Scenario.

Definition W1 : string := "0xW1".
Definition W2 : string := "0xW2".

(** A healthy environment: connected, no store fault, a signing secret,
    tokens that live seven days; [id] is the identifier the driver gives
    a new document. *)
Definition healthy (id : N) : Env :=
  mkEnv 1 (fun _ => None) (Some "secret") (Timespan 604800) id
        1700000000000 "5f3a9c".

Definition register_request (name mail pass : string) : Request :=
  PostRegister (JS.Str name) (JS.Str mail) (JS.Str pass).

Definition alice : Request := register_request "alice" "a@x.com" "secret1".
Definition bob : Request := register_request "bob" "b@x.com" "secret2".
Definition carol : Request := register_request "carol" "c@x.com" "secret3".

(** Alice's record, and the world after she has registered with a fresh
    process on an empty database. *)
Definition alice_record : User :=
  mkUser 1%N "alice" "a@x.com" (Bcrypt 12 "secret1") RoleUser W1 1700000000000.

Definition with_alice : World := mkWorld [alice_record] [] {[W1]}.

(** The token alice was issued. *)
Definition alice_token : Token :=
  mkToken "secret" 1%N "alice" RoleUser (Some W1) 1700604800.

(** A submission by alice with no counterparty address. *)
Definition submit (descr : string) (amt : JS.value) (ty cat : string) : Request :=
  PostTransaction (Some alice_token) (JS.Str descr) amt (JS.Str ty) (JS.Str cat)
                  JS.Undefined.

Definition paycheck : Request := submit "Paycheck" (JS.Num 1000) "income" "salary".
Definition rent_payment : Request := submit "Rent" (JS.Num 400) "expense" "rent".

(** The wallets handed out by a list of responses; [None] for a response
    that is not a successful registration. *)
Definition wallet_of (r : Response) : option string :=
  match body r with
  | Registered _ u => Some (viewWallet u)
  | _ => None
  end.

End Scenario.

(** An environment whose store refuses to write a user. *)
Definition write_refused (id : N) : Env :=
  mkEnv 1 (fun op => match op with
                     | UserSave => Some "connection closed"
                     | _ => None
                     end)
        (Some "secret") (Timespan 604800) id 1700000000000 "5f3a9c".

(* ===================================================================== *)
(** * The properties: their vocabulary *)
(* ===================================================================== *)


(** The sum of all amounts, left to right. *)
Definition sum_of_amounts (ts : list Transaction) (start : JS.number) : JS.number :=
  fold_left (fun s t => JS.add s (amount t)) ts start.

(** The first address of the pool, in its order, that is not assigned. *)
Definition first_free (pool : list string) (assigned : gset string) : option string :=
  List.find (fun a => negb (bool_decide (a ∈ assigned))) pool.

(** A response that reports a write: a registration or a new
    transaction. *)
Definition reports_write (r : Response) : bool :=
  match body r with
  | Registered _ _ | TransactionAdded _ => true
  | _ => false
  end.

(** The four ways a request can leave the world:
    - unchanged;
    - a wallet drawn and nothing else (a registration that threw after
      the draw);
    - a wallet drawn and the user written (a registration, answered 201,
      or 500 when signing the token threw);
    - a transaction appended, with the sequencer's identifier, which no
      stored transaction has. *)
Inductive Effect (pool : list string) (w : World)
  : Request -> Response -> World -> Prop :=
  | effect_none req r :
      reports_write r = false ->
      Effect pool w req r w
  | effect_wallet u m p msg a :
      first_free pool (assignedWallets w) = Some a ->
      Effect pool w (PostRegister u m p) (failure 500 msg)
             (set_assignedWallets ({[a]} ∪ assignedWallets w) w)
  | effect_user u m p a usr r :
      first_free pool (assignedWallets w) = Some a ->
      walletAddress usr = a ->
      (exists msg, msg ∈ sign_errors /\ r = failure 500 (Message msg))
      \/ (exists tok, r = mkResponse 201 (Registered tok (user_view usr))) ->
      Effect pool w (PostRegister u m p) r
             (set_users (users w ++ [usr])
                (set_assignedWallets ({[a]} ∪ assignedWallets w) w))
  | effect_transaction auth d a ty c rcv t :
      transactionId t = nextId (greatest (transactions w)) ->
      (forall s, s ∈ transactions w -> transactionId s <> transactionId t) ->
      Effect pool w (PostTransaction auth d a ty c rcv)
             (mkResponse 201 (TransactionAdded t))
             (set_transactions (transactions w ++ [t]) w).

(** The transaction a response reports as committed, if any. *)
Definition commit_of (r : Response) : option Transaction :=
  match body r with
  | TransactionAdded t => Some t
  | _ => None
  end.

(** The transactions committed by a run, in the order of the commits. *)
Definition committed (rs : list Response) : list Transaction :=
  omap commit_of rs.

(** The identifiers [1, 2, ..., n]. *)
Definition first_ids (n : nat) : list Z := map Z.of_nat (seq 1 n).

(** The collection holds the identifiers [1 .. n], in this order. *)
Definition numbered (ts : list Transaction) : Prop :=
  map transactionId ts = first_ids (length ts).

(** What holds of a process that started with nothing assigned, [us]
    being the users the database held at that time: the users written
    since hold pairwise distinct wallets, all of them recorded as
    assigned, and only addresses of the pool are assigned. *)
Definition exclusive (pool : list string) (us : list User) (w : World) : Prop :=
  exists new,
    users w = us ++ new
    /\ NoDup (map walletAddress new)
    /\ (forall u, u ∈ new -> walletAddress u ∈ assignedWallets w)
    /\ (forall a, a ∈ assignedWallets w -> a ∈ pool).

(** A registration gets as far as the wallet draw: the three fields are
    present, the database is connected and answers, and no user has the
    e-mail address or the user name. *)
Definition reaches_draw (e : Env) (u m p : JS.value) (w : World) : Prop :=
  JS.truthy u = true /\ JS.truthy m = true /\ JS.truthy p = true
  /\ connected e = true
  /\ storeFault e UserFindOne = None
  /\ List.find (fun x => String.eqb (email x) (JS.toString m)
                         || String.eqb (username x) (JS.toString u))
               (users w) = None.

(** A submission is ready for the store when the token verifies, the
    three required fields are truthy, the database is connected and
    answers the two reads, and the principal [user] exists. *)
Definition ready (e : Env) (tk : Token) (d a ty : JS.value) (w : World) (user : User)
  : Prop :=
  jwt_verify e tk = true
  /\ JS.truthy d = true /\ JS.truthy a = true /\ JS.truthy ty = true
  /\ connected e = true
  /\ storeFault e UserFindById = None
  /\ storeFault e TransactionFindOne = None
  /\ List.find (fun u => N.eqb (_id u) (tokenUserId tk)) (users w) = Some user.

(** The document a ready submission hands to [save]. *)
Definition document (e : Env) (tk : Token) (d a ty c rcv : JS.value) (w : World)
    (user : User) : list (string * PathError) + Transaction :=
  new_Transaction e (nextId (greatest (transactions w))) d (JS.parseFloat a) ty
    (JS.or c (JS.Str "other")) (sender_of ty rcv user) (receiver_of ty rcv user)
    ("0x" ++ random e) (tokenUserId tk).

(** The counterparty of a transaction: the address supplied in the
    request, or the sentinel when none is supplied (the field is absent,
    [null], empty, or otherwise falsy). *)
Definition counterparty_or (supplied : JS.value) (sentinel : string) : string :=
  if JS.truthy supplied then JS.toString supplied else sentinel.

(** The stored transaction [t] is attributed to the principal of the
    request: the principal is the user the token names, the stored
    direction is the one submitted, and the principal's wallet is the
    receiver of an income and the sender of an expense, the other side
    being the counterparty. *)
Definition attributed (w : World) (auth : option Token) (ty rcv : JS.value)
    (t : Transaction) : Prop :=
  exists tk principal,
    auth = Some tk
    /\ List.find (fun u => N.eqb (_id u) (tokenUserId tk)) (users w) = Some principal
    /\ ty = JS.Str (type_name (type t))
    /\ match type t with
       | income =>
           receiver t = walletAddress principal
           /\ sender t = counterparty_or rcv "external_sender"
       | expense =>
           sender t = walletAddress principal
           /\ receiver t = counterparty_or rcv "external_receiver"
       end.

(** The response by which the server reports a direction that the schema
    does not accept: the validation failure of the document at [save],
    with an enum error on the path [type]. *)
Definition InvalidDirection (r : Response) : Prop :=
  exists errs given,
    r = failure 500 (ValidationFailed "Transaction" errs)
    /\ ("type", EnumError given) ∈ errs.

Definition required_fields_error : Response :=
  failure 400 (Message "Description, amount, and type are required").

(** What the server does with a submission whose direction is neither
    ["income"] nor ["expense"]. *)
Definition direction_rejected (pool : list string) (e : Env)
    (auth : option Token) (d a ty c rcv : JS.value) (w : World) : Prop :=
  let '(r, w') := handle pool e (PostTransaction auth d a ty c rcv) w in
  w' = w
  /\ (exists code msg, r = failure code msg)
  /\ (forall tk, auth = Some tk -> jwt_verify e tk = true ->
                 JS.truthy ty = false -> r = required_fields_error)
  /\ (forall tk user, auth = Some tk -> ready e tk d a ty w user ->
                      InvalidDirection r).

(** What the required-field check does with the amount zero: a
    submission whose amount or description is falsy is answered with the
    required-field error and changes nothing; the amount of a
    transaction that is created is what [parseFloat] reads from an amount
    that is truthy. *)
Definition zero_amount_rule (pool : list string) (e : Env) (tk : Token)
    (d a ty c rcv : JS.value) (w : World) : Prop :=
  (a = JS.Num 0 \/ d = JS.Str "" \/ JS.truthy a = false \/ JS.truthy d = false ->
   handle pool e (PostTransaction (Some tk) d a ty c rcv) w
   = (required_fields_error, w))
  /\ (forall t w',
        handle pool e (PostTransaction (Some tk) d a ty c rcv) w
        = (mkResponse 201 (TransactionAdded t), w') ->
        JS.truthy a = true /\ amount t = JS.parseFloat a).

(** An error response: the status is 400 or above. *)
Definition failed (r : Response) : Prop := 400 <= statusCode r.

(** What a failed request leaves behind.  The transactions are as
    before.  A failed request other than a registration leaves the whole
    world as before, and so does a failed registration whose status is
    not 500.  A registration that fails with status 500 may have drawn a
    wallet: then the first free address of the pool has joined the
    assigned set, and the users are as before unless the failure is one
    of the signing of the token (no secret, or no lifetime that is a
    time span), which comes after the user was written. *)
Definition failure_effect (pool : list string) (req : Request)
    (w : World) (r : Response) (w' : World) : Prop :=
  transactions w' = transactions w
  /\ match req with
     | PostRegister _ _ _ =>
         (statusCode r <> 500 -> w' = w)
         /\ (w' = w
             \/ exists a,
                 first_free pool (assignedWallets w) = Some a
                 /\ assignedWallets w' = {[a]} ∪ assignedWallets w
                 /\ (users w' = users w
                     \/ (exists msg, msg ∈ sign_errors
                                     /\ r = failure 500 (Message msg))
                        /\ exists usr, users w' = users w ++ [usr]))
     | _ => w' = w
     end.

Definition by_email (m : JS.value) (u : User) : bool :=
  String.eqb (email u) (JS.toString m).

(** A login attempt that reaches the lookup: both credentials are
    supplied, the database is connected and answers. *)
Definition looked_up (e : Env) (m p : JS.value) : Prop :=
  JS.truthy m = true /\ JS.truthy p = true
  /\ connected e = true /\ storeFault e UserFindOne = None.




(* ===================================================================== *)
(** * The Authorization header *)
(* ===================================================================== *)

Module Header.

(** [s.split(sep)] for a separator of one character: the fields between
    the occurrences of the separator, in order.  There is always at least
    one field. *)
Fixpoint split (sep : ascii) (s : string) : list string :=
  match s with
  | EmptyString => [EmptyString]
  | String c rest =>
      if Ascii.eqb c sep then EmptyString :: split sep rest
      else match split sep rest with
           | field :: fields => String c field :: fields
           | [] => [String c EmptyString]
           end
  end.

(** The first lines of [authenticateToken]:
    [const authHeader = req.headers['authorization'];
     const token = authHeader && authHeader.split(' ')[1];]
    The header is a string, or [undefined] when the request has none. *)
Definition bearer_token (authHeader : option string) : JS.value :=
  match authHeader with
  | None => JS.Undefined
  | Some h =>
      if JS.truthy (JS.Str h)
      then match split " " h !! 1%nat with
           | Some token => JS.Str token
           | None => JS.Undefined
           end
      else JS.Str h
  end.

(** [if (!token) return res.status(401)...]: whether the middleware
    answers 401 "Access token required". *)
Definition token_required (authHeader : option string) : bool :=
  negb (JS.truthy (bearer_token authHeader)).

(** Whether a string contains the separator. *)
Fixpoint contains (sep : ascii) (s : string) : bool :=
  match s with
  | EmptyString => false
  | String c rest => Ascii.eqb c sep || contains sep rest
  end.

End Header.

(* ===================================================================== *)
(** * The month of a timestamp *)
(* ===================================================================== *)

Module Calendar.

Local Open Scope Z_scope.

Definition msPerDay : Z := 86400000.

(** The year and the month (1 to 12) of the day that lies [days] days
    after 1970-01-01, in the proleptic Gregorian calendar, which is the
    calendar of a Date.  The computation counts from 0000-03-01 in eras of
    400 years. *)
Definition year_month_of_day (days : Z) : Z * Z :=
  let z := days + 719468 in
  let era := z / 146097 in
  let doe := z - era * 146097 in
  let yoe := (doe - doe / 1460 + doe / 36524 - doe / 146096) / 365 in
  let doy := doe - (365 * yoe + yoe / 4 - yoe / 100) in
  let mp := (5 * doy + 2) / 153 in
  let m := if mp <? 10 then mp + 3 else mp - 9 in
  (yoe + era * 400 + (if m <=? 2 then 1 else 0), m).

Fixpoint zeros (n : nat) : string :=
  match n with
  | O => ""
  | S k => String "0" (zeros k)
  end.

(** A number written with at least [width] digits. *)
Definition pad (width : nat) (z : Z) : string :=
  let digits := JS.integer_to_string z in
  (zeros (width - String.length digits) ++ digits)%string.

(** [date.toISOString().substring(0, 7)] for the date with time value [t]
    (milliseconds since 1970-01-01T00:00:00Z): ["YYYY-MM"] for the years 0
    to 9999; outside of them the ISO string starts with a sign and six
    digits of the year, which are the seven characters kept. *)
Definition toISOString_month (t : Z) : string :=
  let '(y, m) := year_month_of_day (t / msPerDay) in
  if (0 <=? y) && (y <=? 9999)
  then (pad 4 y ++ "-" ++ pad 2 m)%string
  else String.substring 0 7
         ((if (y <? 0)%Z then "-" else "+") ++ pad 6 (Z.abs y) ++ "-" ++ pad 2 m)%string.

End Calendar.

(* ===================================================================== *)
(** * The predecessor of the server *)
(* ===================================================================== *)

(** The server before the wallet pool and the database-availability
    checks were added: the same routes, the same schemas.  A registration
    takes the wallet address from the request body; the dashboard has a
    breakdown by month besides the one by category. *)
Module Predecessor.

Section Routes.

Variable e : Env.

(** [new User({ username, email, password: hashedPassword,
                walletAddress: walletAddress || '' })] *)
Definition new_User (name mail : JS.value) (hashed : PasswordHash)
    (wallet : JS.value) : User :=
  mkUser (objectId e) (JS.toString name) (JS.toString mail) hashed RoleUser
         (JS.toString (JS.or wallet (JS.Str ""))) (now e).

(** [POST /api/auth/register] *)
Definition register (username email password walletAddress : JS.value)
  : M Response :=
  if negb (JS.truthy username) || negb (JS.truthy email) || negb (JS.truthy password)
  then ret (failure 400 (Message "Username, email, and password are required"))
  else
    existingUser <- User_findOne_or e email username ;;
    match existingUser with
    | Some _ =>
        ret (failure 400 (Message "User with this email or username already exists"))
    | None =>
        hashedPassword <- bcrypt_hash password 12 ;;
        let user := new_User username email hashedPassword walletAddress in
        user_save e user ;;;
        token <- login_token e user ;;
        ret (mkResponse 201 (Registered token (user_view user)))
    end.

(** [POST /api/auth/login] *)
Definition login (email password : JS.value) : M Response :=
  if negb (JS.truthy email) || negb (JS.truthy password)
  then ret (failure 400 (Message "Email and password are required"))
  else
    user <- User_findOne e email ;;
    match user with
    | None => ret (failure 400 (Message "Invalid email or password"))
    | Some user =>
        isPasswordValid <- password_matches password user ;;
        if negb isPasswordValid
        then ret (failure 400 (Message "Invalid email or password"))
        else
          token <- login_token e user ;;
          ret (mkResponse 200 (LoggedIn token (user_view user)))
    end.

(** [GET /api/auth/me] *)
Definition me (req_user : Token) : M Response :=
  user <- User_findById e (tokenUserId req_user) ;;
  match user with
  | None => ret (failure 404 (Message "User not found"))
  | Some user => ret (mkResponse 200 (Profile (user_view user) (createdAt user)))
  end.

(** [POST /api/transactions] *)
Definition addTransaction (req_user : Token)
    (description amount type category receiver : JS.value) : M Response :=
  if negb (JS.truthy description) || negb (JS.truthy amount) || negb (JS.truthy type)
  then ret (failure 400 (Message "Description, amount, and type are required"))
  else
    user <- User_findById e (tokenUserId req_user) ;;
    match user with
    | None => ret (failure 404 (Message "User not found"))
    | Some user =>
        lastTransaction <- Transaction_findOne_last e ;;
        let transactionId := nextId lastTransaction in
        let sender := sender_of type receiver user in
        let transactionReceiver := receiver_of type receiver user in
        transaction <-
          transaction_save e
            (new_Transaction e transactionId description (JS.parseFloat amount)
               type (JS.or category (JS.Str "other")) sender transactionReceiver
               ("0x" ++ random e) (tokenUserId req_user)) ;;
        ret (mkResponse 201 (TransactionAdded transaction))
    end.

(** [GET /api/transactions] *)
Definition getTransactions (req_user : Token) : M Response :=
  found <- Transaction_find e (tokenUserId req_user) ;;
  let transactions := sort_by_timestamp found in
  ret (mkResponse 200 (TransactionList (length transactions) transactions)).

(** One step of the monthly reduction:
    [const month = transaction.timestamp.toISOString().substring(0, 7);
     if (!acc[month]) acc[month] = { income: 0, expense: 0, total: 0 };
     acc[month][transaction.type] += transaction.amount;
     acc[month].total += transaction.amount] *)
Definition month_step (acc : gmap string Bucket) (transaction : Transaction)
  : gmap string Bucket :=
  let month := Calendar.toISOString_month (timestamp transaction) in
  let acc1 := match acc !! month with
              | None => <[month := mkBucket JS.zero JS.zero JS.zero]> acc
              | Some _ => acc
              end in
  match acc1 !! month with
  | Some b => <[month := add_to_bucket transaction b]> acc1
  | None => acc1
  end.

(** [transactions.reduce((acc, transaction) => { ... }, {})] *)
Definition monthlyData (ts : list Transaction) : gmap string Bucket :=
  fold_left month_step ts ∅.

(** The body of the dashboard: [summary] and [analytics.byCategory] (both
    in [Summary]), [analytics.byMonth] and [recentTransactions]. *)
Record Report : Type := mkReport {
  summary : Summary;
  byMonth : gmap string Bucket;
  recentTransactions : list Transaction
}.

Definition report (ts : list Transaction) : Report :=
  mkReport (summarize ts) (monthlyData ts) (take 5 ts).

(** [GET /api/dashboard/summary]: the report with status 200, or the
    handler's 500. *)
Definition dashboardSummary (req_user : Token) (w : World)
  : (Response + Report) * World :=
  match (transactions <- Transaction_find e (tokenUserId req_user) ;;
         ret (report transactions)) w with
  | (Return r, w') => (inr r, w')
  | (Throw msg, w') => (inl (failure 500 msg), w')
  end.

End Routes.

End Predecessor.

(* ===================================================================== *)
(** * The ledger contract *)
(* ===================================================================== *)

(** contracts/FinanceTracker.sol.  A [uint] is an integer of 256 bits and
    arithmetic on it is checked: an overflow reverts the call.  Gas is not
    modelled. *)
Module FinanceTracker.

Local Open Scope Z_scope.

Definition uint_max : Z := 2 ^ 256 - 1.

(** [struct Transaction] *)
Record Transaction : Type := mkTransaction {
  id : Z;
  description : string;
  amount : Z;
  transactionType : string;
  sender : Z;
  timestamp : Z
}.

(** The storage of the contract: [transactions], [transactionCount],
    [owner]. *)
Record Storage : Type := mkStorage {
  transactions : gmap Z Transaction;
  transactionCount : Z;
  owner : Z
}.

(** What a call sees of the message and the block. *)
Record Msg : Type := mkMsg {
  msg_sender : Z;
  block_timestamp : Z
}.

(** [constructor() { owner = msg.sender; transactionCount = 0; }] *)
Definition constructor (msg : Msg) : Storage :=
  mkStorage ∅ 0 (msg_sender msg).

(** The value of a mapping at a key that was never written. *)
Definition zero : Transaction := mkTransaction 0 "" 0 "" 0 0.

(** [addTransaction]: the new storage and the event emitted, or [None]
    when the call reverts ([transactionCount++] overflows). *)
Definition addTransaction (msg : Msg) (_description : string) (_amount : Z)
    (_transactionType : string) (s : Storage)
  : option (Storage * Transaction) :=
  if uint_max <=? transactionCount s then None
  else
    let count := transactionCount s + 1 in
    let t := mkTransaction count _description _amount _transactionType
                           (msg_sender msg) (block_timestamp msg) in
    Some (mkStorage (<[count := t]> (transactions s)) count (owner s), t).

(** [getTransaction(_id)]: the six fields of [transactions[_id]]. *)
Definition getTransaction (_id : Z) (s : Storage) : Transaction :=
  default zero (transactions s !! _id).

(** [getAllTransactions()]:
    [for (uint i = 0; i < transactionCount; i++)
       allTransactions[i] = transactions[i + 1];] *)
Definition getAllTransactions (s : Storage) : list Transaction :=
  map (fun i => getTransaction (Z.of_nat i + 1) s)
      (seq 0 (Z.to_nat (transactionCount s))).

(** A call of [addTransaction], as sent to the contract. *)
Record Call : Type := mkCall {
  call_msg : Msg;
  call_description : string;
  call_amount : Z;
  call_type : string
}.

(** The storage after a call: a call that reverts leaves it as it was. *)
Definition after (s : Storage) (c : Call) : Storage :=
  match addTransaction (call_msg c) (call_description c) (call_amount c)
                       (call_type c) s with
  | Some (s', _) => s'
  | None => s
  end.

(** The storage after a sequence of calls. *)
Definition run (calls : list Call) (s : Storage) : Storage :=
  fold_left after calls s.

End FinanceTracker.

(* ===================================================================== *)
(** * Further vocabulary *)
(* ===================================================================== *)

(** The header [h] has [tok] as its second field: a first field without
    a space, a space, [tok], which has no space, and then either nothing
    or a space and anything. *)
Definition second_field (h tok : string) : Prop :=
  exists scheme rest,
    h = (scheme ++ " " ++ tok ++ rest)%string
    /\ Header.contains " " scheme = false
    /\ Header.contains " " tok = false
    /\ (rest = "" \/ exists more, rest = String " " more).

(** The entry the contract stores for the call number [i] (from 0). *)
Definition entry_of (i : nat) (c : FinanceTracker.Call)
  : FinanceTracker.Transaction :=
  FinanceTracker.mkTransaction (Z.of_nat i + 1)
    (FinanceTracker.call_description c) (FinanceTracker.call_amount c)
    (FinanceTracker.call_type c)
    (FinanceTracker.msg_sender (FinanceTracker.call_msg c))
    (FinanceTracker.block_timestamp (FinanceTracker.call_msg c)).

(** What a call of [addTransaction] that does not revert has done: the
    count grew by one, the entry with the new count as identifier and the
    values of the call is stored under it and emitted, every other entry
    and the owner are as before, and the list of all entries grew by the
    new one at its end. *)
Definition appended (msg : FinanceTracker.Msg) (d : string) (a : Z) (ty : string)
    (s s' : FinanceTracker.Storage) (ev : FinanceTracker.Transaction) : Prop :=
  let n := (FinanceTracker.transactionCount s + 1)%Z in
  FinanceTracker.transactionCount s' = n
  /\ ev = FinanceTracker.mkTransaction n d a ty (FinanceTracker.msg_sender msg)
                                       (FinanceTracker.block_timestamp msg)
  /\ FinanceTracker.getTransaction n s' = ev
  /\ (forall i, i <> n ->
        FinanceTracker.getTransaction i s' = FinanceTracker.getTransaction i s)
  /\ FinanceTracker.owner s' = FinanceTracker.owner s
  /\ FinanceTracker.getAllTransactions s'
     = FinanceTracker.getAllTransactions s ++ [ev].

(** The ledger after the calls [calls] to a new contract: as many
    entries as calls, the entry number [i] holding the values of the call
    number [i] and the identifier [i + 1]; under every other identifier
    the zero entry; the owner is the deployer. *)
Definition lists_calls (msg : FinanceTracker.Msg) (calls : list FinanceTracker.Call)
    (s : FinanceTracker.Storage) : Prop :=
  FinanceTracker.transactionCount s = Z.of_nat (length calls)
  /\ FinanceTracker.getAllTransactions s = imap entry_of calls
  /\ (forall i c, calls !! i = Some c ->
        FinanceTracker.getTransaction (Z.of_nat i + 1) s = entry_of i c)
  /\ (forall k, (k <= 0 \/ Z.of_nat (length calls) < k)%Z ->
        FinanceTracker.getTransaction k s = FinanceTracker.zero)
  /\ FinanceTracker.owner s = FinanceTracker.msg_sender msg.

(** The users reported by the successful registrations of a run. *)
Definition registration_of (r : Response) : option UserView :=
  match body r with
  | Registered _ u => Some u
  | _ => None
  end.

Definition registered (rs : list Response) : list UserView :=
  omap registration_of rs.

(** What a successful registration has done: one user is stored, with
    the submitted name and e-mail address, the hash of the submitted
    password [s], the role [user] and the first free address [a] of the
    pool, which joins the assigned set; the view and the token of the
    response describe this user; nobody stored before has the same
    identifier, name or e-mail address. *)
Definition creates_user (pool : list string) (e : Env) (u m p : JS.value)
    (w : World) (tok : Token) (view : UserView) (w' : World) : Prop :=
  exists s a key seconds,
    let usr := mkUser (objectId e) (JS.toString u) (JS.toString m)
                      (Bcrypt 12 s) RoleUser a (now e) in
    p = JS.Str s
    /\ first_free pool (assignedWallets w) = Some a
    /\ JWT_SECRET e = Some key
    /\ JWT_EXPIRES_IN e = Timespan seconds
    /\ view = user_view usr
    /\ tok = mkToken key (objectId e) (JS.toString u) RoleUser (Some a)
                     (clock e + seconds)
    /\ w' = mkWorld (users w ++ [usr]) (transactions w)
                    ({[a]} ∪ assignedWallets w)
    /\ (forall v, v ∈ users w ->
          _id v <> _id usr /\ username v <> username usr /\ email v <> email usr).

(** A login with the credentials [m] and [p] succeeds for the user shown
    by [view]: the response is 200 with that view and a token for the
    user, signed with the secret of the environment and living for its
    lifetime; nothing changes. *)
Definition logs_in (pool : list string) (e : Env) (m p : JS.value)
    (view : UserView) (w : World) : Prop :=
  exists key seconds,
    JWT_SECRET e = Some key
    /\ JWT_EXPIRES_IN e = Timespan seconds
    /\ handle pool e (PostLogin m p) w
       = (mkResponse 200
            (LoggedIn (mkToken key (viewId view) (viewUsername view)
                               (viewRole view) None (clock e + seconds)) view),
          w).

(** The login of [view] with the credentials [m] and [p] is justified: a
    stored user has the e-mail address, the password is the string whose
    hash the user holds, the view is the user's and the token names the
    user. *)
Definition justified_login (m p : JS.value) (w : World) (tok : Token)
    (view : UserView) : Prop :=
  exists user s rounds,
    List.find (by_email m) (users w) = Some user
    /\ p = JS.Str s
    /\ password user = Bcrypt rounds s
    /\ view = user_view user
    /\ tokenUserId tok = _id user
    /\ tokenUsername tok = username user
    /\ tokenRole tok = role user.

(** The token a protected route is called with; [None] for the two public
    routes. *)
Definition authorization_of (req : Request) : option (option Token) :=
  match req with
  | PostRegister _ _ _ | PostLogin _ _ => None
  | GetMe auth | PostTransaction auth _ _ _ _ _
  | GetTransactions auth | GetSummary auth => Some auth
  end.

(** The error statuses of the server. *)
Definition error_statuses : list nat := [400; 401; 403; 404; 500; 503]%nat.

(** Every body comes with its status and from its route: a failure with
    an error status, a registration with 201 from the registration, and
    so on. *)
Definition classified (req : Request) (r : Response) : Prop :=
  match body r with
  | Failure _ => statusCode r ∈ error_statuses
  | Registered _ _ => statusCode r = 201%nat /\ exists u m p, req = PostRegister u m p
  | LoggedIn _ _ => statusCode r = 200%nat /\ exists m p, req = PostLogin m p
  | Profile _ _ => statusCode r = 200%nat /\ exists auth, req = GetMe auth
  | TransactionAdded _ =>
      statusCode r = 201%nat
      /\ exists auth d a ty c rcv, req = PostTransaction auth d a ty c rcv
  | TransactionList _ _ => statusCode r = 200%nat /\ exists auth, req = GetTransactions auth
  | Dashboard _ _ => statusCode r = 200%nat /\ exists auth, req = GetSummary auth
  end.

(** What holds of the response of every handler, behind the middleware
    or public: it is classified, its status is neither 401 nor 403, and
    it is not the duplicate-key error of one of the unique indexes on
    [username] and [email], nor, unless the request is a submission, the
    one of the unique index on [transactionId]. *)
Definition orderly (req : Request) (r : Response) : Prop :=
  classified req r
  /\ statusCode r <> 401%nat
  /\ statusCode r <> 403%nat
  /\ r <> failure 500 (DuplicateKey "users" "username")
  /\ r <> failure 500 (DuplicateKey "users" "email")
  /\ (r = failure 500 (DuplicateKey "transactions" "transactionId") ->
      exists auth d a ty c rcv, req = PostTransaction auth d a ty c rcv).

(** The identifiers of the collection are safe integers: their
    magnitude is below [2 ^ 53], so that one more is still an integer a
    double holds exactly. *)
Definition safe_ids (ts : list Transaction) : Prop :=
  forall t, t ∈ ts -> (Z.abs (transactionId t) < 2 ^ 53)%Z.

(** The identifiers of the collection are integers of magnitude at most
    [2 ^ 53]: the range in which every integer is a double. *)
Definition exact_ids (ts : list Transaction) : Prop :=
  forall t, t ∈ ts -> (Z.abs (transactionId t) <= 2 ^ 53)%Z.







(** The unique indexes of the users collection hold. *)
Definition unique_users (us : list User) : Prop :=
  NoDup (map _id us) /\ NoDup (map username us) /\ NoDup (map email us).

(** The transactions of one principal, in the order of the collection. *)
Definition owned_by (owner : ObjectId) (ts : list Transaction) : list Transaction :=
  List.filter (fun t => N.eqb (createdBy t) owner) ts.

(** Newest first: no transaction is followed, anywhere in the list, by a
    newer one. *)
Definition newest_first (ts : list Transaction) : Prop :=
  StronglySorted (fun a b => (timestamp b <= timestamp a)%Z) ts.

(** What the two reads show a principal: the listing holds the
    principal's transactions, each once, newest first, with their number;
    the dashboard summarises the principal's transactions in the order of
    the collection and shows the first five of them.  Nothing changes. *)
Definition shows_own (pool : list string) (e : Env) (tk : Token) (w : World)
  : Prop :=
  let mine := owned_by (tokenUserId tk) (transactions w) in
  (exists items,
      handle pool e (GetTransactions (Some tk)) w
      = (mkResponse 200 (TransactionList (length items) items), w)
      /\ items ≡ₚ mine
      /\ newest_first items)
  /\ handle pool e (GetSummary (Some tk)) w
     = (mkResponse 200 (Dashboard (summarize mine) (take 5 mine)), w).

(** The summary of no transactions: zero totals, zero balance, no
    transaction, no bucket. *)
Definition empty_summary : Summary :=
  mkSummary JS.zero JS.zero JS.zero 0 ∅.

(** The summary [s'] is the summary [s] with the transaction [t] added:
    one more transaction, its amount added to the total of its
    direction, and its category bucket updated. *)
Definition summary_grows_by (t : Transaction) (s s' : Summary) : Prop :=
  transactionCount s' = S (transactionCount s)
  /\ totalIncome s'
     = match type t with
       | income => JS.add (totalIncome s) (amount t)
       | expense => totalIncome s
       end
  /\ totalExpenses s'
     = match type t with
       | income => totalExpenses s
       | expense => JS.add (totalExpenses s) (amount t)
       end
  /\ byCategory s' = category_step (byCategory s) t.

(** What the commit of [t] by the principal of [tk] does to the reads:
    the listing and the dashboard of every other principal are answered
    as before, and the principal's own transactions are those before
    followed by [t], the summary growing by [t]. *)
Definition commit_effect_on_reads (pool : list string) (tk : Token)
    (t : Transaction) (w w' : World) : Prop :=
  (forall e' tk',
      tokenUserId tk' <> tokenUserId tk ->
      (handle pool e' (GetTransactions (Some tk')) w').1
      = (handle pool e' (GetTransactions (Some tk')) w).1
      /\ (handle pool e' (GetSummary (Some tk')) w').1
         = (handle pool e' (GetSummary (Some tk')) w).1)
  /\ (let mine := owned_by (tokenUserId tk) (transactions w) in
      let mine' := owned_by (tokenUserId tk) (transactions w') in
      mine' = mine ++ [t]
      /\ summary_grows_by t (summarize mine) (summarize mine')).

(** The transactions of one category, in the order given. *)
Definition in_category (k : string) (ts : list Transaction) : list Transaction :=
  List.filter (fun t => String.eqb (category_name (category t)) k) ts.

(** The transactions of one month, in the order given. *)
Definition in_month (k : string) (ts : list Transaction) : list Transaction :=
  List.filter (fun t => String.eqb (Calendar.toISOString_month (timestamp t)) k) ts.

(** The bucket of a non-empty group of transactions: the sums of its
    incomes, of its expenses and of all its amounts, each taken from 0 in
    the order of the group; no bucket for an empty group. *)
Definition bucket_of (group : list Transaction) : option Bucket :=
  match group with
  | [] => None
  | _ :: _ => Some (mkBucket (sum_of_type income group) (sum_of_type expense group)
                             (sum_of_amounts group JS.zero))
  end.

(** The reduction of the dashboard for a grouping key. *)
Definition bucket_step (key : Transaction -> string) (acc : gmap string Bucket)
    (transaction : Transaction) : gmap string Bucket :=
  let k := key transaction in
  let acc1 := match acc !! k with
              | None => <[k := mkBucket JS.zero JS.zero JS.zero]> acc
              | Some _ => acc
              end in
  match acc1 !! k with
  | Some b => <[k := add_to_bucket transaction b]> acc1
  | None => acc1
  end.

(** The record created by a submission reflects the submission. *)
Definition reflects (e : Env) (tk : Token) (d a c : JS.value) (t : Transaction)
  : Prop :=
  description t = JS.toString d
  /\ amount t = JS.parseFloat a
  /\ amount t <> JS.NaN
  /\ JS.Str (category_name (category t)) = JS.or c (JS.Str "other")
  /\ createdBy t = tokenUserId tk
  /\ timestamp t = now e
  /\ status t = "completed"
  /\ blockchainHash t = ("0x" ++ random e)%string.

(** The response to a document the schema refuses on [path]. *)
Definition refused_on (path : string) (r : Response) : Prop :=
  exists errs err,
    r = failure 500 (ValidationFailed "Transaction" errs)
    /\ (path, err) ∈ errs.

(** A submission is refused by the schema on [path] and nothing is
    stored. *)
Definition refusal (pool : list string) (e : Env) (tk : Token)
    (d a ty c rcv : JS.value) (w : World) (path : string) : Prop :=
  let '(r, w') := handle pool e (PostTransaction (Some tk) d a ty c rcv) w in
  w' = w /\ refused_on path r.

(** The access control of a request: 401 exactly for a protected route
    called without a token, 403 exactly for one called with a token that
    does not verify; in both cases the fixed response, and no change. *)
Definition access_control (e : Env) (req : Request) (w : World)
    (r : Response) (w' : World) : Prop :=
  (statusCode r = 401%nat <-> authorization_of req = Some None)
  /\ (statusCode r = 403%nat <->
      exists t, authorization_of req = Some (Some t) /\ jwt_verify e t = false)
  /\ (statusCode r = 401%nat ->
      r = failure 401 (Message "Access token required") /\ w' = w)
  /\ (statusCode r = 403%nat ->
      r = failure 403 (Message "Invalid or expired token") /\ w' = w).

(** The predecessor and the server agree on a request: same response,
    same world. *)
Definition agree (e : Env) (w : World) : Prop :=
  (forall m p, try_catch (Predecessor.login e m p) w = try_catch (login e m p) w)
  /\ (forall t, try_catch (Predecessor.me e t) w = try_catch (me e t) w)
  /\ (forall t d a ty c rcv,
        try_catch (Predecessor.addTransaction e t d a ty c rcv) w
        = try_catch (addTransaction e t d a ty c rcv) w)
  /\ (forall t, try_catch (Predecessor.getTransactions e t) w
                = try_catch (getTransactions e t) w)
  /\ (forall t,
        match Predecessor.dashboardSummary e t w with
        | (inr report, w') =>
            try_catch (dashboardSummary e t) w
            = (mkResponse 200 (Dashboard (Predecessor.summary report)
                                         (Predecessor.recentTransactions report)), w')
        | (inl r, w') => try_catch (dashboardSummary e t) w = (r, w')
        end).

(** What a registration with the predecessor stores as wallet: the
    address of the request, or the empty string when there is none. *)
Definition supplied_wallet (walletAddress : JS.value) : string :=
  if JS.truthy walletAddress then JS.toString walletAddress else "".

(** The outcome of a registration with the predecessor that gets as far
    as the lookup and finds nobody, by a string password [s]: the user
    is stored with the wallet supplied, whoever holds that address
    already, and the assigned set is as before. *)
Definition registers_with_supplied_wallet (e : Env)
    (u m walletAddress : JS.value) (s : string) (w : World) : Prop :=
  let usr := mkUser (objectId e) (JS.toString u) (JS.toString m) (Bcrypt 12 s)
                    RoleUser (supplied_wallet walletAddress) (now e) in
  exists r,
    try_catch (Predecessor.register e u m (JS.Str s) walletAddress) w
    = (r, set_users (users w ++ [usr]) w)
    /\ (forall key seconds,
          JWT_SECRET e = Some key -> JWT_EXPIRES_IN e = Timespan seconds ->
          r = mkResponse 201
                (Registered (mkToken key (_id usr) (username usr) RoleUser None
                                     (clock e + seconds))
                            (user_view usr))).

(* ===================================================================== *)
(** * Proofs *)
(* ===================================================================== *)

(* ===================================================================== *)
(** * Arithmetic of numbers *)
(* ===================================================================== *)

Module JSFacts.
Import JS.

Local Open Scope Z_scope.

(** A quotient by one is the nearest integer of itself. *)
Lemma nearest_even_1 n : nearest_even n 1 = n.
Proof.
  unfold nearest_even. rewrite Z.mod_1_r, Z.div_1_r. reflexivity.
Qed.

(** The binary exponent of a positive integer is its logarithm. *)
Lemma binary_exponent_integer n : binary_exponent n 1 = Z.log2 (Zpos n).
Proof.
  unfold binary_exponent, at_least_pow2.
  change (Z.log2 1) with 0. rewrite Z.sub_0_r.
  pose proof (Z.log2_nonneg (Zpos n)) as Hnn.
  destruct (Z.leb_spec 0 (Z.log2 (Zpos n))) as [_|]; [|lia].
  pose proof (Z.log2_spec (Zpos n) ltac:(lia)) as [Hlo _].
  destruct (Z.leb_spec (1 * 2 ^ Z.log2 (Zpos n)) (Zpos n)); [reflexivity|lia].
Qed.

Lemma Qred_inject_Z m : Qred (inject_Z m) = inject_Z m.
Proof.
  unfold Qred, inject_Z.
  pose proof (Z.ggcd_gcd m 1) as Hg.
  pose proof (Z.ggcd_correct_divisors m 1) as Hd.
  destruct (Z.ggcd m 1) as [g [a b]]. cbn [fst snd] in *.
  rewrite Z.gcd_1_r in Hg. subst g. destruct Hd as [-> Hb].
  assert (b = 1) as -> by lia. f_equal. lia.
Qed.

Lemma Qred_scaled m k :
  0 < k -> Qred (Qmake (m * k) (Z.to_pos k)) = inject_Z m.
Proof.
  intros Hk.
  rewrite <- (Qred_inject_Z m).
  apply Qred_complete. unfold Qeq. cbn [Qnum Qden inject_Z].
  rewrite Z2Pos.id by exact Hk. ring.
Qed.

(** An integer of at most 53 bits is a double. *)
Lemma round_positive_whole sg n :
  Zpos n <= 2 ^ 53 ->
  round_positive sg n 1
  = Fin (inject_Z (if sg then - Zpos n else Zpos n)).
Proof.
  intros Hn.
  destruct (Z.eq_dec (Zpos n) (2 ^ 53)) as [Heq|Hne].
  { injection Heq as ->. destruct sg; vm_compute; reflexivity. }
  assert (Z.log2 (Zpos n) < 53) as Hlog by (apply Z.log2_lt_pow2; lia).
  pose proof (Z.log2_nonneg (Zpos n)) as Hnn.
  unfold round_positive. rewrite binary_exponent_integer.
  set (l := Z.log2 (Zpos n)) in *.
  rewrite Z.max_l by lia.
  destruct (Z.ltb_spec 971 (l - 52)); [lia|].
  destruct (Z.eqb_spec (l - 52) 971); [lia|]. cbn [orb andb].
  destruct (Z.leb_spec 0 (l - 52)) as [H0|H0].
  - assert (l - 52 = 0) as -> by lia. cbn [Z.pow].
    change (Zpos 1 * 1) with 1. rewrite nearest_even_1.
    destruct sg; f_equal; f_equal; lia.
  - rewrite nearest_even_1.
    assert (0 < 2 ^ (- (l - 52))) as Hpos by (apply Z.pow_pos_nonneg; lia).
    destruct sg.
    + rewrite <- Z.mul_opp_l. now rewrite Qred_scaled.
    + now rewrite Qred_scaled.
Qed.

Lemma round64_whole z :
  Z.abs z <= 2 ^ 53 -> round64 (inject_Z z) = Fin (inject_Z z).
Proof.
  intros Hz. unfold round64. cbn [inject_Z Qnum Qden].
  destruct z as [|n|n]; [reflexivity| |].
  - apply (round_positive_whole false). lia.
  - apply (round_positive_whole true). lia.
Qed.

(** The sum of two integers that is an integer of at most 53 bits is
    exact. *)
Lemma add_whole a b :
  Z.abs (a + b) <= 2 ^ 53 ->
  add (Fin (inject_Z a)) (Fin (inject_Z b)) = Fin (inject_Z (a + b)).
Proof.
  intros H. cbn [add].
  replace (inject_Z a + inject_Z b)%Q with (inject_Z (a + b)).
  - now apply round64_whole.
  - unfold Qplus, inject_Z. cbn [Qnum Qden]. f_equal. ring.
Qed.

Lemma add_integers_exact a b :
  Z.abs (a + b) <= 2 ^ 53 -> add_integers a b = a + b.
Proof. intros H. unfold add_integers. now rewrite add_whole. Qed.

(** From [2 ^ 53] on one more is rounded away. *)
Lemma add_integers_limit : add_integers (2 ^ 53) 1 = 2 ^ 53.
Proof. vm_compute. reflexivity. Qed.

End JSFacts.

(* ===================================================================== *)
(** * The dashboard aggregation *)
(* ===================================================================== *)

Section Aggregation.
Import JS JSFacts.

Local Open Scope Z_scope.












End Aggregation.



(** Numbers as the engine writes and reads them. *)
Example number_to_string_samples :
  map JS.toString
      [JS.Num 1000; JS.Num (1 # 10); JS.Num (1 # 3); JS.Num (-25 # 2);
       JS.Num (10 ^ 21); JS.Num (10 ^ 21 - 1); JS.Num 123456789012345678901;
       JS.Num (1 # 1000000); JS.Num (1 # 10000000);
       JS.Num 9007199254740993; JS.Num (10 ^ 400); JS.Num (1 # 10 ^ 400)]
  = ["1000"; "0.1"; "0.3333333333333333"; "-12.5";
     "1e+21"; "1e+21"; "123456789012345680000";
     "0.000001"; "1e-7";
     "9007199254740992"; "Infinity"; "0"].
Proof. vm_compute. reflexivity. Qed.

Example parseFloat_samples :
  map (fun s => JS.number_to_string (JS.parseFloat (JS.Str s)))
      ["12.50"; "  7 days"; "1e3"; "1e"; ".5"; "-.5e1"; "0x10"; "twelve"; "";
       "1e400"; "-1e400"; "1e-400"; "Infinity"; "0.1234567890123456789";
       String "194" (String "160" "8"); String "226" (String "128" (String "168" "9"))]
  = ["12.5"; "7"; "1000"; "1"; "0.5"; "-5"; "0"; "NaN"; "NaN";
     "Infinity"; "-Infinity"; "0"; "Infinity"; "0.12345678901234568";
     "8"; "9"].
Proof. vm_compute. reflexivity. Qed.

(** Sums are rounded: the order of the summands matters. *)
Example sums_are_rounded :
  let a := JS.parseFloat (JS.Num (1 # 10)) in
  let b := JS.parseFloat (JS.Num (2 # 10)) in
  let c := JS.parseFloat (JS.Num (3 # 10)) in
  JS.number_to_string (JS.add a b) = "0.30000000000000004"
  /\ JS.number_to_string (JS.add (JS.add a b) c) = "0.6000000000000001"
  /\ JS.number_to_string (JS.add a (JS.add b c)) = "0.6"
  /\ JS.add_integers 9007199254740991 1 = 9007199254740992%Z
  /\ JS.add_integers 9007199254740992 1 = 9007199254740992%Z
  /\ JS.add_integers 9007199254740994 1 = 9007199254740996%Z.
Proof. vm_compute. repeat split. Qed.

(* ===================================================================== *)
(** * The wallet pool: scanning order *)
(* ===================================================================== *)

Section PoolScan.

Lemma getAvailableWallet_first_free pool w :
  getAvailableWallet pool w =
  match first_free pool (assignedWallets w) with
  | Some a => (Return a, set_assignedWallets ({[a]} ∪ assignedWallets w) w)
  | None => (Throw (Message "No more wallets available"), w)
  end.
Proof.
  induction pool as [|a pool IH]; [reflexivity|].
  cbn [getAvailableWallet first_free List.find].
  unfold bind at 1, get_world.
  destruct (bool_decide (a ∈ assignedWallets w)); cbn [negb].
  - exact IH.
  - reflexivity.
Qed.

Lemma first_free_Some pool assigned a :
  first_free pool assigned = Some a <->
  exists before after,
    pool = before ++ a :: after
    /\ (forall x, x ∈ before -> x ∈ assigned)
    /\ a ∉ assigned.
Proof.
  unfold first_free. induction pool as [|x pool IH]; cbn [List.find].
  - split; [discriminate|]. intros (before & after & Hp & _).
    destruct before; discriminate.
  - destruct (bool_decide (x ∈ assigned)) eqn:Hx; cbn [negb].
    + apply bool_decide_eq_true in Hx. rewrite IH. split.
      * intros (before & after & -> & Hb & Ha).
        exists (x :: before), after. split; [reflexivity|]. split; [|exact Ha].
        intros y Hy. apply elem_of_cons in Hy as [->|Hy]; auto.
      * intros (before & after & Hp & Hb & Ha).
        destruct before as [|y before]; cbn in Hp; injection Hp as -> ->.
        -- contradiction.
        -- exists before, after. split; [reflexivity|]. split; [|exact Ha].
           intros z Hz. apply Hb. now right.
    + apply bool_decide_eq_false in Hx. split.
      * intros [= ->]. exists [], pool. repeat split; [|exact Hx].
        intros y Hy. inversion Hy.
      * intros (before & after & Hp & Hb & Ha).
        destruct before as [|y before]; cbn in Hp; injection Hp as -> ->.
        -- reflexivity.
        -- exfalso. apply Hx, Hb. now left.
Qed.

Lemma first_free_None pool assigned :
  first_free pool assigned = None <-> forall x, x ∈ pool -> x ∈ assigned.
Proof.
  unfold first_free. induction pool as [|x pool IH]; cbn [List.find].
  - split; [|reflexivity]. intros _ y Hy. inversion Hy.
  - destruct (bool_decide (x ∈ assigned)) eqn:Hx; cbn [negb].
    + apply bool_decide_eq_true in Hx. rewrite IH. split.
      * intros H y Hy. apply elem_of_cons in Hy as [->|Hy]; auto.
      * intros H y Hy. apply H. now right.
    + apply bool_decide_eq_false in Hx. split; [discriminate|].
      intros H. exfalso. apply Hx, H. now left.
Qed.

End PoolScan.

(** C5.  [getAvailableWallet] scans the pool in its order: it returns the
    first address that is not in the assigned set and records it as
    assigned, and throws when every address is assigned.  Over the pool
    [W1; W2], starting with nothing assigned, alice is given [W1], bob
    [W2], and carol's registration fails with the pool-exhausted error. *)
Theorem wallet_assignment_order :
  (forall pool w,
      (forall before a after,
          pool = before ++ a :: after ->
          (forall x, x ∈ before -> x ∈ assignedWallets w) ->
          a ∉ assignedWallets w ->
          getAvailableWallet pool w
          = (Return a, set_assignedWallets ({[a]} ∪ assignedWallets w) w))
      /\ ((forall x, x ∈ pool -> x ∈ assignedWallets w) ->
          getAvailableWallet pool w
          = (Throw (Message "No more wallets available"), w)))
  /\ (let '(rs, w) :=
        serve [Scenario.W1; Scenario.W2]
              [(Scenario.healthy 1, Scenario.alice);
               (Scenario.healthy 2, Scenario.bob);
               (Scenario.healthy 3, Scenario.carol)]
              empty_world in
      map Scenario.wallet_of rs = [Some Scenario.W1; Some Scenario.W2; None]
      /\ map statusCode rs = [201; 201; 500]%nat
      /\ rs !! 2%nat = Some (failure 500 (Message "No more wallets available"))
      /\ map walletAddress (users w) = [Scenario.W1; Scenario.W2]
      /\ assignedWallets w = {[Scenario.W1; Scenario.W2]}).
Proof.
  split.
  - intros pool w. rewrite getAvailableWallet_first_free. split.
    + intros before a after Hp Hb Ha.
      assert (first_free pool (assignedWallets w) = Some a) as ->; [|reflexivity].
      apply first_free_Some. eauto.
    + intros Hall.
      assert (first_free pool (assignedWallets w) = None) as ->; [|reflexivity].
      now apply first_free_None.
  - vm_compute. repeat split.
Qed.

(* ===================================================================== *)
(** * The sequencer *)
(* ===================================================================== *)

Section Sequencer.

Local Open Scope Z_scope.

Lemma greatest_from ts : forall b,
  exists m, fold_left keep_greater ts (Some b) = Some m
            /\ m ∈ b :: ts
            /\ forall t, t ∈ b :: ts -> transactionId t <= transactionId m.
Proof.
  induction ts as [|x ts IH]; intros b; cbn [fold_left].
  - exists b. split; [reflexivity|]. split; [now left|].
    intros t Ht. apply list_elem_of_singleton in Ht as ->. lia.
  - cbn [keep_greater]. destruct (Z.ltb_spec (transactionId b) (transactionId x)).
    + destruct (IH x) as (m & Hm & Hin & Hmax). exists m. split; [exact Hm|]. split.
      * now right.
      * intros t Ht. apply elem_of_cons in Ht as [->|Ht].
        -- specialize (Hmax x ltac:(now left)). lia.
        -- now apply Hmax.
    + destruct (IH b) as (m & Hm & Hin & Hmax). exists m. split; [exact Hm|]. split.
      * apply elem_of_cons in Hin as [->|Hin]; [now left|]. right. now right.
      * intros t Ht. apply elem_of_cons in Ht as [->|Ht]; [apply Hmax; now left|].
        apply elem_of_cons in Ht as [->|Ht].
        -- specialize (Hmax b ltac:(now left)). lia.
        -- apply Hmax. now right.
Qed.

(** [greatest] finds a document whose identifier no other exceeds. *)
Lemma greatest_spec ts :
  match greatest ts with
  | None => ts = []
  | Some m => m ∈ ts /\ forall t, t ∈ ts -> transactionId t <= transactionId m
  end.
Proof.
  unfold greatest. destruct ts as [|x ts]; [reflexivity|].
  cbn [fold_left keep_greater].
  destruct (greatest_from ts x) as (m & -> & Hin & Hmax). auto.
Qed.

(** On a collection of safe identifiers the sequencer adds one to the
    greatest. *)
Lemma nextId_safe ts m :
  safe_ids ts -> greatest ts = Some m -> nextId (greatest ts) = transactionId m + 1.
Proof.
  intros Hsafe Hm. pose proof (greatest_spec ts) as H. rewrite Hm in *.
  destruct H as [Hin _]. specialize (Hsafe m Hin). cbn [nextId].
  apply JSFacts.add_integers_exact. lia.
Qed.

(** C3, for the server with the wallet pool.  The read of the last
    transaction returns the document with the highest identifier (or
    fails with the store's error and changes nothing), and the identifier
    computed from it is [1] on an empty collection and one plus the
    highest identifier otherwise: it is one plus the identifier of some
    stored transaction and exceeds all of them.  This holds in every
    state of the store whose identifiers are safe integers (of magnitude
    below [2 ^ 53]). *)
Theorem nextId_is_highest_plus_one (e : Env) (w : World) :
  safe_ids (transactions w) ->
  Transaction_findOne_last e w
  = match storeFault e TransactionFindOne with
    | None => (Return (greatest (transactions w)), w)
    | Some msg => (Throw (Message msg), w)
    end
  /\ match transactions w with
     | [] => nextId (greatest (transactions w)) = 1
     | _ :: _ =>
         (exists t, t ∈ transactions w
                    /\ nextId (greatest (transactions w)) = transactionId t + 1)
         /\ (forall t, t ∈ transactions w ->
                       transactionId t + 1 <= nextId (greatest (transactions w)))
     end.
Proof.
  intros Hsafe. split.
  - unfold Transaction_findOne_last, store_op.
    destruct (storeFault e TransactionFindOne); reflexivity.
  - pose proof (greatest_spec (transactions w)) as H.
    destruct (transactions w) as [|x ts] eqn:Hts; [reflexivity|].
    destruct (greatest (x :: ts)) as [m|] eqn:Hm; [|discriminate].
    destruct H as [Hin Hmax]. rewrite <- Hm, (nextId_safe _ m Hsafe Hm). split.
    + exists m. auto.
    + intros t Ht. specialize (Hmax t Ht). lia.
Qed.

End Sequencer.

Lemma nextId_is_highest_plus_one_witness :
  let stored := [mkTransaction 7 "Paycheck" (JS.Fin 1000) income salary
                   "external_sender" Scenario.W1 1700000000000 "0x5f3a9c"
                   "completed" 1%N;
                 mkTransaction 3 "Rent" (JS.Fin 400) expense rent
                   Scenario.W1 "external_receiver" 1700000000000 "0x5f3a9c"
                   "completed" 1%N] in
  let w := set_transactions stored Scenario.with_alice in
  Transaction_findOne_last (Scenario.healthy 7) w
  = (Return (greatest (transactions w)), w)
  /\ (exists t, t ∈ transactions w
                /\ nextId (greatest (transactions w)) = (transactionId t + 1)%Z)
  /\ (forall t, t ∈ transactions w ->
                (transactionId t + 1 <= nextId (greatest (transactions w)))%Z).
Proof.
  intros stored w.
  apply (nextId_is_highest_plus_one (Scenario.healthy 7) w).
  intros t Ht. unfold w, stored in Ht. cbn in Ht.
  apply elem_of_cons in Ht as [->|Ht]; [cbn; lia|].
  apply list_elem_of_singleton in Ht as ->. cbn; lia.
Defined.

(* ===================================================================== *)
(** * What one request does to the world *)
(* ===================================================================== *)

Section Effects.

Variable pool : list string.
Variable e : Env.

(** Unfolding of the handler computations. *)
Ltac run :=
  unfold User_findOne_or, User_findOne, User_findById, user_save,
    Transaction_findOne_last, Transaction_find, transaction_save,
    registration_token, login_token, password_matches in *;
  unfold bcrypt_hash, bcrypt_compare, jwt_sign, store_op in *;
  unfold try_catch, bind, ret, throw, get_world, put_world in *.

Lemma register_effect u m p w r w' :
  try_catch (register pool e u m p) w = (r, w') ->
  Effect pool w (PostRegister u m p) r w'.
Proof.
  unfold register. intros H. run.
  repeat (case_match; simplify_eq/=); try (now constructor);
    rewrite getAvailableWallet_first_free in *;
    repeat (case_match; simplify_eq/=);
    try (now apply effect_wallet);
    try (now constructor).
  all: eapply effect_user; eauto;
    try (right; eexists; reflexivity);
    left; eexists; (split; [|reflexivity]); repeat constructor.
Qed.

Lemma login_effect m p w r w' :
  try_catch (login e m p) w = (r, w') ->
  w' = w /\ reports_write r = false.
Proof.
  unfold login. intros H. run.
  repeat (case_match; simplify_eq/=); auto.
Qed.

Lemma me_effect t w r w' :
  try_catch (me e t) w = (r, w') ->
  w' = w /\ reports_write r = false.
Proof.
  unfold me. intros H. run.
  repeat (case_match; simplify_eq/=); auto.
Qed.

Lemma getTransactions_effect t w r w' :
  try_catch (getTransactions e t) w = (r, w') ->
  w' = w /\ reports_write r = false.
Proof.
  unfold getTransactions. intros H. run.
  repeat (case_match; simplify_eq/=); auto.
Qed.

Lemma dashboardSummary_effect t w r w' :
  try_catch (dashboardSummary e t) w = (r, w') ->
  w' = w /\ reports_write r = false.
Proof.
  unfold dashboardSummary. intros H. run.
  repeat (case_match; simplify_eq/=); auto.
Qed.

Lemma existsb_id_fresh (t : Transaction) (ts : list Transaction) :
  existsb (fun x => (transactionId x =? transactionId t)%Z) ts = false ->
  forall s, s ∈ ts -> transactionId s <> transactionId t.
Proof.
  intros H s Hs Heq.
  assert (existsb (fun x => (transactionId x =? transactionId t)%Z) ts = true) as Ht.
  { apply existsb_exists. exists s. split; [now apply list_elem_of_In|].
    now apply Z.eqb_eq. }
  congruence.
Qed.

(** A submission either fails and changes nothing, or appends exactly
    the transaction it reports, numbered by the sequencer with an
    identifier that the unique index accepts. *)
Lemma addTransaction_effect tk d a ty c rcv w r w' :
  try_catch (addTransaction e tk d a ty c rcv) w = (r, w') ->
  (w' = w /\ exists code msg, r = failure code msg)
  \/ (exists t, r = mkResponse 201 (TransactionAdded t)
                /\ w' = set_transactions (transactions w ++ [t]) w
                /\ transactionId t = nextId (greatest (transactions w))
                /\ forall s, s ∈ transactions w ->
                             transactionId s <> transactionId t).
Proof.
  unfold addTransaction. intros H. run.
  repeat (case_match; simplify_eq/=); eauto 6.
  right. eexists. split; [reflexivity|]. split; [reflexivity|].
  split; [|now apply existsb_id_fresh].
  unfold new_Transaction in *.
  repeat (case_match; simplify_eq/=); reflexivity.
Qed.

Lemma authenticateToken_rejects auth next w r w' :
  authenticateToken e auth next w = (r, w') ->
  (w' = w /\ exists code msg, r = failure code msg /\ (code = 401 \/ code = 403)%nat)
  \/ (exists tk, auth = Some tk /\ jwt_verify e tk = true /\ next tk w = (r, w')).
Proof.
  unfold authenticateToken. intros H.
  repeat (case_match; simplify_eq/=); eauto 10.
Qed.

(** Every request has one of the four effects. *)
Lemma handle_effect req w r w' :
  handle pool e req w = (r, w') ->
  Effect pool w req r w'.
Proof.
  destruct req as [u m p|m p|auth|auth d a ty c rcv|auth|auth]; cbn [handle].
  - apply register_effect.
  - intros [-> H]%login_effect. now constructor.
  - intros [[-> (code & msg & -> & _)]|(tk & -> & _ & [-> H]%me_effect)]%authenticateToken_rejects;
      now constructor.
  - intros [[-> (code & msg & -> & _)]|(tk & -> & _ & H)]%authenticateToken_rejects;
      [now constructor|].
    apply addTransaction_effect in H
      as [[-> (code & msg & ->)]|(t & -> & -> & Hid & Hfresh)];
      now constructor.
  - intros [[-> (code & msg & -> & _)]|(tk & -> & _ & [-> H]%getTransactions_effect)]%authenticateToken_rejects;
      now constructor.
  - intros [[-> (code & msg & -> & _)]|(tk & -> & _ & [-> H]%dashboardSummary_effect)]%authenticateToken_rejects;
      now constructor.
Qed.

End Effects.

(* ===================================================================== *)
(** * Identifiers of committed transactions *)
(* ===================================================================== *)

Section Ledger.

Lemma first_ids_snoc n : first_ids (S n) = first_ids n ++ [Z.of_nat (S n)].
Proof. unfold first_ids. now rewrite seq_S, map_app. Qed.

Lemma first_ids_bounds n z : z ∈ first_ids n -> (1 <= z <= Z.of_nat n)%Z.
Proof.
  unfold first_ids. rewrite list_elem_of_In, in_map_iff.
  intros (k & <- & Hk%in_seq). lia.
Qed.

Lemma NoDup_first_ids n : NoDup (first_ids n).
Proof.
  unfold first_ids. apply NoDup_fmap_2; [intros x y; lia|].
  apply NoDup_ListNoDup, seq_NoDup.
Qed.

(** On a numbered collection the greatest identifier is the number of
    transactions. *)
Lemma greatest_numbered ts :
  numbered ts -> ts <> [] ->
  exists m, greatest ts = Some m /\ m ∈ ts
            /\ transactionId m = Z.of_nat (length ts).
Proof.
  intros Hn Hne. pose proof (greatest_spec ts) as H.
  destruct (greatest ts) as [m|]; [|contradiction].
  destruct H as [Hin Hmax]. exists m. split; [reflexivity|]. split; [exact Hin|].
  assert (transactionId m ∈ first_ids (length ts)) as Hm.
  { rewrite <- Hn. now apply list_elem_of_fmap_2. }
  apply first_ids_bounds in Hm.
  destruct ts as [|x ts' _] using rev_ind; [inversion Hin|].
  specialize (Hmax x ltac:(apply elem_of_app; right; now left)).
  unfold numbered in Hn. rewrite length_app in Hn. cbn [length] in Hn.
  rewrite Nat.add_1_r, first_ids_snoc, map_app in Hn. cbn [map] in Hn.
  apply app_inj_tail in Hn as [_ Hx].
  rewrite length_app, Nat.add_1_r in *. cbn [length] in *. lia.
Qed.

(** On a numbered collection of fewer than [2 ^ 53] transactions the
    sequencer yields the next number; on one of [2 ^ 53] transactions it
    yields the identifier of a stored transaction. *)
Lemma nextId_numbered ts :
  numbered ts -> (Z.of_nat (length ts) <= 2 ^ 53)%Z ->
  (Z.of_nat (length ts) < 2 ^ 53)%Z
  /\ nextId (greatest ts) = Z.of_nat (S (length ts))
  \/ exists m, m ∈ ts /\ transactionId m = nextId (greatest ts).
Proof.
  intros Hn Hlen. destruct ts as [|x ts'] eqn:Hts; [left; split; [cbn; lia|reflexivity]|].
  rewrite <- Hts in *.
  destruct (greatest_numbered ts Hn) as (m & Hg & Hin & Hm); [now subst|].
  rewrite Hg. cbn [nextId]. rewrite Hm.
  destruct (Z.eq_dec (Z.of_nat (length ts)) (2 ^ 53)%Z) as [Heq|Hne].
  - right. exists m. split; [exact Hin|].
    now rewrite Hm, Heq, JSFacts.add_integers_limit.
  - left. split; [lia|]. rewrite JSFacts.add_integers_exact by lia. lia.
Qed.

Lemma numbered_snoc ts t :
  numbered ts -> transactionId t = Z.of_nat (S (length ts)) -> numbered (ts ++ [t]).
Proof.
  unfold numbered. intros Hn Ht.
  rewrite map_app, length_app, Nat.add_1_r, first_ids_snoc. cbn [map length].
  now rewrite Hn, Ht.
Qed.

(** One request on a numbered collection of at most [2 ^ 53]
    transactions: the collection grows by the commit the response
    reports, and stays so.  (At [2 ^ 53] transactions the identifier
    computed is taken, and the unique index refuses the insert.) *)
Lemma handle_numbered pool e req w r w' :
  handle pool e req w = (r, w') ->
  numbered (transactions w) ->
  (Z.of_nat (length (transactions w)) <= 2 ^ 53)%Z ->
  transactions w' = transactions w ++ committed [r]
  /\ numbered (transactions w')
  /\ (Z.of_nat (length (transactions w')) <= 2 ^ 53)%Z.
Proof.
  intros H%handle_effect Hn Hlen. unfold committed.
  destruct H as [req r Hr|u m p msg a Hfree|u m p a usr r Hfree Hw Hr
                |auth d a ty c rcv t Hid Hfresh];
    cbn [omap commit_of body failure transactions set_assignedWallets set_users
         set_transactions].
  - destruct r as [code [| | | | | |]]; try discriminate; cbn; now rewrite app_nil_r.
  - now rewrite app_nil_r.
  - destruct Hr as [(msg & _ & ->)|[tok ->]]; cbn; now rewrite app_nil_r.
  - cbn. split; [reflexivity|].
    destruct (nextId_numbered _ Hn Hlen) as [[Hlt Hnext]|(m & Hin & Hm)].
    + split; [apply numbered_snoc; [exact Hn|congruence]|].
      rewrite length_app. cbn [length]. lia.
    + exfalso. apply (Hfresh m Hin). congruence.
Qed.

Lemma committed_cons r rs : committed (r :: rs) = committed [r] ++ committed rs.
Proof. unfold committed. cbn. destruct (commit_of r); reflexivity. Qed.

Lemma serve_numbered pool reqs : forall w rs w',
  serve pool reqs w = (rs, w') ->
  numbered (transactions w) ->
  (Z.of_nat (length (transactions w)) <= 2 ^ 53)%Z ->
  transactions w' = transactions w ++ committed rs
  /\ numbered (transactions w').
Proof.
  induction reqs as [|[e req] reqs IH]; intros w rs w' H Hn Hlen; cbn [serve] in H.
  - injection H as <- <-. cbn. now rewrite app_nil_r.
  - destruct (handle pool e req w) as [r w1] eqn:H1.
    destruct (serve pool reqs w1) as [rs' w2] eqn:H2.
    injection H as <- <-.
    destruct (handle_numbered _ _ _ _ _ _ H1 Hn Hlen) as (Ht1 & Hn1 & Hlen1).
    destruct (IH _ _ _ H2 Hn1 Hlen1) as [Ht2 Hn2].
    split; [|exact Hn2].
    rewrite Ht2, Ht1, (committed_cons r rs'). now rewrite app_assoc.
Qed.

(** C1.  Requests served one after the other against a store that holds
    no transaction: the transactions committed are exactly those stored,
    their identifiers are, in the order of the commits, 1, 2, 3, ...
    without a gap, and no identifier occurs twice. *)
Theorem committed_ids_sequential (pool : list string)
    (reqs : list (Env * Request)) (us : list User) (assigned : gset string) :
  let '(rs, w') := serve pool reqs (mkWorld us [] assigned) in
  transactions w' = committed rs
  /\ map transactionId (committed rs) = first_ids (length (committed rs))
  /\ NoDup (map transactionId (committed rs)).
Proof.
  destruct (serve pool reqs (mkWorld us [] assigned)) as [rs w'] eqn:H.
  apply serve_numbered in H as [Ht Hn]; [|reflexivity|cbn; lia].
  cbn [transactions app] in Ht. rewrite Ht in Hn.
  split; [exact Ht|]. split; [exact Hn|].
  rewrite Hn. apply NoDup_first_ids.
Qed.

End Ledger.

(* ===================================================================== *)
(** * Wallet exclusivity *)
(* ===================================================================== *)

Section Exclusivity.

Variable pool : list string.

Lemma first_free_in_pool assigned a :
  first_free pool assigned = Some a -> a ∈ pool /\ a ∉ assigned.
Proof.
  intros (before & after & -> & _ & Ha)%first_free_Some. split; [|exact Ha].
  apply elem_of_app. right. now left.
Qed.

Lemma handle_exclusive us e req w r w' :
  handle pool e req w = (r, w') -> exclusive pool us w -> exclusive pool us w'.
Proof.
  intros H%handle_effect (new & Hu & Hnd & Hin & Hpool).
  destruct H as [req r Hr|u m p msg a Hfree|u m p a usr r Hfree Hw Hr|auth d a ty c rcv t Hid].
  - exists new. auto.
  - apply first_free_in_pool in Hfree as [Hp Ha].
    exists new. cbn. repeat split; auto.
    + intros u' Hu'. apply elem_of_union. right. auto.
    + intros x [->%elem_of_singleton|Hx]%elem_of_union; auto.
  - apply first_free_in_pool in Hfree as [Hp Ha].
    exists (new ++ [usr]). cbn. repeat split.
    + now rewrite Hu, app_assoc.
    + rewrite map_app. cbn. apply NoDup_app. split; [exact Hnd|]. split.
      * intros x Hx ->%list_elem_of_singleton. apply Ha. rewrite <- Hw.
        apply list_elem_of_In, in_map_iff in Hx as (u' & Heq & Hu'%list_elem_of_In).
        rewrite <- Heq. auto.
      * apply NoDup_singleton.
    + intros u' [Hu' | ->%list_elem_of_singleton]%elem_of_app;
        apply elem_of_union; [right; auto|left; now apply elem_of_singleton].
    + intros x [->%elem_of_singleton|Hx]%elem_of_union; auto.
  - exists new. auto.
Qed.

Lemma serve_exclusive us reqs : forall w rs w',
  serve pool reqs w = (rs, w') -> exclusive pool us w -> exclusive pool us w'.
Proof.
  induction reqs as [|[e req] reqs IH]; intros w rs w' H Hex; cbn [serve] in H.
  - now injection H as <- <-.
  - destruct (handle pool e req w) as [r w1] eqn:H1.
    destruct (serve pool reqs w1) as [rs' w2] eqn:H2.
    inversion H; subst. eauto using handle_exclusive.
Qed.

(** The assigned set never shrinks. *)
Lemma handle_assigned_grows e req w :
  assignedWallets w ⊆ assignedWallets (handle pool e req w).2.
Proof.
  destruct (handle pool e req w) as [r w'] eqn:H. apply handle_effect in H.
  destruct H; cbn; first [reflexivity | apply union_subseteq_r].
Qed.

Lemma register_exhausted e u m p w :
  reaches_draw e u m p w ->
  first_free pool (assignedWallets w) = None ->
  handle pool e (PostRegister u m p) w
  = (failure 500 (Message "No more wallets available"), w).
Proof.
  intros (Hu & Hm & Hp & Hc & Hf & Hnone) Hfree.
  cbn [handle]. unfold register, try_catch.
  rewrite Hu, Hm, Hp, Hc. cbn [negb orb].
  unfold bind at 1. unfold User_findOne_or, store_op. rewrite Hf.
  unfold bind at 1, get_world, ret at 1. rewrite Hnone.
  unfold bind at 1. now rewrite getAvailableWallet_first_free, Hfree.
Qed.

Lemma exclusive_bound us w new :
  exclusive pool us w -> users w = us ++ new ->
  NoDup (map walletAddress new)
  /\ length new <= length pool
  /\ (length new = length pool -> first_free pool (assignedWallets w) = None).
Proof.
  intros (new' & Hu & Hnd & Hin & Hpool) Hnew.
  rewrite Hu in Hnew. apply app_inv_head in Hnew as ->.
  assert (incl (map walletAddress new) pool) as Hincl.
  { intros a (u & <- & Hu'%list_elem_of_In)%in_map_iff.
    apply list_elem_of_In. auto. }
  apply NoDup_ListNoDup in Hnd.
  split; [now apply NoDup_ListNoDup|]. split.
  - rewrite <- (length_map walletAddress). now apply NoDup_incl_length.
  - intros Hlen. apply first_free_None. intros a Ha.
    assert (In a (map walletAddress new)) as (u & <- & Hu'%list_elem_of_In)%in_map_iff.
    { apply (NoDup_length_incl (l := map walletAddress new) (l' := pool));
        [exact Hnd|rewrite length_map; lia|exact Hincl|].
      now apply list_elem_of_In. }
    auto.
Qed.

(** C4.  In a process that starts with nothing assigned, whatever
    requests it serves: the users written during its lifetime hold
    pairwise distinct wallets; there are at most as many of them as the
    pool has addresses; and once there are as many, every further
    registration that gets as far as the wallet draw is answered with the
    pool-exhausted error and changes nothing.  The assigned set of any
    world is contained in the assigned set after any request. *)
Theorem wallet_exclusivity (reqs : list (Env * Request))
    (us : list User) (ts : list Transaction) :
  (let '(rs, w') := serve pool reqs (mkWorld us ts ∅) in
   exists new,
     users w' = us ++ new
     /\ NoDup (map walletAddress new)
     /\ length new <= length pool
     /\ (length new = length pool ->
         forall e u m p,
           reaches_draw e u m p w' ->
           handle pool e (PostRegister u m p) w'
           = (failure 500 (Message "No more wallets available"), w')))
  /\ (forall e req w,
        assignedWallets w ⊆ assignedWallets (handle pool e req w).2).
Proof.
  split; [|intros; apply handle_assigned_grows].
  destruct (serve pool reqs (mkWorld us ts ∅)) as [rs w'] eqn:H.
  assert (exclusive pool us w') as Hex.
  { eapply serve_exclusive; [exact H|]. exists []. cbn.
    repeat split; [now rewrite app_nil_r|constructor| |];
      intros x Hx; [inversion Hx|set_solver]. }
  destruct Hex as (new & Hu & Hrest).
  exists new. split; [exact Hu|].
  destruct (exclusive_bound us w' new) as (Hnd & Hlen & Hfull);
    [now exists new|exact Hu|].
  split; [exact Hnd|]. split; [exact Hlen|].
  intros Hall e u m p Hreach. apply register_exhausted; auto.
Qed.

End Exclusivity.

(* ===================================================================== *)
(** * Transaction submission *)
(* ===================================================================== *)

Section Submission.

Variable pool : list string.
Variable e : Env.

Ltac run :=
  unfold User_findById, Transaction_findOne_last, transaction_save in *;
  unfold store_op in *;
  unfold try_catch, bind, ret, throw, get_world, put_world in *.

Lemma submission_ready tk d a ty c rcv w user :
  ready e tk d a ty w user ->
  handle pool e (PostTransaction (Some tk) d a ty c rcv) w
  = try_catch (transaction <- transaction_save e (document e tk d a ty c rcv w user) ;;
               ret (mkResponse 201 (TransactionAdded transaction))) w.
Proof.
  intros (Hv & Hd & Ha & Hty & Hc & Hf1 & Hf2 & Hu).
  cbn [handle authenticateToken]. rewrite Hv. unfold addTransaction.
  rewrite Hd, Ha, Hty, Hc. cbn [negb orb]. run.
  now rewrite Hf1, Hu, Hf2.
Qed.

(** A submission that is answered 201 was ready, and what it stored is
    the document built from it. *)
Lemma submission_created auth d a ty c rcv w t w' :
  handle pool e (PostTransaction auth d a ty c rcv) w
  = (mkResponse 201 (TransactionAdded t), w') ->
  exists tk user,
    auth = Some tk
    /\ ready e tk d a ty w user
    /\ document e tk d a ty c rcv w user = inr t
    /\ w' = set_transactions (transactions w ++ [t]) w.
Proof.
  cbn [handle].
  intros [[_ (code & msg & [=] & _)]|(tk & -> & Hv & H)]%authenticateToken_rejects.
  exists tk. unfold addTransaction in H. run. unfold ready, document.
  repeat (case_match; simplify_eq/=).
  eexists. repeat split; eauto;
    repeat match goal with
           | H : _ || _ = false |- _ => apply orb_false_elim in H as [? ?]
           | H : negb _ = false |- _ => apply negb_false_iff in H
           end; auto.
Qed.

(** The fields of a document that passed validation. *)
Lemma new_Transaction_fields id d n ty c snd rcv hash owner t :
  new_Transaction e id d n ty c snd rcv hash owner = inr t ->
  transactionId t = id
  /\ cast_amount n = inr (amount t)
  /\ cast_type ty = inr (type t)
  /\ cast_category c = inr (category t)
  /\ sender t = JS.toString snd
  /\ receiver t = JS.toString rcv
  /\ description t = JS.toString d
  /\ createdBy t = owner.
Proof.
  unfold new_Transaction. intros H.
  repeat (case_match; simplify_eq/=). repeat split; reflexivity.
Qed.

Lemma cast_type_inr ty t : cast_type ty = inr t -> ty = JS.Str (type_name t).
Proof.
  unfold cast_type, JS.strict_eq_str. intros H.
  destruct ty as [| | | |s]; try discriminate.
  destruct (String.eqb_spec s "income") as [->|_]; [now injection H as <-|].
  destruct (String.eqb_spec s "expense") as [->|_]; [now injection H as <-|].
  discriminate.
Qed.

Lemma cast_type_inl ty :
  ty <> JS.Str "income" -> ty <> JS.Str "expense" ->
  cast_type ty = inl (EnumError (JS.toString ty)).
Proof.
  unfold cast_type, JS.strict_eq_str. intros Hi He.
  destruct ty as [| | | |s]; try reflexivity.
  destruct (String.eqb_spec s "income"); [congruence|].
  destruct (String.eqb_spec s "expense"); [congruence|]. reflexivity.
Qed.

End Submission.

(* ===================================================================== *)
(** * Attribution *)
(* ===================================================================== *)

Lemma counterparty_or_address a sentinel :
  a <> "" -> counterparty_or (JS.Str a) sentinel = a.
Proof.
  intros Ha. unfold counterparty_or. cbn.
  destruct (String.eqb_spec a ""); [contradiction|reflexivity].
Qed.

Lemma counterparty_or_absent sentinel :
  counterparty_or JS.Undefined sentinel = sentinel
  /\ counterparty_or JS.Null sentinel = sentinel
  /\ counterparty_or (JS.Str "") sentinel = sentinel.
Proof. repeat split. Qed.

(** C2.  Every transaction created by a submission is attributed to the
    authenticated principal: with wallet W, an income has receiver W and
    as sender the supplied counterparty address, or ["external_sender"]
    when none is supplied; an expense has sender W and as receiver the
    supplied counterparty address, or ["external_receiver"]. *)
Theorem attribution_correct pool e auth d a ty c rcv w t w' :
  handle pool e (PostTransaction auth d a ty c rcv) w
  = (mkResponse 201 (TransactionAdded t), w') ->
  attributed w auth ty rcv t.
Proof.
  intros (tk & user & -> & Hready & Hdoc & _)%submission_created.
  unfold document in Hdoc.
  apply new_Transaction_fields in Hdoc
    as (_ & _ & Hty%cast_type_inr & _ & Hs & Hr & _).
  exists tk, user. split; [reflexivity|]. split; [apply Hready|].
  split; [exact Hty|].
  rewrite Hs, Hr, Hty. unfold sender_of, receiver_of, counterparty_or, JS.or.
  destruct (type t); cbn; split; try reflexivity; now destruct (JS.truthy rcv).
Qed.

Lemma attribution_correct_witness :
  attributed Scenario.with_alice (Some Scenario.alice_token)
             (JS.Str "income") JS.Undefined
             (mkTransaction 1 "Paycheck" (JS.Fin 1000) income salary
                "external_sender" Scenario.W1 1700000000000 "0x5f3a9c"
                "completed" 1%N).
Proof.
  apply (attribution_correct [Scenario.W1; Scenario.W2] (Scenario.healthy 7)
           (Some Scenario.alice_token) (JS.Str "Paycheck") (JS.Num 1000)
           (JS.Str "income") (JS.Str "salary") JS.Undefined
           Scenario.with_alice _
           (set_transactions
              [mkTransaction 1 "Paycheck" (JS.Fin 1000) income salary
                 "external_sender" Scenario.W1 1700000000000 "0x5f3a9c"
                 "completed" 1%N]
              Scenario.with_alice)).
  vm_compute. reflexivity.
Defined.

(* ===================================================================== *)
(** * Directions outside the enumeration *)
(* ===================================================================== *)

Lemma new_Transaction_type_error e id d n ty c snd rcv hash owner err :
  cast_type ty = inl err ->
  exists errs,
    new_Transaction e id d n ty c snd rcv hash owner = inl errs
    /\ ("type", err) ∈ errs.
Proof.
  intros Hty. unfold new_Transaction. rewrite Hty.
  destruct (cast_amount n), (cast_category c); eexists; (split; [reflexivity|]);
    cbn; repeat first [now left | right].
Qed.

(** C8, as the server has it.  A submission whose direction is neither
    ["income"] nor ["expense"] creates no record and is answered with an
    error.  The error is the required-field error (400) when the
    direction is falsy; it is the schema's validation failure on [type]
    (500) when the submission is otherwise ready for the store.  The
    handler has no direction check of its own. *)
Theorem unrecognised_direction_rejected pool e auth d a ty c rcv w :
  ty <> JS.Str "income" -> ty <> JS.Str "expense" ->
  direction_rejected pool e auth d a ty c rcv w.
Proof.
  intros Hi He. unfold direction_rejected.
  destruct (handle pool e (PostTransaction auth d a ty c rcv) w) as [r w'] eqn:H.
  assert (w' = w /\ exists code msg, r = failure code msg) as [-> Hfail].
  { pose proof H as H0. cbn [handle] in H0.
    apply authenticateToken_rejects in H0
      as [[-> (code & msg & -> & _)]|(tk & -> & _ & H0)]; [eauto|].
    apply addTransaction_effect in H0 as [[-> Hf]|(t & -> & _ & _)]; [auto|].
    apply submission_created in H as (tk' & user & _ & _ & Hdoc & _).
    apply new_Transaction_fields in Hdoc as (_ & _ & Hty%cast_type_inr & _).
    destruct (type t); cbn in Hty; congruence. }
  split; [reflexivity|]. split; [exact Hfail|]. split.
  - intros tk -> Hv Hty. cbn [handle authenticateToken] in H.
    rewrite Hv in H. unfold addTransaction in H. rewrite Hty in H.
    rewrite !orb_true_r in H. cbn in H. now injection H as <-.
  - intros tk user -> Hready.
    rewrite (submission_ready pool e _ _ _ _ c rcv _ _ Hready) in H.
    destruct (new_Transaction_type_error e
                (nextId (greatest (transactions w))) d (JS.parseFloat a) ty
                (JS.or c (JS.Str "other")) (sender_of ty rcv user)
                (receiver_of ty rcv user) ("0x" ++ random e) (tokenUserId tk)
                _ (cast_type_inl ty Hi He)) as (errs & Hdoc & Hin).
    unfold document in H. rewrite Hdoc in H. cbn in H. injection H as <-.
    exists errs, (JS.toString ty). auto.
Qed.

Lemma unrecognised_direction_rejected_witness :
  direction_rejected [Scenario.W1; Scenario.W2] (Scenario.healthy 7)
    (Some Scenario.alice_token) (JS.Str "Move") (JS.Num 25)
    (JS.Str "transfer") (JS.Str "other") JS.Undefined Scenario.with_alice.
Proof.
  apply (unrecognised_direction_rejected [Scenario.W1; Scenario.W2]
           (Scenario.healthy 7) (Some Scenario.alice_token) (JS.Str "Move")
           (JS.Num 25) (JS.Str "transfer") (JS.Str "other") JS.Undefined
           Scenario.with_alice);
    discriminate.
Defined.

(** C8, as stated, fails.  The attribution treats the direction
    ["transfer"] as an expense instead of failing.  A submission by alice
    whose direction is the empty string is answered with the
    required-field error, which is not the invalid-direction response; so
    is a submission with the direction ["transfer"] and an empty
    description. *)
Lemma direction_is_not_checked_by_the_handler :
  sender_of (JS.Str "transfer") JS.Undefined Scenario.alice_record
  = JS.Str Scenario.W1
  /\ receiver_of (JS.Str "transfer") JS.Undefined Scenario.alice_record
     = JS.Str "external_receiver"
  /\ handle [Scenario.W1; Scenario.W2] (Scenario.healthy 7)
            (Scenario.submit "Move" (JS.Num 25) "" "other") Scenario.with_alice
     = (required_fields_error, Scenario.with_alice)
  /\ handle [Scenario.W1; Scenario.W2] (Scenario.healthy 7)
            (Scenario.submit "" (JS.Num 25) "transfer" "other") Scenario.with_alice
     = (required_fields_error, Scenario.with_alice)
  /\ ~ InvalidDirection required_fields_error.
Proof.
  split; [reflexivity|]. split; [reflexivity|].
  split; [vm_compute; reflexivity|]. split; [vm_compute; reflexivity|].
  intros (errs & given & [=] & _).
Qed.

(** The response to an unrecognised direction in a submission that is
    otherwise in order. *)
Example transfer_is_validation_failure :
  handle [Scenario.W1; Scenario.W2] (Scenario.healthy 7)
         (Scenario.submit "Move" (JS.Num 25) "transfer" "other") Scenario.with_alice
  = (failure 500 (ValidationFailed "Transaction" [("type", EnumError "transfer")]),
     Scenario.with_alice).
Proof. vm_compute. reflexivity. Qed.

(* ===================================================================== *)
(** * The amount zero *)
(* ===================================================================== *)

Section ZeroAmount.

(** C10, as the server has it.  An authenticated submission whose amount
    is the number 0, or any other falsy value, or whose description is
    the empty string, or any other falsy value, is answered with the
    required-field error and writes nothing.  The amount of a transaction
    that is created is what [parseFloat] reads from an amount that is
    truthy. *)
Theorem zero_amount_rejected pool e tk d a ty c rcv w :
  jwt_verify e tk = true ->
  zero_amount_rule pool e tk d a ty c rcv w.
Proof.
  intros Hv. split.
  - intros H.
    assert (JS.truthy a = false \/ JS.truthy d = false) as Hfalsy.
    { destruct H as [->|[->|[H|H]]]; auto. }
    cbn [handle authenticateToken]. rewrite Hv. unfold addTransaction.
    destruct Hfalsy as [-> | ->]; cbn [negb orb];
      rewrite ?orb_true_r; reflexivity.
  - intros t w' (tk' & user & [= <-] & Hready & Hdoc & _)%submission_created.
    unfold document in Hdoc.
    apply new_Transaction_fields in Hdoc as (_ & Hamt & _).
    destruct Hready as (_ & _ & Htruthy & _).
    split; [exact Htruthy|].
    unfold cast_amount in Hamt.
    destruct (JS.parseFloat a); congruence.
Qed.

Lemma zero_amount_rejected_witness :
  zero_amount_rule [Scenario.W1; Scenario.W2] (Scenario.healthy 7)
    Scenario.alice_token (JS.Str "Gift") (JS.Num 0) (JS.Str "income")
    (JS.Str "other") JS.Undefined Scenario.with_alice.
Proof.
  apply (zero_amount_rejected [Scenario.W1; Scenario.W2] (Scenario.healthy 7)
           Scenario.alice_token (JS.Str "Gift") (JS.Num 0) (JS.Str "income")
           (JS.Str "other") JS.Undefined Scenario.with_alice).
  vm_compute. reflexivity.
Defined.

(** C10, as stated, fails in its last part: alice submits the amount
    ["0"], a string; the check lets it pass, [parseFloat] reads it as
    zero, and a transaction with the amount zero is stored.  The same
    happens with a string that reads as a number too small for a
    double. *)
Lemma zero_amount_created_from_string :
  let gift := mkTransaction 1 "Gift" (JS.Fin 0) income other
                "external_sender" Scenario.W1 1700000000000 "0x5f3a9c"
                "completed" 1%N in
  JS.truthy (JS.Str "0") = true
  /\ JS.parseFloat (JS.Str "0") = JS.Fin 0
  /\ handle [Scenario.W1; Scenario.W2] (Scenario.healthy 7)
            (Scenario.submit "Gift" (JS.Str "0") "income" "other")
            Scenario.with_alice
     = (mkResponse 201 (TransactionAdded gift),
        set_transactions [gift] Scenario.with_alice)
  /\ amount gift = JS.Fin 0
  /\ handle [Scenario.W1; Scenario.W2] (Scenario.healthy 7)
            (Scenario.submit "Gift" (JS.Str "1e-400") "income" "other")
            Scenario.with_alice
     = (mkResponse 201 (TransactionAdded gift),
        set_transactions [gift] Scenario.with_alice).
Proof. vm_compute. repeat split. Qed.

End ZeroAmount.

(* ===================================================================== *)
(** * Failed requests and their side effects *)
(* ===================================================================== *)

(** C7, as the server has it.  A request that fails (status 400 or
    above) leaves the stored transactions as they were.  If it is not a
    registration it leaves the assigned set and the users as they were
    too, and so does a registration that fails with a status other than
    500.  A registration that fails with status 500 either changed
    nothing, or drew the first free address of the pool, which stays in
    the assigned set; the users are then unchanged, unless the failure
    is one of the signing of the token (no secret, or no lifetime that
    is a time span), after the user was written. *)
Theorem failed_request_effect pool e req w r w' :
  handle pool e req w = (r, w') ->
  failed r ->
  failure_effect pool req w r w'.
Proof.
  intros H%handle_effect Hfail. unfold failed in Hfail.
  destruct H as [req r Hr|u m p msg a Hfree|u m p a usr r Hfree Hw Hr
                |auth d a ty c rcv t Hid Hfresh];
    unfold failure_effect; cbn in *.
  - split; [reflexivity|]. destruct req; auto.
  - split; [reflexivity|]. split; [congruence|]. right. exists a. auto.
  - split; [reflexivity|].
    destruct Hr as [(msg & Hmsg & ->)|[tok ->]]; cbn in *; [|lia].
    split; [congruence|]. right. exists a. eauto 10.
  - lia.
Qed.

Lemma failed_request_effect_witness :
  failure_effect [Scenario.W1; Scenario.W2] Scenario.alice empty_world
    (failure 500 (Message "connection closed"))
    (set_assignedWallets {[Scenario.W1]} empty_world).
Proof.
  apply (failed_request_effect [Scenario.W1; Scenario.W2] (write_refused 1)
           Scenario.alice empty_world
           (failure 500 (Message "connection closed"))
           (set_assignedWallets {[Scenario.W1]} empty_world)).
  - vm_compute. reflexivity.
  - unfold failed. cbn. lia.
Defined.

(** C7, as stated, fails: alice registers with a fresh process while the
    store refuses the write.  The request is answered 500, no user is
    written, and yet [W1] has joined the assigned set. *)
Lemma failed_registration_keeps_wallet :
  let '(r, w') := handle [Scenario.W1; Scenario.W2] (write_refused 1)
                         Scenario.alice empty_world in
  r = failure 500 (Message "connection closed")
  /\ users w' = users empty_world
  /\ transactions w' = transactions empty_world
  /\ (Scenario.W1 ∉ assignedWallets empty_world)
  /\ (Scenario.W1 ∈ assignedWallets w').
Proof.
  assert (handle [Scenario.W1; Scenario.W2] (write_refused 1)
                 Scenario.alice empty_world
          = (failure 500 (Message "connection closed"),
             set_assignedWallets {[Scenario.W1]} empty_world)) as ->
    by (vm_compute; reflexivity).
  cbn. split; [reflexivity|]. split; [reflexivity|]. split; [reflexivity|].
  split; [apply not_elem_of_empty | now apply elem_of_singleton].
Qed.

(** The same happens without any fault of the store when the password is
    not a string: [bcrypt.hash] rejects after the wallet was drawn. *)
Example registration_with_number_as_password :
  handle [Scenario.W1; Scenario.W2] (Scenario.healthy 1)
         (PostRegister (JS.Str "alice") (JS.Str "a@x.com") (JS.Num 12345))
         empty_world
  = (failure 500 (Message "Illegal arguments: number, number"),
     set_assignedWallets {[Scenario.W1]} empty_world).
Proof. vm_compute. reflexivity. Qed.

(** Without a lifetime for the tokens the signing throws, after the user
    was written: the registration is answered 500 and yet alice is
    stored, with [W1].  The same registration again is answered 400. *)
Example registration_without_token_lifetime :
  let e := mkEnv 1 (fun _ => None) (Some "secret") NoLifetime 1%N
                 1700000000000 "5f3a9c" in
  serve [Scenario.W1; Scenario.W2] [(e, Scenario.alice); (e, Scenario.alice)]
        empty_world
  = ([failure 500 (Message lifetime_required);
      failure 400 (Message "User with this email or username already exists")],
     Scenario.with_alice).
Proof. vm_compute. reflexivity. Qed.

(** A login is refused in the same way when the lifetime is not a time
    span: alice's credentials are right, the answer is 500 and nothing
    changes. *)
Example login_without_token_lifetime :
  let e := mkEnv 1 (fun _ => None) (Some "secret") NoTimespan 1%N
                 1700000000000 "5f3a9c" in
  handle [Scenario.W1; Scenario.W2] e
         (PostLogin (JS.Str "a@x.com") (JS.Str "secret1")) Scenario.with_alice
  = (failure 500 (Message lifetime_unreadable), Scenario.with_alice).
Proof. vm_compute. reflexivity. Qed.

(** The wallet is lost to later registrations: with the pool [W1; W2],
    after the failed attempt, alice and bob register and the pool is
    exhausted for carol although only two users exist. *)
Example leaked_wallet_is_not_reassigned :
  let '(rs, w') :=
    serve [Scenario.W1; Scenario.W2]
          [(write_refused 1, Scenario.alice);
           (Scenario.healthy 1, Scenario.alice);
           (Scenario.healthy 2, Scenario.bob)]
          empty_world in
  map statusCode rs = [500; 201; 500]%nat
  /\ map walletAddress (users w') = [Scenario.W2].
Proof. vm_compute. split; reflexivity. Qed.

(* ===================================================================== *)
(** * Failed logins *)
(* ===================================================================== *)

Section Login.




End Login.



(** C3, as stated, fails for the two earlier servers.  On an empty store
    server-with-auth.js numbers the first transaction with the clock,
    not with 1.  A process of server.js that starts on a store holding
    transaction 1 numbers the next transaction 1 again, where one plus
    the highest identifier is 2.  It also fails for the server with the
    wallet pool on a store whose highest identifier is [2 ^ 53]: one
    more is no double, the sum is [2 ^ 53] again, and the unique index
    refuses the transaction. *)
Lemma earlier_servers_do_not_read_the_store :
  let stored := [mkTransaction 1 "Paycheck" (JS.Fin 1000) income salary
                   "external_sender" Scenario.W1 1700000000000 "0x5f3a9c"
                   "completed" 1%N] in
  let last := [mkTransaction 9007199254740992 "Paycheck" (JS.Fin 1000)
                 income salary "external_sender" Scenario.W1 1700000000000
                 "0x5f3a9c" "completed" 1%N] in
  nextId (greatest []) = 1%Z
  /\ EarlierServers.transactionId_from_clock (Scenario.healthy 7) []
     = 1700000000000%Z
  /\ nextId (greatest stored) = 2%Z
  /\ (EarlierServers.transactionId_from_counter
        EarlierServers.mockNextId_at_start stored).1 = 1%Z
  /\ nextId (greatest last) = 9007199254740992%Z
  /\ handle [Scenario.W1; Scenario.W2] (Scenario.healthy 7) Scenario.paycheck
            (set_transactions last Scenario.with_alice)
     = (failure 500 (DuplicateKey "transactions" "transactionId"),
        set_transactions last Scenario.with_alice).
Proof. cbv zeta. repeat split; vm_compute; reflexivity. Qed.

(** Alice's paycheck and rent, then her dashboard: the transactions are
    numbered 1 and 2 and attributed to her wallet, and the summary shows
    an income of 1000, expenses of 400, a balance of 600 and one bucket
    for each of the two categories. *)
Example paycheck_and_rent :
  (serve [Scenario.W1; Scenario.W2]
         [(Scenario.healthy 7, Scenario.paycheck);
          (Scenario.healthy 8, Scenario.rent_payment);
          (Scenario.healthy 9, GetSummary (Some Scenario.alice_token))]
         Scenario.with_alice).1
  = let paycheck := mkTransaction 1 "Paycheck" (JS.Fin 1000) income salary
                      "external_sender" Scenario.W1 1700000000000 "0x5f3a9c"
                      "completed" 1%N in
    let rent := mkTransaction 2 "Rent" (JS.Fin 400) expense rent
                  Scenario.W1 "external_receiver" 1700000000000 "0x5f3a9c"
                  "completed" 1%N in
    [ mkResponse 201 (TransactionAdded paycheck);
      mkResponse 201 (TransactionAdded rent);
      mkResponse 200
        (Dashboard
           (mkSummary (JS.Fin 1000) (JS.Fin 400) (JS.Fin 600) 2
              {[ "salary" := mkBucket (JS.Fin 1000) (JS.Fin 0) (JS.Fin 1000);
                 "rent" := mkBucket (JS.Fin 0) (JS.Fin 400) (JS.Fin 400) ]})
           [paycheck; rent]) ].
Proof. vm_compute. reflexivity. Qed.

(** The pool of the server holds ten distinct addresses. *)
Example AVAILABLE_WALLETS_distinct :
  length AVAILABLE_WALLETS = 10 /\ NoDup AVAILABLE_WALLETS.
Proof.
  split; [reflexivity|].
  apply NoDup_ListNoDup, (NoDup_count_occ' string_dec).
  intros x Hx. repeat (destruct Hx as [<-|Hx]; [vm_compute; reflexivity|]).
  destruct Hx.
Qed.

(* ===================================================================== *)
(** * Runs of requests: what is stored *)
(* ===================================================================== *)

Section Runs.

Variable pool : list string.

Lemma registered_cons r rs : registered (r :: rs) = registered [r] ++ registered rs.
Proof. unfold registered. cbn. destruct (registration_of r); reflexivity. Qed.

(** One request: the transactions grow by the commit reported, the users
    by at most one, who is the one reported if the registration is
    answered 201. *)
Lemma handle_appends e req w r w' :
  handle pool e req w = (r, w') ->
  transactions w' = transactions w ++ committed [r]
  /\ exists new,
      users w' = users w ++ new
      /\ registered [r] `sublist_of` map user_view new.
Proof.
  intros H%handle_effect.
  destruct H as [req r Hr|u m p msg a Hfree|u m p a usr r Hfree Hw Hr|auth d a ty c rcv t Hid].
  - assert (committed [r] = [] /\ registered [r] = []) as [-> ->].
    { unfold committed, registered, reports_write in *. cbn.
      unfold commit_of, registration_of.
      destruct (body r); try discriminate; split; reflexivity. }
    split; [now rewrite app_nil_r|].
    exists []. split; [now rewrite app_nil_r|constructor].
  - cbn. split; [now rewrite app_nil_r|].
    exists []. split; [now rewrite app_nil_r|constructor].
  - split.
    + destruct Hr as [(msg & _ & ->)|[tok ->]]; cbn; now rewrite app_nil_r.
    + exists [usr]. split; [reflexivity|].
      destruct Hr as [(msg & _ & ->)|[tok ->]]; cbn.
      * apply sublist_nil_l.
      * reflexivity.
  - cbn. split; [reflexivity|].
    exists []. split; [now rewrite app_nil_r|constructor].
Qed.

Lemma serve_appends reqs : forall w rs w',
  serve pool reqs w = (rs, w') ->
  transactions w' = transactions w ++ committed rs
  /\ (exists new,
        users w' = users w ++ new
        /\ registered rs `sublist_of` map user_view new)
  /\ assignedWallets w ⊆ assignedWallets w'.
Proof.
  induction reqs as [|[e req] reqs IH]; intros w rs w' H; cbn [serve] in H.
  - injection H as <- <-. cbn. rewrite app_nil_r. split; [reflexivity|].
    split; [|reflexivity].
    exists []. split; [now rewrite app_nil_r|constructor].
  - destruct (handle pool e req w) as [r w1] eqn:H1.
    destruct (serve pool reqs w1) as [rs' w2] eqn:H2.
    injection H as <- <-.
    pose proof (handle_assigned_grows pool e req w) as Hsub.
    rewrite H1 in Hsub. cbn in Hsub.
    apply handle_appends in H1 as [Ht1 (new1 & Hu1 & Hr1)].
    apply IH in H2 as (Ht2 & (new2 & Hu2 & Hr2) & Hsub2).
    split; [|split].
    + rewrite Ht2, Ht1, (committed_cons r rs'). now rewrite app_assoc.
    + exists (new1 ++ new2). split.
      * rewrite Hu2, Hu1. now rewrite app_assoc.
      * rewrite (registered_cons r rs'), map_app. now apply sublist_app.
    + etrans; eassumption.
Qed.

(** X1.  The store is append-only.  After any run of requests the
    collection of transactions is the one before the run followed by
    exactly the transactions the responses report as committed, in the
    order of the commits; the collection of users is the one before
    followed by new users, among them, in order, those reported by the
    successful registrations; and every address that was assigned is
    still assigned. *)
Theorem store_is_append_only (reqs : list (Env * Request)) (w : World) :
  let '(rs, w') := serve pool reqs w in
  transactions w' = transactions w ++ committed rs
  /\ (exists new,
        users w' = users w ++ new
        /\ registered rs `sublist_of` map user_view new)
  /\ assignedWallets w ⊆ assignedWallets w'.
Proof.
  destruct (serve pool reqs w) as [rs w'] eqn:H.
  now apply (serve_appends reqs).
Qed.

(* ===================================================================== *)
(** * The sequencer on any store *)
(* ===================================================================== *)

Local Open Scope Z_scope.

(** On a collection whose identifiers are of magnitude at most [2 ^ 53]
    the next identifier is so too, and no identifier of the collection
    exceeds it. *)
Lemma nextId_above ts :
  exact_ids ts ->
  Z.abs (nextId (greatest ts)) <= 2 ^ 53
  /\ forall s, s ∈ ts -> transactionId s <= nextId (greatest ts).
Proof.
  intros Hex. pose proof (greatest_spec ts) as H.
  destruct (greatest ts) as [m|]; [|subst ts; split; [cbn; lia|intros s Hs; inversion Hs]].
  destruct H as [Hin Hmax]. cbn [nextId]. specialize (Hex m Hin).
  destruct (Z.eq_dec (transactionId m) (2 ^ 53)%Z) as [Heq|Hne].
  - rewrite Heq, JSFacts.add_integers_limit. split; [lia|].
    intros s Hs. specialize (Hmax s Hs). lia.
  - rewrite JSFacts.add_integers_exact by lia. split; [lia|].
    intros s Hs. specialize (Hmax s Hs). lia.
Qed.

Lemma handle_commit_above e req w r w' :
  handle pool e req w = (r, w') ->
  exact_ids (transactions w) ->
  forall t, t ∈ committed [r] ->
  Z.abs (transactionId t) <= 2 ^ 53
  /\ forall s, s ∈ transactions w -> transactionId s < transactionId t.
Proof.
  intros H%handle_effect Hex t Ht.
  destruct H as [req r Hr|u m p msg a Hfree|u m p a usr r Hfree Hw Hr
                |auth d a ty c rcv t' Hid Hfresh].
  - unfold committed, reports_write in *. cbn in Ht. unfold commit_of in Ht.
    destruct (body r); try discriminate; inversion Ht.
  - inversion Ht.
  - destruct Hr as [(msg & _ & ->)|[tok ->]]; inversion Ht.
  - cbn in Ht. apply list_elem_of_singleton in Ht as ->.
    destruct (nextId_above _ Hex) as [Hbound Habove]. rewrite Hid.
    split; [exact Hbound|]. intros s Hs.
    specialize (Habove s Hs). specialize (Hfresh s Hs). lia.
Qed.

Lemma NoDup_ids_snoc ts t :
  NoDup (map transactionId ts) ->
  (forall s, s ∈ ts -> transactionId s < transactionId t) ->
  NoDup (map transactionId (ts ++ [t])).
Proof.
  intros Hnd Hlt. rewrite map_app. cbn. apply NoDup_app.
  split; [exact Hnd|]. split; [|apply NoDup_singleton].
  intros x Hx ->%list_elem_of_singleton.
  apply list_elem_of_In, in_map_iff in Hx as (s & Heq & Hs%list_elem_of_In).
  specialize (Hlt s Hs). lia.
Qed.

Lemma committed_single r :
  committed [r] = [] \/ exists t, committed [r] = [t].
Proof.
  unfold committed. cbn. destruct (commit_of r); eauto.
Qed.

Lemma serve_ids reqs : forall w rs w',
  serve pool reqs w = (rs, w') ->
  exact_ids (transactions w) ->
  (NoDup (map transactionId (transactions w)) ->
   NoDup (map transactionId (transactions w')))
  /\ (forall s t, s ∈ transactions w -> t ∈ committed rs ->
                  transactionId s < transactionId t)
  /\ StronglySorted Z.lt (map transactionId (committed rs)).
Proof.
  induction reqs as [|[e req] reqs IH]; intros w rs w' H Hex; cbn [serve] in H.
  - injection H as <- <-. split; [auto|]. split; [|constructor].
    intros s t _ Ht. inversion Ht.
  - destruct (handle pool e req w) as [r w1] eqn:H1.
    destruct (serve pool reqs w1) as [rs' w2] eqn:H2.
    injection H as <- <-.
    pose proof (handle_commit_above _ _ _ _ _ H1 Hex) as Habove.
    pose proof (handle_appends _ _ _ _ _ H1) as [Ht1 _].
    assert (exact_ids (transactions w1)) as Hex1.
    { intros t. rewrite Ht1. intros [Ht|Ht]%elem_of_app; [now apply Hex|].
      now apply Habove. }
    destruct (IH _ _ _ H2 Hex1) as (IHnd & IHlt & IHsorted).
    rewrite (committed_cons r rs').
    assert (forall s, s ∈ transactions w -> s ∈ transactions w1) as Hin.
    { intros s Hs. rewrite Ht1. apply elem_of_app. now left. }
    split; [|split].
    + intros Hnd. apply IHnd. rewrite Ht1.
      destruct (committed_single r) as [->|[t Hr]]; [now rewrite app_nil_r|].
      rewrite Hr in *. apply NoDup_ids_snoc; [exact Hnd|].
      apply Habove. now left.
    + intros s t Hs [Ht|Ht]%elem_of_app; [now apply (Habove t)|].
      apply IHlt; auto.
    + destruct (committed_single r) as [->|[t Hr]]; [exact IHsorted|].
      rewrite Hr in *. cbn. constructor; [exact IHsorted|].
      apply Forall_forall. intros z Hz.
      apply list_elem_of_In, in_map_iff in Hz as (t' & <- & Ht'%list_elem_of_In).
      apply IHlt; [|exact Ht'].
      rewrite Ht1. apply elem_of_app. right. now left.
Qed.

(** X2.  The sequencer on a store that is not empty.  Whatever the store
    holds when a run of requests starts, its identifiers being integers
    of magnitude at most [2 ^ 53]: every transaction committed during
    the run gets an identifier greater than all those the store held,
    the identifiers of the commits increase strictly in the order of the
    commits, and if the identifiers in the store were pairwise distinct
    they still are after the run.  (At [2 ^ 53] the identifier computed
    is one the store holds, and the unique index refuses the
    transaction.) *)
Theorem ids_stay_distinct (reqs : list (Env * Request)) (w : World) :
  exact_ids (transactions w) ->
  NoDup (map transactionId (transactions w)) ->
  let '(rs, w') := serve pool reqs w in
  NoDup (map transactionId (transactions w'))
  /\ (forall s t, s ∈ transactions w -> t ∈ committed rs ->
                  transactionId s < transactionId t)
  /\ StronglySorted Z.lt (map transactionId (committed rs)).
Proof.
  intros Hex Hnd. destruct (serve pool reqs w) as [rs w'] eqn:H.
  apply serve_ids in H as (H1 & H2 & H3); auto.
Qed.

End Runs.

Lemma ids_stay_distinct_witness :
  let stored := [mkTransaction 7 "Paycheck" (JS.Fin 1000) income salary
                   "external_sender" Scenario.W1 1700000000000 "0x5f3a9c"
                   "completed" 1%N;
                 mkTransaction 3 "Rent" (JS.Fin 400) expense rent
                   Scenario.W1 "external_receiver" 1700000000000 "0x5f3a9c"
                   "completed" 1%N] in
  let w := set_transactions stored Scenario.with_alice in
  let '(rs, w') := serve [Scenario.W1; Scenario.W2]
                         [(Scenario.healthy 7, Scenario.paycheck);
                          (Scenario.healthy 8, Scenario.rent_payment)] w in
  NoDup (map transactionId (transactions w'))
  /\ (forall s t, s ∈ transactions w -> t ∈ committed rs ->
                  (transactionId s < transactionId t)%Z)
  /\ StronglySorted Z.lt (map transactionId (committed rs)).
Proof.
  intros stored w.
  apply (ids_stay_distinct [Scenario.W1; Scenario.W2]
           [(Scenario.healthy 7, Scenario.paycheck);
            (Scenario.healthy 8, Scenario.rent_payment)] w).
  - intros t Ht. unfold w, stored in Ht. cbn in Ht.
    apply elem_of_cons in Ht as [->|Ht]; [cbn; lia|].
    apply list_elem_of_singleton in Ht as ->. cbn; lia.
  - cbn. apply NoDup_cons. split; [|apply NoDup_singleton].
    intros H%list_elem_of_singleton. discriminate.
Defined.

(* ===================================================================== *)
(** * Registration *)
(* ===================================================================== *)

Section Registration.

Variable pool : list string.

Ltac run :=
  unfold User_findOne_or, User_findOne, User_findById, user_save,
    Transaction_findOne_last, Transaction_find, transaction_save,
    registration_token, login_token, password_matches in *;
  unfold bcrypt_hash, bcrypt_compare, jwt_sign, store_op in *;
  unfold try_catch, bind, ret, throw, get_world, put_world in *.

Lemma existsb_false_not_in {A} (f : A -> string) (x : string) (l : list A) :
  existsb (fun v => String.eqb (f v) x) l = false ->
  forall v, v ∈ l -> f v <> x.
Proof.
  intros H v Hv Heq.
  assert (existsb (fun v => String.eqb (f v) x) l = true) as Ht.
  { apply existsb_exists. exists v. split; [now apply list_elem_of_In|].
    now apply String.eqb_eq. }
  congruence.
Qed.

Lemma existsb_id_false_not_in (x : ObjectId) (l : list User) :
  existsb (fun v => N.eqb (_id v) x) l = false ->
  forall v, v ∈ l -> _id v <> x.
Proof.
  intros H v Hv Heq.
  assert (existsb (fun v => N.eqb (_id v) x) l = true) as Ht.
  { apply existsb_exists. exists v. split; [now apply list_elem_of_In|].
    now apply N.eqb_eq. }
  congruence.
Qed.

(** After the lookup of the registration found nobody, neither the user
    name nor the e-mail address is taken. *)
Lemma lookup_none_not_taken (em un : string) (us : list User) :
  List.find (fun u => String.eqb (email u) em || String.eqb (username u) un) us = None ->
  existsb (fun v => String.eqb (username v) un) us = false
  /\ existsb (fun v => String.eqb (email v) em) us = false.
Proof.
  induction us as [|x us IH]; cbn; [auto|].
  destruct (String.eqb (email x) em), (String.eqb (username x) un); cbn;
    try discriminate.
  exact IH.
Qed.

(** What a registration that is answered 201 has done. *)
Lemma register_created e u m p w tok view w' :
  handle pool e (PostRegister u m p) w
  = (mkResponse 201 (Registered tok view), w') ->
  exists s a key seconds,
    let usr := mkUser (objectId e) (JS.toString u) (JS.toString m)
                      (Bcrypt 12 s) RoleUser a (now e) in
    p = JS.Str s
    /\ reaches_draw e u m p w
    /\ first_free pool (assignedWallets w) = Some a
    /\ JWT_SECRET e = Some key
    /\ JWT_EXPIRES_IN e = Timespan seconds
    /\ view = user_view usr
    /\ tok = mkToken key (objectId e) (JS.toString u) RoleUser (Some a)
                     (clock e + seconds)
    /\ w' = set_users (users w ++ [usr])
              (set_assignedWallets ({[a]} ∪ assignedWallets w) w)
    /\ (forall v, v ∈ users w ->
          _id v <> _id usr /\ username v <> username usr /\ email v <> email usr).
Proof.
  cbn [handle]. unfold register, reaches_draw. intros H. run.
  repeat (case_match; simplify_eq/=);
    rewrite getAvailableWallet_first_free in *;
    repeat (case_match; simplify_eq/=).
  unfold new_User in *. cbn in *.
  repeat match goal with
         | H : _ || _ = false |- _ => apply orb_false_elim in H as [? ?]
         | H : negb _ = false |- _ => apply negb_false_iff in H
         end.
  do 4 eexists. repeat split; eauto.
  - eapply existsb_id_false_not_in; eauto.
  - eapply (existsb_false_not_in username); eauto.
  - eapply (existsb_false_not_in email); eauto.
Qed.

(** X3.  A successful registration stores exactly one user: the submitted
    name and e-mail address (as strings), the hash of the submitted
    password, which is a string, the role [user], and as wallet the first
    free address of the pool, which joins the assigned set.  The view and
    the token of the response describe this user, and no user stored
    before has the same identifier, name or e-mail address. *)
Theorem registration_creates_user e u m p w tok view w' :
  handle pool e (PostRegister u m p) w
  = (mkResponse 201 (Registered tok view), w') ->
  creates_user pool e u m p w tok view w'.
Proof.
  intros (s & a & key & seconds & Hp & _ & Ha & Hk & Hl & Hv & Ht & Hw & Hfresh)%register_created.
  exists s, a, key, seconds. repeat split; auto; apply Hfresh; assumption.
Qed.

(** One request adds at most one user, whose identifier, name and e-mail
    address are not taken. *)
Lemma handle_users e req w r w' :
  handle pool e req w = (r, w') ->
  users w' = users w
  \/ exists usr,
      users w' = users w ++ [usr]
      /\ (forall v, v ∈ users w ->
            _id v <> _id usr /\ username v <> username usr /\ email v <> email usr).
Proof.
  destruct req as [u m p|m p|auth|auth d a ty c rcv|auth|auth];
    try (intros H%handle_effect; inversion H; subst; cbn; auto; fail).
  cbn [handle]. unfold register. intros H. run.
  repeat (case_match; simplify_eq/=); auto;
    rewrite getAvailableWallet_first_free in *;
    repeat (case_match; simplify_eq/=); auto;
    right; eexists; (split; [reflexivity|]);
    match goal with
    | H : List.find _ _ = None |- _ => apply lookup_none_not_taken in H as [? ?]
    end;
    (intros v Hv; repeat split;
     [ eapply existsb_id_false_not_in; eauto
     | eapply (existsb_false_not_in username); eauto
     | eapply (existsb_false_not_in email); eauto ]).
Qed.

Lemma NoDup_map_snoc {A B} (f : A -> B) (l : list A) (x : A) :
  NoDup (map f l) -> (forall v, v ∈ l -> f v <> f x) -> NoDup (map f (l ++ [x])).
Proof.
  intros Hnd Hfresh. rewrite map_app. cbn. apply NoDup_app.
  split; [exact Hnd|]. split; [|apply NoDup_singleton].
  intros y Hy ->%list_elem_of_singleton.
  apply list_elem_of_In, in_map_iff in Hy as (v & Heq & Hv%list_elem_of_In).
  now apply (Hfresh v).
Qed.

Lemma serve_unique reqs : forall w rs w',
  serve pool reqs w = (rs, w') ->
  unique_users (users w) -> unique_users (users w').
Proof.
  induction reqs as [|[e req] reqs IH]; intros w rs w' H Hu; cbn [serve] in H.
  - now injection H as <- <-.
  - destruct (handle pool e req w) as [r w1] eqn:H1.
    destruct (serve pool reqs w1) as [rs' w2] eqn:H2.
    injection H as <- <-. eapply IH; [exact H2|].
    apply handle_users in H1 as [->|(usr & -> & Hfresh)]; [exact Hu|].
    destruct Hu as (Hi & Hn & He).
    repeat split; apply NoDup_map_snoc; auto; intros v Hv; now apply Hfresh.
Qed.

(** X4.  The unique indexes of the users collection are an invariant of
    the server: if identifiers, user names and e-mail addresses are
    pairwise distinct before a run of requests, they are so after it. *)
Theorem users_stay_unique (reqs : list (Env * Request)) (w : World) :
  unique_users (users w) ->
  let '(rs, w') := serve pool reqs w in
  unique_users (users w').
Proof.
  intros Hu. destruct (serve pool reqs w) as [rs w'] eqn:H.
  eapply serve_unique; eauto.
Qed.

(** X5.  A registration with a name or an e-mail address that a stored
    user has is refused with status 400, before a wallet is drawn:
    nothing changes. *)
Theorem duplicate_registration_refused e u m p w taken :
  JS.truthy u = true -> looked_up e m p ->
  taken ∈ users w ->
  email taken = JS.toString m \/ username taken = JS.toString u ->
  handle pool e (PostRegister u m p) w
  = (failure 400 (Message "User with this email or username already exists"), w).
Proof.
  intros Hu (Hm & Hp & Hc & Hf) Hin Htaken.
  cbn [handle]. unfold register, try_catch.
  rewrite Hu, Hm, Hp, Hc. cbn [negb orb].
  unfold bind at 1, User_findOne_or, store_op. rewrite Hf.
  unfold bind at 1, get_world, ret at 1.
  destruct (List.find _ (users w)) as [x|] eqn:Hfind; [reflexivity|].
  exfalso. apply list_elem_of_In in Hin.
  apply (find_none _ _ Hfind) in Hin. cbn in Hin.
  apply orb_false_elim in Hin as [He Hn].
  destruct Htaken as [Heq|Heq]; rewrite Heq, String.eqb_refl in *; discriminate.
Qed.

End Registration.

Lemma users_stay_unique_witness :
  let '(rs, w') := serve [Scenario.W1; Scenario.W2]
                         [(Scenario.healthy 2, Scenario.bob);
                          (Scenario.healthy 3, Scenario.bob)]
                         Scenario.with_alice in
  unique_users (users w').
Proof.
  apply (users_stay_unique [Scenario.W1; Scenario.W2]
           [(Scenario.healthy 2, Scenario.bob);
            (Scenario.healthy 3, Scenario.bob)]
           Scenario.with_alice).
  repeat split; cbn; apply NoDup_singleton.
Defined.

Lemma registration_creates_user_witness :
  let bob_record := mkUser 2%N "bob" "b@x.com" (Bcrypt 12 "secret2") RoleUser
                           Scenario.W2 1700000000000 in
  creates_user [Scenario.W1; Scenario.W2] (Scenario.healthy 2)
    (JS.Str "bob") (JS.Str "b@x.com") (JS.Str "secret2") Scenario.with_alice
    (mkToken "secret" 2%N "bob" RoleUser (Some Scenario.W2) 1700604800)
    (user_view bob_record)
    (mkWorld [Scenario.alice_record; bob_record] []
             ({[Scenario.W2]} ∪ {[Scenario.W1]})).
Proof.
  apply (registration_creates_user [Scenario.W1; Scenario.W2]
           (Scenario.healthy 2) (JS.Str "bob") (JS.Str "b@x.com")
           (JS.Str "secret2") Scenario.with_alice).
  vm_compute. reflexivity.
Defined.

Lemma duplicate_registration_refused_witness :
  handle AVAILABLE_WALLETS (Scenario.healthy 2)
         (PostRegister (JS.Str "alice2") (JS.Str "a@x.com") (JS.Str "other"))
         Scenario.with_alice
  = (failure 400 (Message "User with this email or username already exists"),
     Scenario.with_alice).
Proof.
  apply (duplicate_registration_refused AVAILABLE_WALLETS (Scenario.healthy 2)
           (JS.Str "alice2") (JS.Str "a@x.com") (JS.Str "other")
           Scenario.with_alice Scenario.alice_record).
  - reflexivity.
  - repeat split.
  - now left.
  - now left.
Defined.

(* ===================================================================== *)
(** * From registration to login, profile and submissions *)
(* ===================================================================== *)

Section AfterRegistration.

Variable pool : list string.

Lemma find_app_fresh {A} (P : A -> bool) (l1 l2 : list A) (x : A) :
  (forall v, v ∈ l1 -> P v = false) -> P x = true ->
  List.find P (l1 ++ x :: l2) = Some x.
Proof.
  intros Hfresh Hx. induction l1 as [|y l1 IH]; cbn.
  - now rewrite Hx.
  - rewrite (Hfresh y) by now left. apply IH. intros v Hv. apply Hfresh. now right.
Qed.

(** Where the user written by a registration is found after any further
    requests: by e-mail address and by identifier, the lookup returns
    this user. *)
Lemma registered_user_is_found e u m p w tok view w1 reqs :
  handle pool e (PostRegister u m p) w
  = (mkResponse 201 (Registered tok view), w1) ->
  exists usr s key seconds,
    view = user_view usr
    /\ p = JS.Str s /\ password usr = Bcrypt 12 s
    /\ JS.truthy m = true /\ JS.truthy p = true
    /\ createdAt usr = now e
    /\ JWT_SECRET e = Some key
    /\ tok = mkToken key (_id usr) (username usr) (role usr)
                     (Some (walletAddress usr)) (clock e + seconds)
    /\ List.find (by_email m) (users (serve pool reqs w1).2) = Some usr
    /\ List.find (fun x => N.eqb (_id x) (_id usr)) (users (serve pool reqs w1).2)
       = Some usr.
Proof.
  intros (s & a & key & seconds & Hp & Hreach & Ha & Hk & Hl & Hv & Ht & Hw & Hfresh)%register_created.
  cbn zeta in *.
  set (usr := mkUser (objectId e) (JS.toString u) (JS.toString m) (Bcrypt 12 s)
                     RoleUser a (now e)) in *.
  destruct Hreach as (_ & Hm & Htp & _).
  exists usr, s, key, seconds. repeat split; auto.
  - destruct (serve pool reqs w1) as [rs w2] eqn:Hrun.
    apply serve_appends in Hrun as (_ & (new & Hu & _) & _).
    cbn [snd]. rewrite Hu, Hw. cbn [users set_users]. rewrite <- app_assoc.
    apply find_app_fresh.
    + intros v Hv'. unfold by_email. apply String.eqb_neq. now apply Hfresh.
    + unfold by_email. cbn. apply String.eqb_refl.
  - destruct (serve pool reqs w1) as [rs w2] eqn:Hrun.
    apply serve_appends in Hrun as (_ & (new & Hu & _) & _).
    cbn [snd]. rewrite Hu, Hw. cbn [users set_users]. rewrite <- app_assoc.
    apply find_app_fresh.
    + intros v Hv'. apply N.eqb_neq. now apply Hfresh.
    + apply N.eqb_refl.
Qed.

(** X6.  Registration and login compose.  After a registration that was
    answered 201, and after any further requests, a login with the same
    e-mail address and password succeeds (the database being connected
    and answering, a signing secret and a lifetime for the tokens being
    configured) and shows the user that the registration showed. *)
Theorem registered_user_can_log_in e u m p w tok view w1 reqs e' :
  handle pool e (PostRegister u m p) w
  = (mkResponse 201 (Registered tok view), w1) ->
  connected e' = true -> storeFault e' UserFindOne = None ->
  is_Some (JWT_SECRET e') ->
  (exists seconds, JWT_EXPIRES_IN e' = Timespan seconds) ->
  logs_in pool e' m p view (serve pool reqs w1).2.
Proof.
  intros H Hc Hf [key Hkey] [seconds Hlife].
  destruct (registered_user_is_found _ _ _ _ _ _ _ _ reqs H)
    as (usr & s & key0 & seconds0 & -> & -> & Hpw & Hm & Hp & _ & _ & _ & Hfind & _).
  exists key, seconds. split; [exact Hkey|]. split; [exact Hlife|].
  cbn [handle]. unfold login, try_catch.
  rewrite Hm, Hp, Hc. cbn [negb orb].
  unfold bind at 1, User_findOne, store_op. rewrite Hf.
  unfold bind at 1, get_world, ret at 1.
  fold (by_email m). rewrite Hfind.
  unfold bind at 1, password_matches, bcrypt_compare. rewrite Hpw.
  unfold ret at 1. rewrite String.eqb_refl. cbn [negb].
  unfold bind, login_token, jwt_sign. rewrite Hkey, Hlife. reflexivity.
Qed.

(** X7.  The token issued by a registration opens the profile.  After any
    further requests, [GET /api/auth/me] with this token, in an
    environment in which the token verifies and whose database is
    connected and answers, returns the user that the registration
    showed, with the time of the registration. *)
Theorem issued_token_opens_profile e u m p w tok view w1 reqs e' :
  handle pool e (PostRegister u m p) w
  = (mkResponse 201 (Registered tok view), w1) ->
  jwt_verify e' tok = true ->
  connected e' = true -> storeFault e' UserFindById = None ->
  handle pool e' (GetMe (Some tok)) (serve pool reqs w1).2
  = (mkResponse 200 (Profile view (now e)), (serve pool reqs w1).2).
Proof.
  intros H Hv Hc Hf.
  destruct (registered_user_is_found _ _ _ _ _ _ _ _ reqs H)
    as (usr & s & key & seconds & -> & _ & _ & _ & _ & Hat & Hkey & -> & _ & Hfind).
  cbn [handle authenticateToken]. rewrite Hv.
  unfold me, try_catch. rewrite Hc. cbn [negb].
  unfold User_findById, store_op. rewrite Hf.
  unfold bind, get_world, ret. cbn [tokenUserId]. rewrite Hfind, Hat. reflexivity.
Qed.

(** X8.  The wallet handed out at registration is the wallet of the
    user's transactions.  After any further requests, every transaction
    created by a submission that carries the token of the registration
    belongs to the registered user, and the wallet shown by the
    registration is its receiver if it is an income and its sender if it
    is an expense. *)
Theorem registered_wallet_is_attributed e u m p w tok view w1 reqs
    e' d a ty c rcv t w3 :
  handle pool e (PostRegister u m p) w
  = (mkResponse 201 (Registered tok view), w1) ->
  handle pool e' (PostTransaction (Some tok) d a ty c rcv) (serve pool reqs w1).2
  = (mkResponse 201 (TransactionAdded t), w3) ->
  createdBy t = viewId view
  /\ match type t with
     | income => receiver t = viewWallet view
     | expense => sender t = viewWallet view
     end.
Proof.
  intros H Hsub.
  destruct (registered_user_is_found _ _ _ _ _ _ _ _ reqs H)
    as (usr & s & key & seconds & -> & _ & _ & _ & _ & _ & _ & -> & _ & Hfind).
  apply submission_created in Hsub
    as (tk & user & [= <-] & Hready & Hdoc & _).
  destruct Hready as (_ & _ & _ & _ & _ & _ & _ & Huser).
  cbn [tokenUserId] in Huser. rewrite Hfind in Huser. injection Huser as <-.
  unfold document in Hdoc.
  apply new_Transaction_fields in Hdoc
    as (_ & _ & Hty%cast_type_inr & _ & Hs & Hr & _ & Hown).
  split; [exact Hown|].
  rewrite Hs, Hr, Hty. unfold sender_of, receiver_of.
  destruct (type t); reflexivity.
Qed.

(** X9.  No login without the password.  A login is answered 200 only
    if a stored user has the e-mail address and the password submitted
    is the string whose hash this user holds; the view of the response
    is this user's, the token names this user, and nothing changes. *)
Theorem login_requires_the_password e m p w tok view w' :
  handle pool e (PostLogin m p) w = (mkResponse 200 (LoggedIn tok view), w') ->
  justified_login m p w tok view /\ w' = w.
Proof.
  cbn [handle]. unfold login, justified_login. intros H.
  unfold User_findOne, password_matches, login_token, bcrypt_compare,
    jwt_sign, store_op in H.
  unfold try_catch, bind, ret, throw, get_world in H.
  repeat (case_match; simplify_eq/=).
  split; [|reflexivity].
  match goal with
  | H : negb (String.eqb _ _) = false |- _ =>
      apply negb_false_iff, String.eqb_eq in H; subst
  end.
  do 3 eexists. repeat split; eauto.
Qed.

End AfterRegistration.

Lemma login_requires_the_password_witness :
  justified_login (JS.Str "a@x.com") (JS.Str "secret1") Scenario.with_alice
    (mkToken "secret" 1%N "alice" RoleUser None 1700604800)
    (user_view Scenario.alice_record).
Proof.
  apply (proj1 (login_requires_the_password AVAILABLE_WALLETS
                  (Scenario.healthy 9) (JS.Str "a@x.com") (JS.Str "secret1")
                  Scenario.with_alice
                  (mkToken "secret" 1%N "alice" RoleUser None 1700604800)
                  (user_view Scenario.alice_record) Scenario.with_alice
                  eq_refl)).
Defined.

Lemma registered_user_can_log_in_witness :
  let bob_record := mkUser 2%N "bob" "b@x.com" (Bcrypt 12 "secret2") RoleUser
                           Scenario.W2 1700000000000 in
  let w1 := mkWorld [Scenario.alice_record; bob_record] []
                    ({[Scenario.W2]} ∪ {[Scenario.W1]}) in
  logs_in [Scenario.W1; Scenario.W2] (Scenario.healthy 9)
    (JS.Str "b@x.com") (JS.Str "secret2") (user_view bob_record)
    (serve [Scenario.W1; Scenario.W2]
           [(Scenario.healthy 7, Scenario.paycheck);
            (Scenario.healthy 3, Scenario.carol)] w1).2.
Proof.
  apply (registered_user_can_log_in [Scenario.W1; Scenario.W2]
           (Scenario.healthy 2) (JS.Str "bob") (JS.Str "b@x.com")
           (JS.Str "secret2") Scenario.with_alice
           (mkToken "secret" 2%N "bob" RoleUser (Some Scenario.W2) 1700604800)).
  - vm_compute. reflexivity.
  - reflexivity.
  - reflexivity.
  - eexists. reflexivity.
  - eexists. reflexivity.
Defined.

Lemma issued_token_opens_profile_witness :
  let bob_record := mkUser 2%N "bob" "b@x.com" (Bcrypt 12 "secret2") RoleUser
                           Scenario.W2 1700000000000 in
  let w1 := mkWorld [Scenario.alice_record; bob_record] []
                    ({[Scenario.W2]} ∪ {[Scenario.W1]}) in
  let tok := mkToken "secret" 2%N "bob" RoleUser (Some Scenario.W2) 1700604800 in
  let later := (serve [Scenario.W1; Scenario.W2]
                      [(Scenario.healthy 7, Scenario.paycheck)] w1).2 in
  handle [Scenario.W1; Scenario.W2] (Scenario.healthy 9) (GetMe (Some tok)) later
  = (mkResponse 200 (Profile (user_view bob_record) 1700000000000), later).
Proof.
  apply (issued_token_opens_profile [Scenario.W1; Scenario.W2]
           (Scenario.healthy 2) (JS.Str "bob") (JS.Str "b@x.com")
           (JS.Str "secret2") Scenario.with_alice
           (mkToken "secret" 2%N "bob" RoleUser (Some Scenario.W2) 1700604800)
           _ _ [(Scenario.healthy 7, Scenario.paycheck)] (Scenario.healthy 9)).
  - vm_compute. reflexivity.
  - reflexivity.
  - reflexivity.
  - reflexivity.
Defined.

Lemma registered_wallet_is_attributed_witness :
  let bob_record := mkUser 2%N "bob" "b@x.com" (Bcrypt 12 "secret2") RoleUser
                           Scenario.W2 1700000000000 in
  let t := mkTransaction 1 "Books" (JS.Fin 30) expense other
             Scenario.W2 "0xShop" 1700000000000 "0x5f3a9c" "completed" 2%N in
  createdBy t = viewId (user_view bob_record)
  /\ match type t with
     | income => receiver t = viewWallet (user_view bob_record)
     | expense => sender t = viewWallet (user_view bob_record)
     end.
Proof.
  apply (registered_wallet_is_attributed [Scenario.W1; Scenario.W2]
           (Scenario.healthy 2) (JS.Str "bob") (JS.Str "b@x.com")
           (JS.Str "secret2") Scenario.with_alice
           (mkToken "secret" 2%N "bob" RoleUser (Some Scenario.W2) 1700604800)
           _
           (mkWorld [Scenario.alice_record;
                     mkUser 2%N "bob" "b@x.com" (Bcrypt 12 "secret2") RoleUser
                            Scenario.W2 1700000000000] []
                    ({[Scenario.W2]} ∪ {[Scenario.W1]}))
           [] (Scenario.healthy 9)
           (JS.Str "Books") (JS.Num 30) (JS.Str "expense") JS.Undefined
           (JS.Str "0xShop") _
           (mkWorld [Scenario.alice_record;
                     mkUser 2%N "bob" "b@x.com" (Bcrypt 12 "secret2") RoleUser
                            Scenario.W2 1700000000000]
                    [mkTransaction 1 "Books" (JS.Fin 30) expense other
                       Scenario.W2 "0xShop" 1700000000000 "0x5f3a9c"
                       "completed" 2%N]
                    ({[Scenario.W2]} ∪ {[Scenario.W1]}))).
  - vm_compute. reflexivity.
  - vm_compute. reflexivity.
Defined.

(* ===================================================================== *)
(** * Status codes and access control *)
(* ===================================================================== *)

Section Statuses.

Variable pool : list string.
Variable e : Env.

Ltac run :=
  unfold register, login, me, addTransaction, getTransactions,
    dashboardSummary in *;
  unfold User_findOne_or, User_findOne, User_findById, user_save,
    Transaction_findOne_last, Transaction_find, transaction_save,
    registration_token, login_token, password_matches in *;
  unfold bcrypt_hash, bcrypt_compare, jwt_sign, store_op in *;
  unfold try_catch, bind, ret, throw, get_world, put_world in *.

Ltac cases :=
  simplify_eq/=;
  repeat (case_match; simplify_eq/=);
  rewrite ?getAvailableWallet_first_free in *;
  repeat (case_match; simplify_eq/=).

(** The goal [orderly req r] for a response that is known. *)
Ltac solve_orderly :=
  unfold orderly, classified, error_statuses; cbn;
  repeat match goal with
         | |- _ /\ _ => split
         | |- _ ∈ _ => repeat constructor
         | |- _ <> _ => discriminate
         | |- _ = _ -> _ => intros ?; try discriminate
         | |- _ = _ => reflexivity
         | |- exists _, _ => eexists
         end.

(** Among safe identifiers the sequencer's identifier is not in the
    collection. *)
Lemma nextId_not_stored ts t :
  safe_ids ts ->
  transactionId t = nextId (greatest ts) ->
  existsb (fun x => (transactionId x =? transactionId t)%Z) ts = false.
Proof.
  intros Hsafe Hid. destruct (existsb _ ts) eqn:Hex; [|reflexivity].
  apply existsb_exists in Hex as (x & Hx%list_elem_of_In & Heq%Z.eqb_eq).
  pose proof (greatest_spec ts) as H.
  destruct (greatest ts) as [m|] eqn:Hm; [|subst ts; inversion Hx].
  destruct H as [_ Hmax]. rewrite <- Hm, (nextId_safe ts m Hsafe Hm) in Hid.
  specialize (Hmax x Hx). lia.
Qed.

Lemma register_orderly u m p w :
  orderly (PostRegister u m p) (try_catch (register pool e u m p) w).1.
Proof.
  destruct (try_catch (register pool e u m p) w) as [r w'] eqn:H.
  run. cases; try (solve_orderly; fail);
    match goal with
    | H : List.find _ _ = None |- _ => apply lookup_none_not_taken in H as [? ?]
    end;
    congruence.
Qed.

Lemma login_orderly m p w :
  orderly (PostLogin m p) (try_catch (login e m p) w).1.
Proof.
  destruct (try_catch (login e m p) w) as [r w'] eqn:H.
  run. cases; solve_orderly.
Qed.

Lemma me_orderly t w :
  orderly (GetMe (Some t)) (try_catch (me e t) w).1.
Proof.
  destruct (try_catch (me e t) w) as [r w'] eqn:H.
  run. cases; solve_orderly.
Qed.

Lemma addTransaction_orderly tk d a ty c rcv w :
  orderly (PostTransaction (Some tk) d a ty c rcv)
          (try_catch (addTransaction e tk d a ty c rcv) w).1.
Proof.
  destruct (try_catch (addTransaction e tk d a ty c rcv) w) as [r w'] eqn:H.
  run. cases; solve_orderly.
Qed.

(** Among safe identifiers a submission is not refused by the unique
    index on [transactionId]. *)
Lemma addTransaction_no_duplicate tk d a ty c rcv w :
  safe_ids (transactions w) ->
  (try_catch (addTransaction e tk d a ty c rcv) w).1
  <> failure 500 (DuplicateKey "transactions" "transactionId").
Proof.
  intros Hsafe.
  destruct (try_catch (addTransaction e tk d a ty c rcv) w) as [r w'] eqn:H.
  run. cases; try discriminate.
  match goal with
  | H : new_Transaction _ _ _ _ _ _ _ _ _ _ = inr _ |- _ =>
      apply new_Transaction_fields in H as (Hid & _)
  end.
  apply nextId_not_stored in Hid; [congruence|exact Hsafe].
Qed.

Lemma getTransactions_orderly t w :
  orderly (GetTransactions (Some t)) (try_catch (getTransactions e t) w).1.
Proof.
  destruct (try_catch (getTransactions e t) w) as [r w'] eqn:H.
  run. cases; solve_orderly.
Qed.

Lemma dashboardSummary_orderly t w :
  orderly (GetSummary (Some t)) (try_catch (dashboardSummary e t) w).1.
Proof.
  destruct (try_catch (dashboardSummary e t) w) as [r w'] eqn:H.
  run. cases; solve_orderly.
Qed.

(** Behind the middleware, and on the two public routes, the response is
    the handler's. *)
Lemma behind_the_middleware req w :
  match authorization_of req with
  | Some (Some t) => jwt_verify e t = true
  | Some None => False
  | None => True
  end ->
  orderly req (handle pool e req w).1.
Proof.
  destruct req as [u m p|m p|[t|]|[t|] d a ty c rcv|[t|]|[t|]];
    cbn [authorization_of handle authenticateToken]; intros Hv;
    try contradiction; rewrite ?Hv.
  - apply register_orderly.
  - apply login_orderly.
  - apply me_orderly.
  - apply addTransaction_orderly.
  - apply getTransactions_orderly.
  - apply dashboardSummary_orderly.
Qed.

(** What the middleware answers by itself. *)
Lemma denied_by_the_middleware req w :
  match authorization_of req with
  | Some (Some t) =>
      jwt_verify e t = false ->
      handle pool e req w = (failure 403 (Message "Invalid or expired token"), w)
  | Some None =>
      handle pool e req w = (failure 401 (Message "Access token required"), w)
  | None => True
  end.
Proof.
  destruct req as [u m p|m p|[t|]|[t|] d a ty c rcv|[t|]|[t|]];
    cbn [authorization_of handle authenticateToken]; try exact I;
    try reflexivity; now intros ->.
Qed.

(** X10.  Access control.  A request is answered 401 exactly when it is
    for a protected route and carries no token, and 403 exactly when it
    is for a protected route and its token does not verify.  Both answers
    are the fixed ones of the middleware, and the handler behind it has
    not run: nothing changes. *)
Theorem access_is_denied_by_the_middleware_only (req : Request) (w : World) :
  let '(r, w') := handle pool e req w in
  access_control e req w r w'.
Proof.
  destruct (handle pool e req w) as [r w'] eqn:H. unfold access_control.
  pose proof (behind_the_middleware req w) as Hb.
  pose proof (denied_by_the_middleware req w) as Hd.
  rewrite H in Hb, Hd. cbn [fst] in Hb.
  destruct (authorization_of req) as [[t|]|] eqn:Hauth.
  - destruct (jwt_verify e t) eqn:Hv.
    + destruct (Hb eq_refl) as (_ & H1 & H3 & _).
      repeat split; try congruence; try contradiction.
      intros (t' & [= <-] & Hv'). congruence.
    + specialize (Hd eq_refl). injection Hd as -> ->.
      cbn. repeat split; try discriminate; eauto.
  - injection Hd as -> ->.
    cbn. repeat split; try discriminate; auto.
    intros (t & [=] & _).
  - destruct (Hb I) as (_ & H1 & H3 & _).
    repeat split; try congruence; try contradiction.
    intros (t' & [=] & _).
Qed.

(** X11.  Every response is classified: a failure body comes with one of
    the statuses 400, 401, 403, 404, 500 and 503, and every other body
    comes with status 200, or 201 for the two writes, from the route it
    belongs to. *)
Theorem responses_are_classified (req : Request) (w : World) :
  classified req (handle pool e req w).1.
Proof.
  pose proof (behind_the_middleware req w) as Hb.
  pose proof (denied_by_the_middleware req w) as Hd.
  destruct (authorization_of req) as [[t|]|] eqn:Hauth.
  - destruct (jwt_verify e t) eqn:Hv; [now apply Hb|].
    rewrite (Hd eq_refl). unfold classified, error_statuses. cbn.
    repeat constructor.
  - rewrite Hd. unfold classified, error_statuses. cbn. repeat constructor.
  - now apply Hb.
Qed.

(** X12.  Without a database connection none of the six routes that
    read or write the database serves anything, and nothing changes: a
    request to one of them is answered with a failure, of status 400
    (missing field), 401 or 403 (access denied) or 503. *)
Theorem nothing_is_served_without_database (req : Request) (w : World) :
  connected e = false ->
  let '(r, w') := handle pool e req w in
  w' = w
  /\ exists msg, r = failure (statusCode r) msg
                 /\ statusCode r ∈ [400; 401; 403; 503]%nat.
Proof.
  intros Hc. destruct (handle pool e req w) as [r w'] eqn:H.
  destruct req as [u m p|m p|[t|]|[t|] d a ty c rcv|[t|]|[t|]];
    cbn [handle authenticateToken] in H;
    unfold register, login, me, addTransaction, getTransactions,
      dashboardSummary, try_catch, ret in H;
    rewrite ?Hc in H; cbn [negb] in H;
    repeat case_match; simplify_eq/=;
    (split; [reflexivity|]); eexists; (split; [reflexivity|]);
    cbn; repeat constructor.
Qed.

(** X13.  The unique indexes on [username] and [email] never refuse an
    insert of the server, and neither does the one on [transactionId]
    while the identifiers stored are safe integers: no request is
    answered with the duplicate-key error of one of them.  (The handlers
    look before they write.) *)
Theorem unique_indexes_are_never_hit (req : Request) (w : World) :
  safe_ids (transactions w) ->
  let r := (handle pool e req w).1 in
  r <> failure 500 (DuplicateKey "transactions" "transactionId")
  /\ r <> failure 500 (DuplicateKey "users" "username")
  /\ r <> failure 500 (DuplicateKey "users" "email").
Proof.
  intros Hsafe. cbn zeta.
  pose proof (behind_the_middleware req w) as Hb.
  pose proof (denied_by_the_middleware req w) as Hd.
  destruct (authorization_of req) as [[t|]|] eqn:Hauth.
  - destruct (jwt_verify e t) eqn:Hv.
    + destruct (Hb eq_refl) as (_ & _ & _ & Hn & He & Hid).
      split; [|split; assumption].
      intros Hdup. destruct (Hid Hdup) as (auth & d & a & ty & c & rcv & ->).
      cbn in Hauth. injection Hauth as ->.
      cbn [handle authenticateToken] in Hdup. rewrite Hv in Hdup.
      now apply addTransaction_no_duplicate in Hdup.
    + rewrite (Hd eq_refl). repeat split; discriminate.
  - rewrite Hd. repeat split; discriminate.
  - destruct (Hb I) as (_ & _ & _ & Hn & He & Hid).
    split; [|split; assumption].
    intros Hdup. destruct (Hid Hdup) as (auth & d & a & ty & c & rcv & ->).
    discriminate.
Qed.

End Statuses.

Lemma unique_indexes_are_never_hit_witness :
  let stored := [mkTransaction 7 "Paycheck" (JS.Fin 1000) income salary
                   "external_sender" Scenario.W1 1700000000000 "0x5f3a9c"
                   "completed" 1%N] in
  let r := (handle [Scenario.W1; Scenario.W2] (Scenario.healthy 8)
                   Scenario.rent_payment
                   (set_transactions stored Scenario.with_alice)).1 in
  r <> failure 500 (DuplicateKey "transactions" "transactionId")
  /\ r <> failure 500 (DuplicateKey "users" "username")
  /\ r <> failure 500 (DuplicateKey "users" "email").
Proof.
  intros stored.
  apply (unique_indexes_are_never_hit [Scenario.W1; Scenario.W2]
           (Scenario.healthy 8) Scenario.rent_payment
           (set_transactions stored Scenario.with_alice)).
  intros t Ht. unfold stored in Ht. cbn in Ht.
  apply list_elem_of_singleton in Ht as ->. cbn; lia.
Defined.

Lemma nothing_is_served_without_database_witness :
  let offline := mkEnv 0 (fun _ => None) (Some "secret") (Timespan 604800) 7%N
                 1700000000000 "5f3a9c" in
  let '(r, w') := handle AVAILABLE_WALLETS offline Scenario.paycheck
                         Scenario.with_alice in
  w' = Scenario.with_alice
  /\ exists msg, r = failure (statusCode r) msg
                 /\ statusCode r ∈ [400; 401; 403; 503]%nat.
Proof.
  apply (nothing_is_served_without_database AVAILABLE_WALLETS
           (mkEnv 0 (fun _ => None) (Some "secret") (Timespan 604800) 7%N
                 1700000000000 "5f3a9c")
           Scenario.paycheck Scenario.with_alice).
  reflexivity.
Defined.

(* ===================================================================== *)
(** * Created records and refused documents *)
(* ===================================================================== *)

Section Documents.

Variable pool : list string.
Variable e : Env.

Lemma cast_category_inr v c :
  cast_category v = inr c -> v = JS.Str (category_name c).
Proof.
  unfold cast_category. intros H.
  destruct (List.find _ _) as [c'|] eqn:Hfind; [|discriminate].
  injection H as <-. apply find_some in Hfind as [_ Heq].
  unfold JS.strict_eq_str in Heq. destruct v; try discriminate.
  apply String.eqb_eq in Heq. now subst.
Qed.

Lemma cast_amount_inr n a : cast_amount n = inr a -> a = n /\ n <> JS.NaN.
Proof.
  unfold cast_amount. destruct n; intros H; try discriminate;
    injection H as <-; split; [reflexivity|discriminate|reflexivity|discriminate].
Qed.

Lemma new_Transaction_defaults id d n ty c snd rcv hash owner t :
  new_Transaction e id d n ty c snd rcv hash owner = inr t ->
  timestamp t = now e /\ status t = "completed" /\ blockchainHash t = hash.
Proof.
  unfold new_Transaction. intros H.
  repeat (case_match; simplify_eq/=). repeat split; reflexivity.
Qed.

(** X14.  The record created by a submission reflects the submission:
    the description as a string, the amount as [parseFloat] reads it,
    which is a number, the category submitted or ["other"] when none is
    submitted, the principal of the token as owner, the time of the
    request, the status ["completed"] and the hash drawn for it.  The
    record is appended to the collection; nothing else changes. *)
Theorem created_record_reflects_submission tk d a ty c rcv w t w' :
  handle pool e (PostTransaction (Some tk) d a ty c rcv) w
  = (mkResponse 201 (TransactionAdded t), w') ->
  reflects e tk d a c t
  /\ w' = mkWorld (users w) (transactions w ++ [t]) (assignedWallets w).
Proof.
  intros (tk' & user & [= <-] & _ & Hdoc & ->)%submission_created.
  split; [|reflexivity]. unfold document, reflects in *.
  pose proof (new_Transaction_defaults _ _ _ _ _ _ _ _ _ _ Hdoc)
    as (Hts & Hst & Hh).
  apply new_Transaction_fields in Hdoc
    as (_ & [Ha Hnan]%cast_amount_inr & _ & Hc%cast_category_inr & _ & _ & Hd & Ho).
  repeat split; auto; congruence.
Qed.

Lemma new_Transaction_path_error id d n ty c snd rcv hash owner :
  (cast_amount n = inl (CastError "Number" "NaN") ->
   exists errs,
     new_Transaction e id d n ty c snd rcv hash owner = inl errs
     /\ ("amount", CastError "Number" "NaN") ∈ errs)
  /\ (forall err, cast_category c = inl err ->
      exists errs,
        new_Transaction e id d n ty c snd rcv hash owner = inl errs
        /\ ("category", err) ∈ errs).
Proof.
  unfold new_Transaction. split.
  - intros ->. destruct (cast_type ty), (cast_category c);
      eexists; (split; [reflexivity|]); cbn; now left.
  - intros err ->. destruct (cast_amount n), (cast_type ty);
      eexists; (split; [reflexivity|]); cbn;
      repeat first [now left | right].
Qed.

(** X15.  Amounts and categories the schema refuses.  A submission that
    is ready for the store is refused at [save], with status 500 and a
    validation failure that names the path, and stores nothing: on the
    path [amount] when [parseFloat] reads no number from the amount, and
    on the path [category] when a category is submitted that is not one
    of the six of the schema. *)
Theorem invalid_amount_or_category_refused tk d a ty c rcv w user :
  ready e tk d a ty w user ->
  (JS.parseFloat a = JS.NaN -> refusal pool e tk d a ty c rcv w "amount")
  /\ ((forall cat, JS.or c (JS.Str "other") <> JS.Str (category_name cat)) ->
      refusal pool e tk d a ty c rcv w "category").
Proof.
  intros Hready. unfold refusal.
  rewrite (submission_ready pool e _ _ _ _ c rcv _ _ Hready).
  unfold document.
  destruct (new_Transaction_path_error
              (nextId (greatest (transactions w))) d (JS.parseFloat a) ty
              (JS.or c (JS.Str "other")) (sender_of ty rcv user)
              (receiver_of ty rcv user) ("0x" ++ random e) (tokenUserId tk))
    as [Hamount Hcategory].
  split.
  - intros Hnan. rewrite Hnan in Hamount.
    destruct (Hamount eq_refl) as (errs & Hdoc & Hin).
    rewrite Hnan, Hdoc. cbn. split; [reflexivity|]. now exists errs, (CastError "Number" "NaN").
  - intros Hcat.
    destruct (cast_category (JS.or c (JS.Str "other"))) as [err|cat] eqn:Hc.
    + destruct (Hcategory err eq_refl) as (errs & Hdoc & Hin).
      rewrite Hdoc. cbn. split; [reflexivity|]. now exists errs, err.
    + apply cast_category_inr in Hc. now apply Hcat in Hc.
Qed.

End Documents.

Lemma created_record_reflects_submission_witness :
  let t := mkTransaction 1 "Paycheck" (JS.Fin 1000) income salary
             "external_sender" Scenario.W1 1700000000000 "0x5f3a9c"
             "completed" 1%N in
  reflects (Scenario.healthy 7) Scenario.alice_token (JS.Str "Paycheck")
           (JS.Num 1000) (JS.Str "salary") t
  /\ mkWorld [Scenario.alice_record] [t] {[Scenario.W1]}
     = mkWorld (users Scenario.with_alice) (transactions Scenario.with_alice ++ [t])
               (assignedWallets Scenario.with_alice).
Proof.
  apply (created_record_reflects_submission [Scenario.W1; Scenario.W2]
           (Scenario.healthy 7) Scenario.alice_token (JS.Str "Paycheck")
           (JS.Num 1000) (JS.Str "income") (JS.Str "salary") JS.Undefined
           Scenario.with_alice).
  vm_compute. reflexivity.
Defined.

Lemma invalid_amount_or_category_refused_witness :
  refusal [Scenario.W1; Scenario.W2] (Scenario.healthy 7) Scenario.alice_token
          (JS.Str "Lunch") (JS.Str "twelve") (JS.Str "expense") (JS.Str "food")
          JS.Undefined Scenario.with_alice "amount"
  /\ refusal [Scenario.W1; Scenario.W2] (Scenario.healthy 7) Scenario.alice_token
             (JS.Str "Lunch") (JS.Str "twelve") (JS.Str "expense") (JS.Str "food")
             JS.Undefined Scenario.with_alice "category".
Proof.
  destruct (invalid_amount_or_category_refused [Scenario.W1; Scenario.W2]
              (Scenario.healthy 7) Scenario.alice_token
              (JS.Str "Lunch") (JS.Str "twelve") (JS.Str "expense") (JS.Str "food")
              JS.Undefined Scenario.with_alice Scenario.alice_record)
    as [Hamount Hcategory].
  - repeat split.
  - split.
    + apply Hamount. reflexivity.
    + apply Hcategory. intros []; discriminate.
Defined.

(* ===================================================================== *)
(** * The two reads *)
(* ===================================================================== *)

Section Reads.

Variable pool : list string.

Lemma insert_by_timestamp_perm t l : insert_by_timestamp t l ≡ₚ t :: l.
Proof.
  induction l as [|x l IH]; cbn; [reflexivity|].
  destruct (timestamp x <=? timestamp t)%Z; [reflexivity|].
  rewrite IH. apply Permutation_swap.
Qed.

Lemma sort_by_timestamp_perm l : sort_by_timestamp l ≡ₚ l.
Proof.
  unfold sort_by_timestamp. induction l as [|x l IH]; cbn; [reflexivity|].
  now rewrite insert_by_timestamp_perm, IH.
Qed.

Lemma insert_by_timestamp_sorted t l :
  newest_first l -> newest_first (insert_by_timestamp t l).
Proof.
  unfold newest_first. induction l as [|x l IH]; intros Hs; cbn.
  - repeat constructor.
  - apply StronglySorted_inv in Hs as [Hl Hx].
    destruct (Z.leb_spec (timestamp x) (timestamp t)).
    + constructor; [now constructor|].
      constructor; [assumption|].
      eapply List.Forall_impl; [|exact Hx]. cbn. intros y Hy. lia.
    + constructor; [now apply IH|].
      apply Forall_forall. intros y Hy.
      rewrite insert_by_timestamp_perm in Hy.
      apply elem_of_cons in Hy as [->|Hy]; [lia|].
      rewrite Forall_forall in Hx. now apply Hx.
Qed.

Lemma sort_by_timestamp_sorted l : newest_first (sort_by_timestamp l).
Proof.
  unfold sort_by_timestamp. induction l as [|x l IH]; cbn.
  - constructor.
  - now apply insert_by_timestamp_sorted.
Qed.

(** X16.  What the listing and the dashboard show.  For a token that
    verifies, the database being connected and answering, the listing
    holds exactly the transactions whose owner is the principal of the
    token, each once, newest first, with their number; the dashboard
    summarises exactly these transactions.  Neither changes anything. *)
Theorem reads_show_own_transactions e tk w :
  jwt_verify e tk = true -> connected e = true ->
  storeFault e TransactionFind = None ->
  shows_own pool e tk w.
Proof.
  intros Hv Hc Hf. unfold shows_own. cbn [handle authenticateToken].
  rewrite Hv. unfold getTransactions, dashboardSummary, try_catch.
  rewrite Hc. cbn [negb].
  unfold Transaction_find, store_op. rewrite Hf.
  unfold bind, get_world, ret. fold (owned_by (tokenUserId tk) (transactions w)).
  split; [|reflexivity].
  eexists. split; [reflexivity|].
  split; [apply sort_by_timestamp_perm | apply sort_by_timestamp_sorted].
Qed.

(** X17.  The reads of a principal without transactions are empty, not
    errors.  For a token that verifies, the database being connected and
    answering, if no stored transaction belongs to the principal of the
    token, the listing is answered 200 with count 0 and no transaction,
    and the dashboard 200 with zero totals, zero balance, no category
    bucket and no recent transaction. *)
Theorem reads_without_transactions_are_empty e tk w :
  jwt_verify e tk = true -> connected e = true ->
  storeFault e TransactionFind = None ->
  owned_by (tokenUserId tk) (transactions w) = [] ->
  handle pool e (GetTransactions (Some tk)) w
  = (mkResponse 200 (TransactionList 0 []), w)
  /\ handle pool e (GetSummary (Some tk)) w
     = (mkResponse 200 (Dashboard empty_summary []), w).
Proof.
  intros Hv Hc Hf Hnone. cbn [handle authenticateToken].
  rewrite Hv. unfold getTransactions, dashboardSummary, try_catch.
  rewrite Hc. cbn [negb].
  unfold Transaction_find, store_op. rewrite Hf.
  unfold bind, get_world, ret. fold (owned_by (tokenUserId tk) (transactions w)).
  rewrite Hnone. split; reflexivity.
Qed.

Lemma sum_of_type_snoc ty ts t :
  sum_of_type ty (ts ++ [t])
  = if String.eqb (type_name (type t)) (type_name ty)
    then JS.add (sum_of_type ty ts) (amount t)
    else sum_of_type ty ts.
Proof.
  unfold sum_of_type. rewrite List.filter_app. cbn [List.filter].
  destruct (String.eqb (type_name (type t)) (type_name ty)).
  - now rewrite fold_left_app.
  - now rewrite app_nil_r.
Qed.

Lemma summarize_snoc ts t :
  summary_grows_by t (summarize ts) (summarize (ts ++ [t])).
Proof.
  unfold summary_grows_by, summarize.
  cbn [transactionCount totalIncome totalExpenses byCategory].
  rewrite !sum_of_type_snoc. unfold categoryData. rewrite fold_left_app.
  rewrite length_app, Nat.add_1_r.
  destruct (type t); repeat split.
Qed.

Lemma owned_by_snoc owner ts t :
  owned_by owner (ts ++ [t])
  = if N.eqb (createdBy t) owner then owned_by owner ts ++ [t]
    else owned_by owner ts.
Proof.
  unfold owned_by. rewrite List.filter_app. cbn [List.filter].
  destruct (N.eqb (createdBy t) owner); [reflexivity|apply app_nil_r].
Qed.

(** X18.  A commit and the reads.  After a submission that was answered
    201, the listing and the dashboard of every other principal are
    answered exactly as before (in any environment), and the
    transactions of the submitting principal are those before followed
    by the new one: one transaction more, its amount added to the total
    of its direction, its category bucket updated. *)
Theorem commit_is_seen_by_its_owner_only e tk d a ty c rcv w t w' :
  handle pool e (PostTransaction (Some tk) d a ty c rcv) w
  = (mkResponse 201 (TransactionAdded t), w') ->
  commit_effect_on_reads pool tk t w w'.
Proof.
  intros (tk' & user & [= <-] & _ & Hdoc & ->)%submission_created.
  unfold document in Hdoc.
  apply new_Transaction_fields in Hdoc as (_ & _ & _ & _ & _ & _ & _ & Hown).
  split.
  - intros e' tk2 Hother.
    assert (owned_by (tokenUserId tk2) (transactions w ++ [t])
            = owned_by (tokenUserId tk2) (transactions w)) as Hsame.
    { rewrite owned_by_snoc, Hown.
      destruct (N.eqb_spec (tokenUserId tk) (tokenUserId tk2)); congruence. }
    cbn [handle authenticateToken].
    destruct (jwt_verify e' tk2); [|split; reflexivity].
    unfold getTransactions, dashboardSummary, try_catch.
    destruct (connected e'); cbn [negb]; [|split; reflexivity].
    unfold Transaction_find, store_op.
    destruct (storeFault e' TransactionFind); [split; reflexivity|].
    unfold bind, get_world, ret. cbn [transactions set_transactions fst].
    fold (owned_by (tokenUserId tk2) (transactions w ++ [t])).
    fold (owned_by (tokenUserId tk2) (transactions w)).
    rewrite Hsame. split; reflexivity.
  - cbn zeta. cbn [transactions set_transactions].
    rewrite owned_by_snoc, Hown, N.eqb_refl.
    split; [reflexivity|apply summarize_snoc].
Qed.

End Reads.

Lemma reads_show_own_transactions_witness :
  shows_own [Scenario.W1; Scenario.W2] (Scenario.healthy 9) Scenario.alice_token
            (serve [Scenario.W1; Scenario.W2]
                   [(Scenario.healthy 7, Scenario.paycheck);
                    (Scenario.healthy 8, Scenario.rent_payment)]
                   Scenario.with_alice).2.
Proof.
  apply (reads_show_own_transactions [Scenario.W1; Scenario.W2]
           (Scenario.healthy 9) Scenario.alice_token); reflexivity.
Defined.

Lemma reads_without_transactions_are_empty_witness :
  handle [Scenario.W1; Scenario.W2] (Scenario.healthy 9)
         (GetTransactions (Some Scenario.alice_token)) Scenario.with_alice
  = (mkResponse 200 (TransactionList 0 []), Scenario.with_alice)
  /\ handle [Scenario.W1; Scenario.W2] (Scenario.healthy 9)
            (GetSummary (Some Scenario.alice_token)) Scenario.with_alice
     = (mkResponse 200 (Dashboard empty_summary []), Scenario.with_alice).
Proof.
  apply (reads_without_transactions_are_empty [Scenario.W1; Scenario.W2]
           (Scenario.healthy 9) Scenario.alice_token Scenario.with_alice);
    reflexivity.
Defined.

Lemma commit_is_seen_by_its_owner_only_witness :
  let t := mkTransaction 1 "Paycheck" (JS.Fin 1000) income salary
             "external_sender" Scenario.W1 1700000000000 "0x5f3a9c"
             "completed" 1%N in
  commit_effect_on_reads [Scenario.W1; Scenario.W2] Scenario.alice_token t
    Scenario.with_alice (set_transactions [t] Scenario.with_alice).
Proof.
  apply (commit_is_seen_by_its_owner_only [Scenario.W1; Scenario.W2]
           (Scenario.healthy 7) Scenario.alice_token (JS.Str "Paycheck")
           (JS.Num 1000) (JS.Str "income") (JS.Str "salary") JS.Undefined
           Scenario.with_alice).
  vm_compute. reflexivity.
Defined.

(* ===================================================================== *)
(** * The buckets of the dashboard *)
(* ===================================================================== *)

Section Buckets.
Import JS JSFacts.

Variable key : Transaction -> string.

Lemma bucket_step_lookup acc t k :
  bucket_step key acc t !! k
  = if String.eqb (key t) k
    then Some (add_to_bucket t (default (mkBucket zero zero zero) (acc !! k)))
    else acc !! k.
Proof.
  unfold bucket_step.
  destruct (String.eqb_spec (key t) k) as [<-|Hne].
  - destruct (acc !! key t) as [b|] eqn:Hk.
    + rewrite Hk. now rewrite lookup_insert_eq.
    + rewrite lookup_insert_eq. now rewrite lookup_insert_eq.
  - destruct (acc !! key t) as [b|] eqn:Hk.
    + rewrite Hk. now rewrite lookup_insert_ne.
    + rewrite lookup_insert_eq. now rewrite !lookup_insert_ne.
Qed.

Lemma fold_bucket_step_lookup ts : forall acc k,
  fold_left (bucket_step key) ts acc !! k
  = match List.filter (fun t => String.eqb (key t) k) ts with
    | [] => acc !! k
    | _ :: _ =>
        Some (fold_left (fun b t => add_to_bucket t b)
                (List.filter (fun t => String.eqb (key t) k) ts)
                        (default (mkBucket zero zero zero) (acc !! k)))
    end.
Proof.
  induction ts as [|t ts IH]; intros acc k; [reflexivity|].
  cbn [fold_left]. rewrite IH, bucket_step_lookup.
  cbn [List.filter].
  destruct (String.eqb (key t) k); [|reflexivity].
  cbn [fold_left default].
  now destruct (List.filter _ ts).
Qed.

Lemma fold_add_to_bucket grp : forall b,
  fold_left (fun b t => add_to_bucket t b) grp b
  = mkBucket
      (fold_left (fun s t => add s (amount t))
         (List.filter (fun t => String.eqb (type_name (type t)) "income") grp)
         (bucketIncome b))
      (fold_left (fun s t => add s (amount t))
         (List.filter (fun t => String.eqb (type_name (type t)) "expense") grp)
         (bucketExpense b))
      (sum_of_amounts grp (total b)).
Proof.
  induction grp as [|t grp IH]; intros b; [now destruct b|].
  cbn [fold_left List.filter sum_of_amounts]. rewrite IH.
  unfold add_to_bucket. destruct (type t); reflexivity.
Qed.

(** The reduction of the dashboard for a grouping key: the bucket of a
    key is the bucket of its group. *)
Lemma fold_bucket_step_spec ts k :
  fold_left (bucket_step key) ts ∅ !! k
  = bucket_of (List.filter (fun t => String.eqb (key t) k) ts).
Proof.
  rewrite fold_bucket_step_lookup, lookup_empty. unfold bucket_of.
  destruct (List.filter _ ts) as [|t grp]; [reflexivity|].
  now rewrite fold_add_to_bucket.
Qed.

End Buckets.

(** X19.  The category breakdown of the dashboard.  For every list of
    transactions and every name, the bucket under that name holds the
    sums over the transactions of that category, each taken from 0 in
    the order of the list: the sum of its incomes, the sum of its
    expenses and the sum of all its amounts; there is no bucket under a
    name no transaction has as category. *)
Theorem category_buckets_hold_category_sums (ts : list Transaction) (k : string) :
  byCategory (summarize ts) !! k = bucket_of (in_category k ts).
Proof.
  apply (fold_bucket_step_spec (fun t => category_name (category t))).
Qed.

(* ===================================================================== *)
(** * The predecessor *)
(* ===================================================================== *)

Section PredecessorFacts.
Import JS JSFacts.

(** X20.  The monthly breakdown of the predecessor's dashboard.  For
    every list of transactions, the bucket under a month holds the sums
    over the transactions of that month, each taken from 0 in the order
    of the list, and there is no bucket for a month without
    transactions. *)
Theorem monthly_buckets_hold_monthly_sums (ts : list Transaction) (k : string) :
  Predecessor.byMonth (Predecessor.report ts) !! k = bucket_of (in_month k ts).
Proof.
  apply (fold_bucket_step_spec
           (fun t => Calendar.toISOString_month (timestamp t))).
Qed.

(** X21.  The hardening preserves the behaviour.  When the database is
    connected, the server and its predecessor give the same response and
    leave the same world for a login, a profile request, a submission
    and a listing; the server's dashboard is the predecessor's without
    the monthly breakdown. *)
Theorem hardened_server_agrees_with_predecessor (e : Env) (w : World) :
  connected e = true -> agree e w.
Proof.
  intros Hc. unfold agree.
  unfold Predecessor.login, login, Predecessor.me, me,
    Predecessor.addTransaction, addTransaction,
    Predecessor.getTransactions, getTransactions,
    Predecessor.dashboardSummary, dashboardSummary.
  rewrite Hc. cbn [negb]. repeat split; try reflexivity.
  intros t. unfold try_catch, bind, ret, Predecessor.report.
  destruct (Transaction_find e (tokenUserId t) w) as [[found|msg] w'];
    reflexivity.
Qed.

(** X22.  The predecessor has no wallet exclusivity.  A registration
    that gets as far as the lookup and finds nobody with the name or the
    e-mail address, by a string password, with the store accepting the
    write, stores the user with the wallet address of the request (the
    empty string when there is none), whether or not a stored user holds
    this address already, and does not touch the assigned set.  It is
    answered 201 when a signing secret and a lifetime for the tokens are
    configured. *)
Theorem predecessor_stores_supplied_wallet (e : Env)
    (u m walletAddress : JS.value) (s : string) (w : World) :
  JS.truthy u = true -> JS.truthy m = true -> s <> "" ->
  storeFault e UserFindOne = None -> storeFault e UserSave = None ->
  List.find (fun x => String.eqb (email x) (JS.toString m)
                      || String.eqb (username x) (JS.toString u)) (users w) = None ->
  (forall v, v ∈ users w -> _id v <> objectId e) ->
  registers_with_supplied_wallet e u m walletAddress s w.
Proof.
  intros Hu Hm Hs Hf1 Hf2 Hfind Hid. unfold registers_with_supplied_wallet.
  unfold Predecessor.register, try_catch. rewrite Hu, Hm.
  assert (truthy (Str s) = true) as ->.
  { cbn. destruct (String.eqb_spec s ""); [contradiction|reflexivity]. }
  cbn [negb orb].
  unfold bind at 1, User_findOne_or, store_op. rewrite Hf1.
  unfold bind at 1, get_world, ret at 1. rewrite Hfind.
  unfold bind at 1, bcrypt_hash, ret at 1.
  unfold bind at 1, user_save, store_op. rewrite Hf2.
  unfold bind at 1, get_world.
  destruct (lookup_none_not_taken _ _ _ Hfind) as [Hn He].
  unfold Predecessor.new_User. cbn [_id username email].
  rewrite Hn, He.
  assert (existsb (fun v => N.eqb (_id v) (objectId e)) (users w) = false) as ->.
  { destruct (existsb (fun v => N.eqb (_id v) (objectId e)) (users w)) eqn:Hex;
      [|reflexivity].
    apply existsb_exists in Hex as (v & Hv%list_elem_of_In & Heq%N.eqb_eq).
    now apply Hid in Hv. }
  unfold put_world, bind, login_token, jwt_sign, ret, throw.
  unfold supplied_wallet, JS.or.
  assert (toString (if truthy walletAddress then walletAddress else Str "")
          = (if truthy walletAddress then toString walletAddress else ""))
    as -> by now destruct (truthy walletAddress).
  destruct (JWT_SECRET e) as [key|]; [destruct (JWT_EXPIRES_IN e)|];
    eexists; (split; [reflexivity|]); try discriminate.
  now intros key' seconds' [= <-] [= <-].
Qed.

End PredecessorFacts.

Lemma hardened_server_agrees_with_predecessor_witness :
  agree (Scenario.healthy 7) Scenario.with_alice.
Proof.
  apply (hardened_server_agrees_with_predecessor (Scenario.healthy 7)
           Scenario.with_alice).
  reflexivity.
Defined.

Lemma predecessor_stores_supplied_wallet_witness :
  registers_with_supplied_wallet (Scenario.healthy 2) (JS.Str "bob")
    (JS.Str "b@x.com") (JS.Str Scenario.W1) "secret2" Scenario.with_alice.
Proof.
  apply (predecessor_stores_supplied_wallet (Scenario.healthy 2) (JS.Str "bob")
           (JS.Str "b@x.com") (JS.Str Scenario.W1) "secret2" Scenario.with_alice);
    try reflexivity.
  - discriminate.
  - intros v Hv. apply list_elem_of_singleton in Hv as ->. discriminate.
Defined.

(** The months of some timestamps. *)
Example toISOString_month_samples :
  map Calendar.toISOString_month
      [1700000000000; 0; -1; 951782400000; 951868800000;
       -62167219200000; -62167219200001; 253402300800000]%Z
  = ["2023-11"; "1970-01"; "1969-12"; "2000-02"; "2000-03";
     "0000-01"; "-000001"; "+010000"].
Proof. vm_compute. reflexivity. Qed.

(* ===================================================================== *)
(** * The token of the Authorization header *)
(* ===================================================================== *)

Section HeaderFacts.

Variable sep : ascii.

Lemma split_not_nil s : Header.split sep s <> [].
Proof.
  destruct s as [|c s]; cbn [Header.split]; [discriminate|].
  destruct (Ascii.eqb c sep); [discriminate|].
  destruct (Header.split sep s); discriminate.
Qed.

(** A first field without the separator, followed by the separator. *)
Lemma split_field a b :
  Header.contains sep a = false ->
  Header.split sep (a ++ String sep b)%string = a :: Header.split sep b.
Proof.
  induction a as [|c a IH]; cbn [Header.contains]; intros H.
  - change (Header.split sep (String sep b) = "" :: Header.split sep b).
    cbn [Header.split]. now rewrite Ascii.eqb_refl.
  - apply orb_false_elim in H as [Hc Ha].
    change (Header.split sep (String c (a ++ String sep b)%string)
            = String c a :: Header.split sep b).
    cbn [Header.split]. rewrite Hc, (IH Ha). reflexivity.
Qed.

(** A string without the separator is one field. *)
Lemma split_one a :
  Header.contains sep a = false -> Header.split sep a = [a].
Proof.
  induction a as [|c a IH]; cbn [Header.split Header.contains]; intros H;
    [reflexivity|].
  apply orb_false_elim in H as [Hc Ha]. now rewrite Hc, (IH Ha).
Qed.

(** The first field has no separator; it is the whole string, or it is
    followed by the separator and the rest, which gives the other
    fields. *)
Lemma split_inv s : forall f fs,
  Header.split sep s = f :: fs ->
  Header.contains sep f = false
  /\ ((fs = [] /\ s = f)
      \/ exists r, s = (f ++ String sep r)%string /\ Header.split sep r = fs).
Proof.
  induction s as [|c s IH]; cbn [Header.split]; intros f fs H.
  - injection H as <- <-. auto.
  - destruct (Ascii.eqb_spec c sep) as [->|Hne].
    + injection H as <- <-. split; [reflexivity|]. right. now exists s.
    + destruct (Header.split sep s) as [|f' fs'] eqn:Hs;
        [now apply split_not_nil in Hs|].
      injection H as <- <-.
      destruct (IH _ _ eq_refl) as [Hf Hrest]. split.
      * cbn [Header.contains]. rewrite Hf. now destruct (Ascii.eqb_spec c sep).
      * destruct Hrest as [[-> ->]|(r & -> & Hr)]; [now left|].
        right. now exists r.
Qed.

End HeaderFacts.

Lemma append_empty_r (s : string) : (s ++ "")%string = s.
Proof.
  induction s as [|c s IH]; [reflexivity|].
  change (String c (s ++ "")%string = String c s). now rewrite IH.
Qed.

Lemma bearer_token_second_field h tok :
  tok <> "" ->
  (Header.bearer_token (Some h) = JS.Str tok <-> second_field h tok).
Proof.
  intros Htok. unfold Header.bearer_token, second_field. split.
  - destruct (JS.truthy (JS.Str h)) eqn:Hh.
    + destruct (Header.split " " h) as [|f fs] eqn:Hs;
        [now apply split_not_nil in Hs|].
      destruct fs as [|f1 fs]; cbn; [discriminate|]. intros [= ->].
      apply split_inv in Hs as [Hf [[[=] _]|(r & -> & Hr)]].
      apply split_inv in Hr as [Hf1 [[-> ->]|(r1 & -> & _)]].
      * exists f, "". rewrite append_empty_r. auto.
      * exists f, (String " " r1). repeat split; eauto.
    + intros [= ->]. cbn in Hh. apply negb_false_iff, String.eqb_eq in Hh.
      contradiction.
  - intros (scheme & rest & -> & Hscheme & Htk & Hrest).
    assert (JS.truthy (JS.Str (scheme ++ " " ++ tok ++ rest)) = true) as ->.
    { cbn. now destruct scheme. }
    change (scheme ++ " " ++ tok ++ rest)%string
      with (scheme ++ String " " (tok ++ rest))%string.
    rewrite (split_field _ _ _ Hscheme).
    destruct Hrest as [->|[more ->]].
    + rewrite append_empty_r, (split_one _ _ Htk). reflexivity.
    + rewrite (split_field _ _ _ Htk). reflexivity.
Qed.

(** X23.  The token of a request is the second field of its
    Authorization header, the fields being separated by single spaces.
    The middleware takes the token [tok] (not empty) from the header
    exactly when the header consists of a first field, a space, [tok],
    and then nothing or a space and anything; the first field is not
    looked at.  It answers 401 "Access token required" in all other
    cases: no header, no space in it, or an empty second field. *)
Theorem token_is_second_field_of_header (authHeader : option string) :
  (forall tok, tok <> "" ->
      (Header.bearer_token authHeader = JS.Str tok
       <-> exists h, authHeader = Some h /\ second_field h tok))
  /\ (Header.token_required authHeader = false
      <-> exists h tok, authHeader = Some h /\ second_field h tok /\ tok <> "").
Proof.
  assert (forall tok, tok <> "" ->
            (Header.bearer_token authHeader = JS.Str tok
             <-> exists h, authHeader = Some h /\ second_field h tok)) as Htoken.
  { intros tok Htok. destruct authHeader as [h|].
    - rewrite (bearer_token_second_field h tok Htok). split; [eauto|].
      now intros (h' & [= <-] & H).
    - split; [discriminate|]. now intros (h & [=] & _). }
  split; [exact Htoken|].
  unfold Header.token_required. rewrite negb_false_iff. split.
  - intros Htruthy.
    destruct (Header.bearer_token authHeader) as [| | | |tok] eqn:Hb;
      try discriminate.
    + unfold Header.bearer_token in Hb. destruct authHeader as [h|]; [|discriminate].
      destruct (JS.truthy (JS.Str h)); [|discriminate].
      destruct (Header.split " " h !! 1%nat); discriminate.
    + unfold Header.bearer_token in Hb. destruct authHeader as [h|]; [|discriminate].
      destruct (JS.truthy (JS.Str h)); [|discriminate].
      destruct (Header.split " " h !! 1%nat); discriminate.
    + assert (tok <> "") as Htok by (intros ->; discriminate).
      destruct authHeader as [h|]; [|discriminate].
      apply (bearer_token_second_field h tok Htok) in Hb. eauto.
  - intros (h & tok & -> & Hsf & Htok).
    apply (bearer_token_second_field h tok Htok) in Hsf. rewrite Hsf.
    cbn. now destruct (String.eqb_spec tok "").
Qed.

(** The scheme is not looked at, and a second space hides the token. *)
Example bearer_token_samples :
  Header.bearer_token (Some "Bearer abc.def.ghi") = JS.Str "abc.def.ghi"
  /\ Header.bearer_token (Some "Basic abc.def.ghi") = JS.Str "abc.def.ghi"
  /\ Header.bearer_token (Some "Bearer abc.def.ghi trailing") = JS.Str "abc.def.ghi"
  /\ Header.token_required (Some "abc.def.ghi") = true
  /\ Header.token_required (Some "Bearer  abc.def.ghi") = true
  /\ Header.token_required (Some "") = true
  /\ Header.token_required None = true.
Proof. repeat split. Qed.

(* ===================================================================== *)
(** * The ledger contract *)
(* ===================================================================== *)

Section Contract.

Local Open Scope Z_scope.

Lemma getAllTransactions_unfold s :
  FinanceTracker.getAllTransactions s
  = map (fun i => FinanceTracker.getTransaction (Z.of_nat i + 1) s)
        (seq 0 (Z.to_nat (FinanceTracker.transactionCount s))).
Proof. reflexivity. Qed.

Lemma addTransaction_appended msg d a ty s s' ev :
  0 <= FinanceTracker.transactionCount s ->
  FinanceTracker.addTransaction msg d a ty s = Some (s', ev) ->
  appended msg d a ty s s' ev.
Proof.
  intros Hpos. unfold FinanceTracker.addTransaction.
  destruct (FinanceTracker.uint_max <=? FinanceTracker.transactionCount s);
    [discriminate|].
  intros [= <- <-]. unfold appended. cbn zeta.
  set (n := FinanceTracker.transactionCount s + 1).
  set (ev := FinanceTracker.mkTransaction n d a ty _ _).
  assert (forall i, i <> n ->
            FinanceTracker.getTransaction i
              (FinanceTracker.mkStorage (<[n:=ev]> (FinanceTracker.transactions s))
                                        n (FinanceTracker.owner s))
            = FinanceTracker.getTransaction i s) as Hother.
  { intros i Hi. unfold FinanceTracker.getTransaction. cbn.
    now rewrite lookup_insert_ne by congruence. }
  repeat split; auto.
  - unfold FinanceTracker.getTransaction. cbn. now rewrite lookup_insert_eq.
  - rewrite !getAllTransactions_unfold. cbn [FinanceTracker.transactionCount].
    replace (Z.to_nat n) with (S (Z.to_nat (FinanceTracker.transactionCount s)))
      by (unfold n; lia).
    rewrite seq_S, map_app. cbn [map Nat.add]. f_equal.
    + apply map_ext_in. intros i Hi%in_seq. apply Hother. unfold n. lia.
    + f_equal. replace (Z.of_nat (Z.to_nat (FinanceTracker.transactionCount s)) + 1)
        with n by (unfold n; lia).
      unfold FinanceTracker.getTransaction. cbn. now rewrite lookup_insert_eq.
Qed.

(** X24.  A call of [addTransaction] that does not revert appends one
    entry to the ledger: the count grows by one and is the identifier of
    the new entry, which holds the values of the call, the sender and the
    block time, and is the event emitted; reading it back returns it;
    every other entry and the owner are as before; the list of all
    entries grows by the new one at its end.  The call reverts only when
    the count is at the maximum of a [uint]. *)
Theorem contract_add_appends_one_entry msg d a ty s :
  0 <= FinanceTracker.transactionCount s ->
  match FinanceTracker.addTransaction msg d a ty s with
  | Some (s', ev) => appended msg d a ty s s' ev
  | None => FinanceTracker.uint_max <= FinanceTracker.transactionCount s
  end.
Proof.
  intros Hpos.
  destruct (FinanceTracker.addTransaction msg d a ty s) as [[s' ev]|] eqn:H.
  - now apply addTransaction_appended.
  - unfold FinanceTracker.addTransaction in H.
    destruct (Z.leb_spec FinanceTracker.uint_max (FinanceTracker.transactionCount s));
      [assumption|discriminate].
Qed.

Lemma run_snoc calls c s :
  FinanceTracker.run (calls ++ [c]) s
  = FinanceTracker.after (FinanceTracker.run calls s) c.
Proof. unfold FinanceTracker.run. now rewrite fold_left_app. Qed.

Lemma imap_snoc {A B} (f : nat -> A -> B) (l : list A) (x : A) :
  imap f (l ++ [x]) = imap f l ++ [f (length l) x].
Proof.
  rewrite imap_app. cbn. now rewrite Nat.add_0_r.
Qed.

(** X25.  The ledger of a new contract lists the calls made to it.  After
    any sequence of calls of [addTransaction] to a newly deployed
    contract (fewer than 2^256 of them) the count is the number of
    calls, the list of all entries holds, for each call in order, its
    values under the identifiers 1, 2, 3, ..., reading an identifier
    outside of 1 .. count returns the zero entry, and the owner is the
    deployer. *)
Theorem contract_ledger_lists_calls msg calls :
  Z.of_nat (length calls) <= FinanceTracker.uint_max ->
  lists_calls msg calls (FinanceTracker.run calls (FinanceTracker.constructor msg)).
Proof.
  induction calls as [|c calls IH] using rev_ind; intros Hlen.
  - unfold lists_calls. cbn. repeat split; auto.
    intros i c H. inversion H.
  - rewrite length_app in Hlen. cbn [length] in Hlen.
    destruct IH as (Hcount & Hall & Hget & Hzero & Howner); [lia|].
    rewrite run_snoc.
    set (s := FinanceTracker.run calls (FinanceTracker.constructor msg)) in *.
    unfold FinanceTracker.after.
    destruct (FinanceTracker.addTransaction (FinanceTracker.call_msg c)
                (FinanceTracker.call_description c) (FinanceTracker.call_amount c)
                (FinanceTracker.call_type c) s) as [[s' ev]|] eqn:Hadd.
    2: { unfold FinanceTracker.addTransaction in Hadd.
         destruct (Z.leb_spec FinanceTracker.uint_max
                     (FinanceTracker.transactionCount s));
           [lia|discriminate]. }
    apply addTransaction_appended in Hadd
      as (Hc' & Hev & Hnew & Hother & Hown' & Hall'); [|lia].
    assert (ev = entry_of (length calls) c) as Hentry.
    { rewrite Hev. unfold entry_of. now rewrite Hcount. }
    unfold lists_calls. rewrite length_app. cbn [length].
    split; [rewrite Hc', Hcount; lia|].
    split; [now rewrite Hall', Hall, imap_snoc, Hentry|].
    split; [|split].
    + intros i c' Hi.
      destruct (decide (i = length calls)) as [->|Hne].
      * rewrite list_lookup_middle in Hi by reflexivity. injection Hi as <-.
        rewrite <- Hentry, <- Hnew. f_equal. lia.
      * assert (i < length calls)%nat as Hlt.
        { apply lookup_lt_Some in Hi. rewrite length_app in Hi. cbn in Hi. lia. }
        rewrite lookup_app_l in Hi by exact Hlt.
        rewrite Hother by lia. now apply Hget.
    + intros k Hk. rewrite Hother by lia. apply Hzero. lia.
    + now rewrite Hown'.
Qed.

End Contract.

Lemma contract_add_appends_one_entry_witness :
  let msg := FinanceTracker.mkMsg 51966 1700000000 in
  let s := FinanceTracker.constructor (FinanceTracker.mkMsg 48879 1600000000) in
  let ev := FinanceTracker.mkTransaction 1 "Paycheck" 1000 "income" 51966 1700000000 in
  appended msg "Paycheck" 1000 "income" s
    (FinanceTracker.mkStorage {[ 1%Z := ev ]} 1 48879) ev.
Proof.
  apply (contract_add_appends_one_entry
           (FinanceTracker.mkMsg 51966 1700000000) "Paycheck" 1000 "income"
           (FinanceTracker.constructor (FinanceTracker.mkMsg 48879 1600000000))).
  cbn. lia.
Defined.

Lemma contract_ledger_lists_calls_witness :
  let deployer := FinanceTracker.mkMsg 48879 1600000000 in
  let calls := [FinanceTracker.mkCall (FinanceTracker.mkMsg 51966 1700000000)
                  "Paycheck" 1000 "income";
                FinanceTracker.mkCall (FinanceTracker.mkMsg 51966 1700000060)
                  "Rent" 400 "expense"] in
  lists_calls deployer calls
    (FinanceTracker.run calls (FinanceTracker.constructor deployer)).
Proof.
  apply (contract_ledger_lists_calls (FinanceTracker.mkMsg 48879 1600000000)).
  vm_compute. discriminate.
Defined.
